(** * Bird-Identification-App: usage ledger and result normaliser

    A shallow embedding of
    - [shared/schema.ts]   (plan limits, the result schema),
    - [server/storage.ts]  (the in-memory usage ledger [MemStorage]),
    - [server/gemini.ts]   (the parsing half of [identifyBirdWithGemini];
                            in this tree the function is the second part of
                            [server/soundIdentification.ts], lines 124-383),
    - [server/routes.ts]   (the middleware and the identify, subscription
                            and journal endpoints),
    followed by the properties of the specification that talk about them
    and by further properties of the storage, the normaliser and the
    endpoints.

    Conventions of the embedding.
    - A JS [Date] is its time value, an integer number of milliseconds ([Z]).
      [Date.prototype.toDateString] depends on the time zone of the host and
      is kept abstract: every definition and theorem of the ledger is
      parametric in a function [toDateString] from time values to calendar
      days.  Closed examples instantiate it with the UTC day index.
    - [new Date()] reads a clock.  The world of the ledger carries the
      sequence of all readings the clock will ever give and the number of
      readings consumed so far, so two calls of [new Date()] in one method
      are two readings.
    - Counters and identifiers are integral JS numbers, modelled in [Z];
      the only non-finite number the ledger handles is [Infinity].
    - The numbers of a parsed AI response are finite doubles or the
      infinities; they are modelled as rationals (every finite double is
      one) extended with [NaN] and the two infinities.
    - [async]/[await] is sequential composition: no two ledger methods are
      interleaved.
    - A request is what its handler reads of it: the user id of the header
      or query, the id parameter of the path and the parsed JSON body.  A
      response is its status and body.  The identification service behind
      POST /api/identify is a parameter of the handler.
    - A JS string is a sequence of code units; the texts the endpoints take
      apart are modelled with 8-bit units. *)

From stdpp Require Import gmap strings list.
From Stdlib Require Import ZArith QArith Qround Lia Lqa Sorted.

Local Open Scope string_scope.
Local Open Scope Z_scope.
Local Set Warnings "-register-all".

(** ** JS values that come out of [JSON.parse] *)

Module Js.

Inductive number : Type :=
| NaN
| PInf
| NInf
| Fin (q : Q).

Inductive json : Type :=
| JNull
| JBool (b : bool)
| JNum (n : number)
| JStr (s : string)
| JArr (l : list json)
| JObj (fields : list (string * json)).

(** A JS value is a JSON value or [undefined]. *)
Definition value : Type := option json.
Definition undefined : value := None.

Definition isZero (q : Q) : bool := (Qnum q =? 0)%Z.

(** ToBoolean *)
Definition truthy (v : value) : bool :=
  match v with
  | None => false
  | Some JNull => false
  | Some (JBool b) => b
  | Some (JNum NaN) => false
  | Some (JNum (Fin q)) => negb (isZero q)
  | Some (JNum _) => true
  | Some (JStr s) => negb (bool_decide (s = ""))
  | Some (JArr _) => true
  | Some (JObj _) => true
  end.

(** [v || d] where [d] is a literal *)
Definition or_else (v : value) (d : json) : json :=
  match v with
  | Some j => if truthy v then j else d
  | None => d
  end.

(** Own property of a parsed object: first binding of the key. *)
Fixpoint lookup_field (k : string) (fields : list (string * json)) : value :=
  match fields with
  | [] => None
  | (k', v) :: rest => if String.eqb k' k then Some v else lookup_field k rest
  end.

End Js.

(** ** shared/schema.ts *)

Module Schema.

Definition FREE : string := "free".
Definition PREMIUM : string := "premium".

(** A limit of the plan table: a JS number that may be [Infinity]. *)
Inductive limit : Type :=
| Num (n : Z)
| Infinity.

Record SubscriptionLimits : Type := {
  identifications_perDay : limit;
  identifications_history : limit;
  sightings_total : limit;
  birdDatabase_fullAccess : bool;
  birdDatabase_offlineAccess : bool;
  birdDatabase_detailedInfo : bool;
}.

Definition subscriptionLimitsMap (plan : string) : option SubscriptionLimits :=
  if bool_decide (plan = FREE) then
    Some {| identifications_perDay := Num 5;
            identifications_history := Num 3;
            sightings_total := Num 10;
            birdDatabase_fullAccess := false;
            birdDatabase_offlineAccess := false;
            birdDatabase_detailedInfo := false |}
  else if bool_decide (plan = PREMIUM) then
    Some {| identifications_perDay := Infinity;
            identifications_history := Num 30;
            sightings_total := Infinity;
            birdDatabase_fullAccess := true;
            birdDatabase_offlineAccess := true;
            birdDatabase_detailedInfo := true |}
  else None.

(** Row of the [users] table ([User = typeof users.$inferSelect]). *)
Record User : Type := {
  id : Z;
  username : string;
  password : string;
  email : option string;
  subscriptionPlan : string;
  subscriptionEndDate : option Z;
  stripeCustomerId : option string;
  stripeSubscriptionId : option string;
  dailyIdentificationsCount : option Z;
  lastIdentificationDate : option Z;
}.

Record InsertUser : Type := {
  ins_username : string;
  ins_password : string;
}.

(** Row of [bird_identifications]; [result] is a [jsonb] column. *)
Record BirdIdentification : Type := {
  bi_id : Z;
  bi_userId : option Z;
  bi_imageUrl : string;
  bi_identifiedAt : Z;
  bi_result : Js.json;
}.

Record InsertBirdIdentification : Type := {
  ibi_userId : option Z;
  ibi_imageUrl : string;
  ibi_result : Js.json;
}.

(** The interfaces of the result; an optional property is an [option]. *)
Record PhysicalCharacteristics : Type := {
  size : option string;
  weight : option string;
  wingspan : option string;
  plumage : option string;
  bill : option string;
  legs : option string;
  eyeColor : option string;
}.

Record HabitatAndRange : Type := {
  preferredHabitat : option string;
  geographicRange : option string;
  rangeMapUrl : option string;
}.

Record MigrationPatterns : Type := {
  migratory : option bool;
  migrationSeason : option string;
  migrationRoute : option string;
  winteringGrounds : option string;
  breedingGrounds : option string;
}.

Record SeasonalVariations : Type := {
  breedingPlumage : option string;
  winterPlumage : option string;
  juvenilePlumage : option string;
  seasonalBehavior : option string;
}.

Record BirdSounds : Type := {
  calls : option string;
  songs : option string;
  audioUrl : option string;
}.

Record Bird : Type := {
  name : string;
  scientificName : string;
  confidence : Js.number;
  description : string;
  features : list string;
  habitat : option string;
  sound : option string;
  imageUrl : option string;
  physicalCharacteristics : option PhysicalCharacteristics;
  habitatAndRange : option HabitatAndRange;
  migrationPatterns : option MigrationPatterns;
  seasonalVariations : option SeasonalVariations;
  sounds : option BirdSounds;
}.

Record SimilarBird : Type := {
  sb_name : string;
  sb_scientificName : string;
  sb_confidence : Js.number;
  sb_imageUrl : option string;
}.

Record IdentificationResult : Type := {
  mainBird : Bird;
  similarBirds : option (list SimilarBird);
  originalImage : string;
}.

End Schema.

(** ** server/storage.ts *)

Module Storage.
Import Schema.

(** [Partial<User>]: a field is either absent or carries its new value. *)
Record PartialUser : Type := {
  p_id : option Z;
  p_username : option string;
  p_password : option string;
  p_email : option (option string);
  p_subscriptionPlan : option string;
  p_subscriptionEndDate : option (option Z);
  p_stripeCustomerId : option (option string);
  p_stripeSubscriptionId : option (option string);
  p_dailyIdentificationsCount : option (option Z);
  p_lastIdentificationDate : option (option Z);
}.

(** [{ ...user, ...updates }] *)
Definition spread (user : User) (updates : PartialUser) : User :=
  {| id := default (id user) (p_id updates);
     username := default (username user) (p_username updates);
     password := default (password user) (p_password updates);
     email := default (email user) (p_email updates);
     subscriptionPlan := default (subscriptionPlan user) (p_subscriptionPlan updates);
     subscriptionEndDate := default (subscriptionEndDate user) (p_subscriptionEndDate updates);
     stripeCustomerId := default (stripeCustomerId user) (p_stripeCustomerId updates);
     stripeSubscriptionId := default (stripeSubscriptionId user) (p_stripeSubscriptionId updates);
     dailyIdentificationsCount :=
       default (dailyIdentificationsCount user) (p_dailyIdentificationsCount updates);
     lastIdentificationDate :=
       default (lastIdentificationDate user) (p_lastIdentificationDate updates) |}.

Record DailyLimitCheckResult : Type := {
  withinLimit : bool;
  current : Z;
  limit : Z;
}.

(** The private fields of [MemStorage].  [users] is only read and written
    by key; [identifications] is also enumerated, so it keeps the insertion
    order of the JS [Map]. *)
Record MemStorage : Type := {
  users : gmap Z User;
  identifications : list (Z * BirdIdentification);
  userIdCounter : Z;
  identificationIdCounter : Z;
}.

Definition empty : MemStorage :=
  {| users := ∅; identifications := []; userIdCounter := 1;
     identificationIdCounter := 1 |}.

(** [Map.prototype.get] and [Map.prototype.set] on an ordered map. *)
Fixpoint map_get {V} (k : Z) (m : list (Z * V)) : option V :=
  match m with
  | [] => None
  | (k', v) :: rest => if bool_decide (k' = k) then Some v else map_get k rest
  end.

Fixpoint map_set {V} (k : Z) (v : V) (m : list (Z * V)) : list (Z * V) :=
  match m with
  | [] => [(k, v)]
  | (k', v') :: rest =>
      if bool_decide (k' = k) then (k, v) :: rest else (k', v') :: map_set k v rest
  end.

Definition map_values {V} (m : list (Z * V)) : list V := snd <$> m.

(** The storage together with the clock it reads. *)
Record World : Type := {
  mem : MemStorage;
  clock : nat -> Z;
  tick : nat;
}.

(** What a method throws: [new Error(`User with id ${id} not found`)]. *)
Inductive Error : Type :=
| UserNotFound (userId : Z).

(** Methods: state passing, an exception keeps the state reached so far. *)
Definition M (A : Type) : Type := World -> (Error + A) * World.

Definition ret {A} (a : A) : M A := fun w => (inr a, w).
Definition throw {A} (e : Error) : M A := fun w => (inl e, w).
Definition bind {A B} (c : M A) (k : A -> M B) : M B :=
  fun w => match c w with
           | (inl e, w') => (inl e, w')
           | (inr a, w') => k a w'
           end.

Declare Scope storage_scope.
Delimit Scope storage_scope with storage.
Notation "'let*' x ':=' c 'in' k" := (bind c (fun x => k))
  (at level 10, x name, c at level 100, k at level 200) : storage_scope.
Notation "c ';;;' k" := (bind c (fun _ => k))
  (at level 100, k at level 200, right associativity) : storage_scope.
Local Open Scope storage_scope.

Definition getMem : M MemStorage := fun w => (inr (mem w), w).
Definition putMem (s : MemStorage) : M unit :=
  fun w => (inr tt, {| mem := s; clock := clock w; tick := tick w |}).

(** [new Date()] *)
Definition newDate : M Z :=
  fun w => (inr (clock w (tick w)),
            {| mem := mem w; clock := clock w; tick := S (tick w) |}).

Definition setUsers (us : gmap Z User) (s : MemStorage) : MemStorage :=
  {| users := us; identifications := identifications s;
     userIdCounter := userIdCounter s;
     identificationIdCounter := identificationIdCounter s |}.

Definition setIdentifications (ids : list (Z * BirdIdentification))
    (s : MemStorage) : MemStorage :=
  {| users := users s; identifications := ids;
     userIdCounter := userIdCounter s;
     identificationIdCounter := identificationIdCounter s |}.

Definition getUser (id : Z) : M (option User) :=
  let* s := getMem in ret (users s !! id).

Definition createUser (insertUser : InsertUser) : M User :=
  let* s := getMem in
  let id := userIdCounter s in
  putMem {| users := users s; identifications := identifications s;
            userIdCounter := id + 1;
            identificationIdCounter := identificationIdCounter s |} ;;;
  let user := {| id := id;
                 username := ins_username insertUser;
                 password := ins_password insertUser;
                 email := None;
                 subscriptionPlan := "free";
                 subscriptionEndDate := None;
                 stripeCustomerId := None;
                 stripeSubscriptionId := None;
                 dailyIdentificationsCount := Some 0;
                 lastIdentificationDate := None |} in
  let* s := getMem in
  putMem (setUsers (<[id := user]> (users s)) s) ;;;
  ret user.

Definition updateUser (id : Z) (updates : PartialUser) : M User :=
  let* s := getMem in
  match users s !! id with
  | None => throw (UserNotFound id)
  | Some user =>
      let updatedUser := spread user updates in
      putMem (setUsers (<[id := updatedUser]> (users s)) s) ;;;
      ret updatedUser
  end.

Definition updateUserSubscription (userId : Z) (plan : string)
    (endDate : option Z) : M User :=
  let* user := getUser userId in
  match user with
  | None => throw (UserNotFound userId)
  | Some _ =>
      updateUser userId
        {| p_id := None; p_username := None; p_password := None; p_email := None;
           p_subscriptionPlan := Some plan;
           p_subscriptionEndDate := Some endDate;
           p_stripeCustomerId := None; p_stripeSubscriptionId := None;
           p_dailyIdentificationsCount := None;
           p_lastIdentificationDate := None |}
  end.

(** [count || 0] on a nullable integer column *)
Definition or_zero (c : option Z) : Z :=
  match c with
  | Some n => if n =? 0 then 0 else n
  | None => 0
  end.

(** [a < b] where [b] may be [Infinity] *)
Definition lt_limit (a : Z) (b : Schema.limit) : bool :=
  match b with
  | Num n => a <? n
  | Infinity => true
  end.

Definition dailyUpdate (count : Z) (date : Z) : PartialUser :=
  {| p_id := None; p_username := None; p_password := None; p_email := None;
     p_subscriptionPlan := None; p_subscriptionEndDate := None;
     p_stripeCustomerId := None; p_stripeSubscriptionId := None;
     p_dailyIdentificationsCount := Some (Some count);
     p_lastIdentificationDate := Some (Some date) |}.

(** [insertIdentification.userId || null]: [0] is falsy as well *)
Definition or_null (userId : option Z) : option Z :=
  match userId with
  | Some n => if n =? 0 then None else Some n
  | None => None
  end.

Definition resetDailyIdentificationCount (userId : Z) : M unit :=
  let* now := newDate in
  updateUser userId (dailyUpdate 0 now) ;;;
  ret tt.

Section WithCalendar.
Context {Day : Type} `{EqDecision Day}.
Variable toDateString : Z -> Day.

(** [user.lastIdentificationDate ?
      new Date().toDateString() !==
        new Date(user.lastIdentificationDate).toDateString() : true] *)
Definition isNewDay (user : User) : M bool :=
  match lastIdentificationDate user with
  | Some last =>
      let* now := newDate in
      ret (negb (bool_decide (toDateString now = toDateString last)))
  | None => ret true
  end.

Definition checkDailyIdentificationLimit (userId : Z) : M DailyLimitCheckResult :=
  let* user := getUser userId in
  match user with
  | None => throw (UserNotFound userId)
  | Some user =>
      let* newDay := isNewDay user in
      if newDay : bool then
        resetDailyIdentificationCount userId ;;;
        ret {| withinLimit := true; current := 0; limit := 5 |}
      else
        let limit := if bool_decide (subscriptionPlan user = "premium")
                     then Infinity else Num 5 in
        let current := or_zero (dailyIdentificationsCount user) in
        ret {| withinLimit := lt_limit current limit;
               current := current;
               limit := match limit with Infinity => -1 | Num n => n end |}
  end.

Definition incrementDailyIdentificationCount (userId : Z) : M Z :=
  let* user := getUser userId in
  match user with
  | None => throw (UserNotFound userId)
  | Some user =>
      let* newDay := isNewDay user in
      let count := if newDay : bool then 1
                   else or_zero (dailyIdentificationsCount user) + 1 in
      let* now := newDate in
      updateUser userId (dailyUpdate count now) ;;;
      ret count
  end.

Definition createIdentification (insertIdentification : InsertBirdIdentification)
    : M BirdIdentification :=
  let* s := getMem in
  let id := identificationIdCounter s in
  putMem {| users := users s; identifications := identifications s;
            userIdCounter := userIdCounter s;
            identificationIdCounter := id + 1 |} ;;;
  let* now := newDate in
  (* if (insertIdentification.userId) { await this.increment...(userId) } *)
  (match or_null (ibi_userId insertIdentification) with
   | Some userId => incrementDailyIdentificationCount userId ;;; ret tt
   | None => ret tt
   end) ;;;
  let identification :=
    {| bi_id := id;
       bi_userId := or_null (ibi_userId insertIdentification);
       bi_imageUrl := ibi_imageUrl insertIdentification;
       bi_identifiedAt := now;
       bi_result := ibi_result insertIdentification |} in
  let* s := getMem in
  putMem (setIdentifications (map_set id identification (identifications s)) s) ;;;
  ret identification.

(** [n] successive calls of one method, results in call order. *)
Fixpoint repeatM {A} (n : nat) (c : M A) : M (list A) :=
  match n with
  | O => ret []
  | S n' => let* a := c in let* rest := repeatM n' c in ret (a :: rest)
  end.

End WithCalendar.

Definition getIdentification (id : Z) : M (option BirdIdentification) :=
  let* s := getMem in ret (map_get id (identifications s)).

(** [Array.prototype.sort] with the comparator
    [(a, b) => b.identifiedAt - a.identifiedAt]: a stable sort, newest
    first.  The elements are inserted from the last to the first, each
    in front of the records that are not newer, so records of equal
    time keep their order. *)
Fixpoint insertNewestFirst (x : BirdIdentification)
    (sorted : list BirdIdentification) : list BirdIdentification :=
  match sorted with
  | [] => [x]
  | y :: rest =>
      if bi_identifiedAt y <=? bi_identifiedAt x
      then x :: y :: rest
      else y :: insertNewestFirst x rest
  end.

Definition sortNewestFirst (l : list BirdIdentification) : list BirdIdentification :=
  foldr insertNewestFirst [] l.

(** [arr.slice(0, end)] for an integral [end]; a negative [end] counts
    from the back of the array. *)
Definition slice0 {A} (l : list A) (e : Z) : list A :=
  if e <? 0 then take (Z.to_nat (Z.max (Z.of_nat (length l) + e) 0)) l
  else take (Z.to_nat e) l.

(** [userId] is [None] for [undefined]; [lim] is the value of the
    parameter after its default ([10]) has been applied. *)
Definition getRecentIdentifications (userId : option Z) (lim : Z)
    : M (list BirdIdentification) :=
  let* s := getMem in
  let identifications := map_values (identifications s) in
  match userId with
  | Some uid =>
      let identifications :=
        filter (fun i => bi_userId i = Some uid) identifications in
      let* user := getUser uid in
      let lim :=
        match user with
        | Some user =>
            let historyLimit :=
              if bool_decide (subscriptionPlan user = "premium") then 30 else 3 in
            Z.min lim historyLimit
        | None => lim
        end in
      ret (slice0 (sortNewestFirst identifications) lim)
  | None => ret (slice0 (sortNewestFirst identifications) lim)
  end.

(** The remaining user and identification methods of [MemStorage]. *)

Record StripeCustomerInfo : Type := {
  customerId : string;
  subscriptionId : option string;
}.

Definition updateStripeCustomerId (userId : Z) (customer : string) : M User :=
  updateUser userId
    {| p_id := None; p_username := None; p_password := None; p_email := None;
       p_subscriptionPlan := None; p_subscriptionEndDate := None;
       p_stripeCustomerId := Some (Some customer);
       p_stripeSubscriptionId := None;
       p_dailyIdentificationsCount := None;
       p_lastIdentificationDate := None |}.

Definition updateUserStripeInfo (userId : Z) (stripeInfo : StripeCustomerInfo)
    : M User :=
  updateUser userId
    {| p_id := None; p_username := None; p_password := None; p_email := None;
       p_subscriptionPlan := None; p_subscriptionEndDate := None;
       p_stripeCustomerId := Some (Some (customerId stripeInfo));
       p_stripeSubscriptionId := Some (subscriptionId stripeInfo);
       p_dailyIdentificationsCount := None;
       p_lastIdentificationDate := None |}.

(** [identifications.filter(id => id.userId === userId).length] *)
Definition getUserIdentificationCount (userId : Z) : M Z :=
  let* s := getMem in
  ret (Z.of_nat (length (filter (fun i => bi_userId i = Some userId)
                                (map_values (identifications s))))).

End Storage.

(** ** server/gemini.ts : from the parsed response to the validated result *)

Module Gemini.
Import Js Schema.

(** *** The [Math] functions used on the confidence *)

(** [Math.round]: the closest integer, a tie goes towards [+Infinity]. *)
Definition Math_round (n : number) : number :=
  match n with
  | Fin q => Fin (inject_Z (Qfloor (q + (1 # 2))))
  | other => other
  end.

Definition Math_max (a b : number) : number :=
  match a, b with
  | NaN, _ | _, NaN => NaN
  | PInf, _ | _, PInf => PInf
  | NInf, x | x, NInf => x
  | Fin p, Fin q => if Qle_bool p q then Fin q else Fin p
  end.

Definition Math_min (a b : number) : number :=
  match a, b with
  | NaN, _ | _, NaN => NaN
  | NInf, _ | _, NInf => NInf
  | PInf, x | x, PInf => x
  | Fin p, Fin q => if Qle_bool p q then Fin p else Fin q
  end.

(** *** What the [try] block can throw *)

Inductive Thrown : Type :=
| ErrorWith (message : json)  (* [new Error(message)] *)
| TypeError                   (* a property read on [null] or [undefined] *)
| ZodError.                   (* [identificationResultSchema.parse] *)

(** What [identifyBirdWithGemini] rejects with once the response text has
    been received. *)
Inductive JsError : Type :=
| Error (message : string).

Definition T (A : Type) : Type := (Thrown + A)%type.
Definition ok {A} (a : A) : T A := inr a.
Definition raise {A} (e : Thrown) : T A := inl e.
Definition andThen {A B} (c : T A) (k : A -> T B) : T B :=
  match c with
  | inl e => inl e
  | inr a => k a
  end.

Declare Scope try_scope.
Delimit Scope try_scope with try.
Notation "'let!' x ':=' c 'in' k" := (andThen c (fun x => k))
  (at level 10, x name, c at level 100, k at level 200) : try_scope.
Local Open Scope try_scope.

Fixpoint mapT {A B} (f : A -> T B) (l : list A) : T (list B) :=
  match l with
  | [] => ok []
  | x :: rest =>
      let! y := f x in
      let! ys := mapT f rest in
      ok (y :: ys)
  end.

(** [v.k]: throws on [null] and [undefined]; a primitive or an array has
    none of the properties the block reads. *)
Definition prop (v : value) (k : string) : T value :=
  match v with
  | None => raise TypeError
  | Some JNull => raise TypeError
  | Some (JObj fields) => ok (lookup_field k fields)
  | Some _ => ok undefined
  end.

(** *** The object literal [validatedResult], before validation *)

Record RawPhysicalCharacteristics : Type := {
  raw_size : value; raw_weight : value; raw_wingspan : value;
  raw_plumage : value; raw_bill : value; raw_legs : value;
  raw_eyeColor : value;
}.

Record RawHabitatAndRange : Type := {
  raw_preferredHabitat : value; raw_geographicRange : value;
  raw_rangeMapUrl : value;
}.

Record RawMigrationPatterns : Type := {
  raw_migratory : bool;
  raw_migrationSeason : value; raw_migrationRoute : value;
  raw_winteringGrounds : value; raw_breedingGrounds : value;
}.

Record RawSeasonalVariations : Type := {
  raw_breedingPlumage : value; raw_winterPlumage : value;
  raw_juvenilePlumage : value; raw_seasonalBehavior : value;
}.

Record RawBirdSounds : Type := {
  raw_calls : value; raw_songs : value; raw_audioUrl : value;
}.

Record RawBird : Type := {
  raw_name : json;
  raw_scientificName : json;
  raw_confidence : number;
  raw_description : json;
  raw_features : json;
  raw_habitat : json;
  raw_sound : json;
  raw_physicalCharacteristics : option RawPhysicalCharacteristics;
  raw_habitatAndRange : option RawHabitatAndRange;
  raw_migrationPatterns : option RawMigrationPatterns;
  raw_seasonalVariations : option RawSeasonalVariations;
  raw_sounds : option RawBirdSounds;
}.

Record RawSimilarBird : Type := {
  raw_sb_name : json;
  raw_sb_scientificName : json;
  raw_sb_confidence : number;
}.

Record RawResult : Type := {
  raw_mainBird : RawBird;
  raw_similarBirds : list RawSimilarBird;
  raw_originalImage : string;
}.

(** *** [identificationResultSchema.parse] *)

(** [z.string()] *)
Definition zString (v : value) : T string :=
  match v with
  | Some (JStr s) => ok s
  | _ => raise ZodError
  end.

(** [z.string().optional()] *)
Definition zOptString (v : value) : T (option string) :=
  match v with
  | None => ok None
  | Some (JStr s) => ok (Some s)
  | Some _ => raise ZodError
  end.

(** [z.number()]: any number but [NaN] *)
Definition zNumber (n : number) : T number :=
  match n with
  | NaN => raise ZodError
  | other => ok other
  end.

(** [z.array(z.string())] *)
Definition zStringArray (v : value) : T (list string) :=
  match v with
  | Some (JArr l) => mapT (fun j => zString (Some j)) l
  | _ => raise ZodError
  end.

Definition zOptional {A B} (f : A -> T B) (o : option A) : T (option B) :=
  match o with
  | None => ok None
  | Some a => let! b := f a in ok (Some b)
  end.

Definition physicalCharacteristicsSchema (r : RawPhysicalCharacteristics)
    : T PhysicalCharacteristics :=
  let! size := zOptString (raw_size r) in
  let! weight := zOptString (raw_weight r) in
  let! wingspan := zOptString (raw_wingspan r) in
  let! plumage := zOptString (raw_plumage r) in
  let! bill := zOptString (raw_bill r) in
  let! legs := zOptString (raw_legs r) in
  let! eyeColor := zOptString (raw_eyeColor r) in
  ok {| size := size; weight := weight; wingspan := wingspan;
        plumage := plumage; bill := bill; legs := legs;
        eyeColor := eyeColor |}.

Definition habitatAndRangeSchema (r : RawHabitatAndRange) : T HabitatAndRange :=
  let! preferredHabitat := zOptString (raw_preferredHabitat r) in
  let! geographicRange := zOptString (raw_geographicRange r) in
  let! rangeMapUrl := zOptString (raw_rangeMapUrl r) in
  ok {| preferredHabitat := preferredHabitat;
        geographicRange := geographicRange;
        rangeMapUrl := rangeMapUrl |}.

Definition migrationPatternsSchema (r : RawMigrationPatterns)
    : T MigrationPatterns :=
  let! migrationSeason := zOptString (raw_migrationSeason r) in
  let! migrationRoute := zOptString (raw_migrationRoute r) in
  let! winteringGrounds := zOptString (raw_winteringGrounds r) in
  let! breedingGrounds := zOptString (raw_breedingGrounds r) in
  ok {| migratory := Some (raw_migratory r);
        migrationSeason := migrationSeason;
        migrationRoute := migrationRoute;
        winteringGrounds := winteringGrounds;
        breedingGrounds := breedingGrounds |}.

Definition seasonalVariationsSchema (r : RawSeasonalVariations)
    : T SeasonalVariations :=
  let! breedingPlumage := zOptString (raw_breedingPlumage r) in
  let! winterPlumage := zOptString (raw_winterPlumage r) in
  let! juvenilePlumage := zOptString (raw_juvenilePlumage r) in
  let! seasonalBehavior := zOptString (raw_seasonalBehavior r) in
  ok {| breedingPlumage := breedingPlumage;
        winterPlumage := winterPlumage;
        juvenilePlumage := juvenilePlumage;
        seasonalBehavior := seasonalBehavior |}.

Definition birdSoundsSchema (r : RawBirdSounds) : T BirdSounds :=
  let! calls := zOptString (raw_calls r) in
  let! songs := zOptString (raw_songs r) in
  let! audioUrl := zOptString (raw_audioUrl r) in
  ok {| calls := calls; songs := songs; audioUrl := audioUrl |}.

Definition birdSchema (r : RawBird) : T Bird :=
  let! name := zString (Some (raw_name r)) in
  let! scientificName := zString (Some (raw_scientificName r)) in
  let! confidence := zNumber (raw_confidence r) in
  let! description := zString (Some (raw_description r)) in
  let! features := zStringArray (Some (raw_features r)) in
  let! habitat := zOptString (Some (raw_habitat r)) in
  let! sound := zOptString (Some (raw_sound r)) in
  let! physicalCharacteristics :=
    zOptional physicalCharacteristicsSchema (raw_physicalCharacteristics r) in
  let! habitatAndRange :=
    zOptional habitatAndRangeSchema (raw_habitatAndRange r) in
  let! migrationPatterns :=
    zOptional migrationPatternsSchema (raw_migrationPatterns r) in
  let! seasonalVariations :=
    zOptional seasonalVariationsSchema (raw_seasonalVariations r) in
  let! sounds := zOptional birdSoundsSchema (raw_sounds r) in
  ok {| name := name; scientificName := scientificName;
        confidence := confidence; description := description;
        features := features; habitat := habitat; sound := sound;
        imageUrl := None;
        physicalCharacteristics := physicalCharacteristics;
        habitatAndRange := habitatAndRange;
        migrationPatterns := migrationPatterns;
        seasonalVariations := seasonalVariations;
        sounds := sounds |}.

Definition similarBirdSchema (r : RawSimilarBird) : T SimilarBird :=
  let! name := zString (Some (raw_sb_name r)) in
  let! scientificName := zString (Some (raw_sb_scientificName r)) in
  let! confidence := zNumber (raw_sb_confidence r) in
  ok {| sb_name := name; sb_scientificName := scientificName;
        sb_confidence := confidence; sb_imageUrl := None |}.

Definition identificationResultSchema (r : RawResult) : T IdentificationResult :=
  let! mainBird := birdSchema (raw_mainBird r) in
  let! similarBirds := mapT similarBirdSchema (raw_similarBirds r) in
  ok {| mainBird := mainBird;
        similarBirds := Some similarBirds;
        originalImage := raw_originalImage r |}.

(** *** Lines 298-373: the body of the [try] block *)

(** The MIME type guessed from the first characters of the image. *)
Definition mimeTypeOf (base64Image : string) : string :=
  if String.prefix "/9j/" base64Image then "image/jpeg"
  else if String.prefix "iVBORw0KGgo" base64Image then "image/png"
  else if String.prefix "R0lGODlh" base64Image then "image/gif"
  else if String.prefix "UklGR" base64Image then "image/webp"
  else "image/jpeg".

(** [isImageIdentification && base64Image
      ? `data:${mimeType};base64,${base64Image}` : ""] *)
Definition originalImageOf (base64Image : option string) : string :=
  match base64Image with
  | Some b =>
      if bool_decide (b = "") then ""
      else "data:" +:+ mimeTypeOf b +:+ ";base64," +:+ b
  | None => ""
  end.

Definition readPhysicalCharacteristics (pc : value)
    : T (option RawPhysicalCharacteristics) :=
  if truthy pc then
    let! size := prop pc "size" in
    let! weight := prop pc "weight" in
    let! wingspan := prop pc "wingspan" in
    let! plumage := prop pc "plumage" in
    let! bill := prop pc "bill" in
    let! legs := prop pc "legs" in
    let! eyeColor := prop pc "eyeColor" in
    ok (Some {| raw_size := size; raw_weight := weight;
                raw_wingspan := wingspan; raw_plumage := plumage;
                raw_bill := bill; raw_legs := legs;
                raw_eyeColor := eyeColor |})
  else ok None.

Definition readHabitatAndRange (hr : value) : T (option RawHabitatAndRange) :=
  if truthy hr then
    let! preferredHabitat := prop hr "preferredHabitat" in
    let! geographicRange := prop hr "geographicRange" in
    let! rangeMapUrl := prop hr "rangeMapUrl" in
    ok (Some {| raw_preferredHabitat := preferredHabitat;
                raw_geographicRange := geographicRange;
                raw_rangeMapUrl := rangeMapUrl |})
  else ok None.

Definition readMigrationPatterns (mp : value) : T (option RawMigrationPatterns) :=
  if truthy mp then
    let! migratory := prop mp "migratory" in
    let! migrationSeason := prop mp "migrationSeason" in
    let! migrationRoute := prop mp "migrationRoute" in
    let! winteringGrounds := prop mp "winteringGrounds" in
    let! breedingGrounds := prop mp "breedingGrounds" in
    ok (Some {| raw_migratory := truthy migratory;
                raw_migrationSeason := migrationSeason;
                raw_migrationRoute := migrationRoute;
                raw_winteringGrounds := winteringGrounds;
                raw_breedingGrounds := breedingGrounds |})
  else ok None.

Definition readSeasonalVariations (sv : value) : T (option RawSeasonalVariations) :=
  if truthy sv then
    let! breedingPlumage := prop sv "breedingPlumage" in
    let! winterPlumage := prop sv "winterPlumage" in
    let! juvenilePlumage := prop sv "juvenilePlumage" in
    let! seasonalBehavior := prop sv "seasonalBehavior" in
    ok (Some {| raw_breedingPlumage := breedingPlumage;
                raw_winterPlumage := winterPlumage;
                raw_juvenilePlumage := juvenilePlumage;
                raw_seasonalBehavior := seasonalBehavior |})
  else ok None.

Definition readSounds (sd : value) : T (option RawBirdSounds) :=
  if truthy sd then
    let! calls := prop sd "calls" in
    let! songs := prop sd "songs" in
    let! audioUrl := prop sd "audioUrl" in
    ok (Some {| raw_calls := calls; raw_songs := songs;
                raw_audioUrl := audioUrl |})
  else ok None.

Section WithCoercions.
(** The two coercions of the language that [Math.round] can reach on a
    parsed value are parameters: StringToNumber, and the string an
    array converts to ([Array.prototype.toString]). *)
Variable StringToNumber : string -> number.
Variable ArrayToString : list json -> string.

(** ToNumber.  An object literal converts through ["[object Object]"]
    to [NaN]; a parsed object that shadows [toString] or [valueOf]
    with a non-function makes the conversion throw instead, which the
    enclosing [catch] treats like the [NaN] the validation rejects. *)
Definition ToNumber (j : json) : number :=
  match j with
  | JNull => Fin 0
  | JBool b => if b then Fin 1 else Fin 0
  | JNum n => n
  | JStr s => StringToNumber s
  | JArr l => StringToNumber (ArrayToString l)
  | JObj _ => NaN
  end.

(** [Math.min(Math.max(1, Math.round(c || 0)), 100)] *)
Definition clampConfidence (c : value) : number :=
  Math_min (Math_max (Fin 1) (Math_round (ToNumber (or_else c (JNum (Fin 0))))))
           (Fin 100).

(** The callback of [similarBirds.map]. *)
Definition readSimilarBird (bird : json) : T RawSimilarBird :=
  let! name := prop (Some bird) "name" in
  let! scientificName := prop (Some bird) "scientificName" in
  let! confidence := prop (Some bird) "confidence" in
  ok {| raw_sb_name := or_else name (JStr "Unknown Similar Bird");
        raw_sb_scientificName := or_else scientificName (JStr "Unknown Species");
        raw_sb_confidence := clampConfidence confidence |}.

Definition readMainBird (mainBird : value) : T RawBird :=
  let! name := prop mainBird "name" in
  let! scientificName := prop mainBird "scientificName" in
  let! confidence := prop mainBird "confidence" in
  let! description := prop mainBird "description" in
  let! features := prop mainBird "features" in
  let! habitat := prop mainBird "habitat" in
  let! sound := prop mainBird "sound" in
  let! pc := prop mainBird "physicalCharacteristics" in
  let! physicalCharacteristics := readPhysicalCharacteristics pc in
  let! hr := prop mainBird "habitatAndRange" in
  let! habitatAndRange := readHabitatAndRange hr in
  let! mp := prop mainBird "migrationPatterns" in
  let! migrationPatterns := readMigrationPatterns mp in
  let! sv := prop mainBird "seasonalVariations" in
  let! seasonalVariations := readSeasonalVariations sv in
  let! sd := prop mainBird "sounds" in
  let! sounds := readSounds sd in
  ok {| raw_name := or_else name (JStr "Unknown Bird");
        raw_scientificName := or_else scientificName (JStr "Unknown Species");
        raw_confidence := clampConfidence confidence;
        raw_description := or_else description (JStr "No description available");
        raw_features := or_else features (JArr [JStr "No features available"]);
        raw_habitat := or_else habitat (JStr "Unknown habitat");
        raw_sound := or_else sound (JStr "Unknown sound");
        raw_physicalCharacteristics := physicalCharacteristics;
        raw_habitatAndRange := habitatAndRange;
        raw_migrationPatterns := migrationPatterns;
        raw_seasonalVariations := seasonalVariations;
        raw_sounds := sounds |}.

(** [!parsedResponse.mainBird || !parsedResponse.mainBird.name] *)
Definition missingMainBird (mainBird : value) : T bool :=
  if truthy mainBird then
    let! name := prop mainBird "name" in
    ok (negb (truthy name))
  else ok true.

Definition tryBlock (base64Image : option string) (parsedResponse : json)
    : T IdentificationResult :=
  let! error := prop (Some parsedResponse) "error" in
  if truthy error then
    let! message := prop (Some parsedResponse) "message" in
    raise (ErrorWith (or_else message (JStr "Failed to identify bird in image")))
  else
    let! mainBird := prop (Some parsedResponse) "mainBird" in
    let! missing := missingMainBird mainBird in
    if missing : bool then
      raise (ErrorWith
               (JStr "The API response did not contain valid bird identification data"))
    else
      let! main := readMainBird mainBird in
      let! similar := prop (Some parsedResponse) "similarBirds" in
      let! similarBirds :=
        match similar with
        | Some (JArr birds) => mapT readSimilarBird birds
        | _ => ok []
        end in
      identificationResultSchema
        {| raw_mainBird := main;
           raw_similarBirds := similarBirds;
           raw_originalImage := originalImageOf base64Image |}.

(** Lines 292-378: the [try] block under its [catch (jsonError)], which
    replaces whatever was thrown by one fixed error.  The outer
    [catch] rethrows that error unchanged. *)
Definition normalizeResponse (base64Image : option string) (parsedResponse : json)
    : JsError + IdentificationResult :=
  match tryBlock base64Image parsedResponse with
  | inr result => inr result
  | inl _ => inl (Error "Failed to parse identification result from Gemini API")
  end.

End WithCoercions.

(** *** A validated result seen again as a parsed response

    The object [res.json(result)] puts on the wire and the [jsonb]
    column stores: an optional property that is [undefined] is left out. *)

Definition optStr (k : string) (o : option string) : list (string * json) :=
  match o with
  | Some s => [(k, JStr s)]
  | None => []
  end.

Definition optBool (k : string) (o : option bool) : list (string * json) :=
  match o with
  | Some b => [(k, JBool b)]
  | None => []
  end.

Definition optObj {A} (k : string) (f : A -> json) (o : option A)
    : list (string * json) :=
  match o with
  | Some a => [(k, f a)]
  | None => []
  end.

Definition physicalCharacteristicsToJson (p : PhysicalCharacteristics) : json :=
  JObj (optStr "size" (size p) ++ optStr "weight" (weight p) ++
        optStr "wingspan" (wingspan p) ++ optStr "plumage" (plumage p) ++
        optStr "bill" (bill p) ++ optStr "legs" (legs p) ++
        optStr "eyeColor" (eyeColor p)).

Definition habitatAndRangeToJson (h : HabitatAndRange) : json :=
  JObj (optStr "preferredHabitat" (preferredHabitat h) ++
        optStr "geographicRange" (geographicRange h) ++
        optStr "rangeMapUrl" (rangeMapUrl h)).

Definition migrationPatternsToJson (m : MigrationPatterns) : json :=
  JObj (optBool "migratory" (migratory m) ++
        optStr "migrationSeason" (migrationSeason m) ++
        optStr "migrationRoute" (migrationRoute m) ++
        optStr "winteringGrounds" (winteringGrounds m) ++
        optStr "breedingGrounds" (breedingGrounds m)).

Definition seasonalVariationsToJson (v : SeasonalVariations) : json :=
  JObj (optStr "breedingPlumage" (breedingPlumage v) ++
        optStr "winterPlumage" (winterPlumage v) ++
        optStr "juvenilePlumage" (juvenilePlumage v) ++
        optStr "seasonalBehavior" (seasonalBehavior v)).

Definition birdSoundsToJson (b : BirdSounds) : json :=
  JObj (optStr "calls" (calls b) ++ optStr "songs" (songs b) ++
        optStr "audioUrl" (audioUrl b)).

Definition birdToJson (b : Bird) : json :=
  JObj ([("name", JStr (name b));
         ("scientificName", JStr (scientificName b));
         ("confidence", JNum (confidence b));
         ("description", JStr (description b));
         ("features", JArr (JStr <$> features b))] ++
        optStr "habitat" (habitat b) ++ optStr "sound" (sound b) ++
        optStr "imageUrl" (imageUrl b) ++
        optObj "physicalCharacteristics" physicalCharacteristicsToJson
          (physicalCharacteristics b) ++
        optObj "habitatAndRange" habitatAndRangeToJson (habitatAndRange b) ++
        optObj "migrationPatterns" migrationPatternsToJson (migrationPatterns b) ++
        optObj "seasonalVariations" seasonalVariationsToJson
          (seasonalVariations b) ++
        optObj "sounds" birdSoundsToJson (sounds b)).

Definition similarBirdToJson (b : SimilarBird) : json :=
  JObj ([("name", JStr (sb_name b));
         ("scientificName", JStr (sb_scientificName b));
         ("confidence", JNum (sb_confidence b))] ++
        optStr "imageUrl" (sb_imageUrl b)).

Definition resultToJson (r : IdentificationResult) : json :=
  JObj ([("mainBird", birdToJson (mainBird r))] ++
        optObj "similarBirds" (fun l => JArr (similarBirdToJson <$> l))
          (similarBirds r) ++
        [("originalImage", JStr (originalImage r))]).

(** The confidence of an entry as an integer, when it is one. *)
Definition isInteger (n : number) (k : Z) : Prop := n = Fin (inject_Z k).

End Gemini.

(** ** Vocabulary of the properties *)

Module Spec.
Import Schema Storage.

(** The value a method returned, if it did not throw. *)
Definition returned {A} (r : (Error + A) * World) : option A :=
  match fst r with
  | inr a => Some a
  | inl _ => None
  end.

(** The world a method leaves behind. *)
Definition after {A} (r : (Error + A) * World) : World := snd r.

(** The UTC calendar: the day index of a time value. *)
Definition utcDay (t : Z) : Z := t `div` 86400000.

Section WithCalendar.
Context {Day : Type} `{EqDecision Day}.
Variable toDateString : Z -> Day.

(** The stored last-identification date of [u] is [null] or falls on
    another calendar day than the next reading of the clock. *)
Definition rolledOver (w : World) (u : User) : Prop :=
  match lastIdentificationDate u with
  | Some last => toDateString (clock w (tick w)) <> toDateString last
  | None => True
  end.

(** The stored date of [u] is [null] or not on day [d]. *)
Definition notOnDay (d : Day) (u : User) : Prop :=
  match lastIdentificationDate u with
  | Some last => toDateString last <> d
  | None => True
  end.

(** All readings the clock gives from now on, up to [n] of them, fall
    on day [d]. *)
Definition readingsOnDay (d : Day) (w : World) (n : nat) : Prop :=
  forall k : nat, (tick w <= k < tick w + n)%nat -> toDateString (clock w k) = d.

(** The count [incrementDailyIdentificationCount] stores for [u] when
    the clock reads [now]. *)
Definition nextCount (now : Z) (u : User) : Z :=
  match lastIdentificationDate u with
  | Some last =>
      if bool_decide (toDateString now = toDateString last)
      then or_zero (dailyIdentificationsCount u) + 1
      else 1
  | None => 1
  end.
End WithCalendar.

(** The number of clock readings [n] successive increments consume
    when the first starts on row [u]: two per call, one to compare the
    days and one for the stamp, but no comparison while the stored date
    is [null]. *)
Definition readingsOfIncrements (u : User) (n : nat) : nat :=
  match lastIdentificationDate u with
  | Some _ => 2 * n
  | None => 2 * n - 1
  end.

(** The reading that stamps the user when a method starts in [w]: the
    comparison of days consumes one reading unless the stored date is
    [null]. *)
Definition stampIndex (w : World) (u : User) : nat :=
  match lastIdentificationDate u with
  | Some _ => S (tick w)
  | None => tick w
  end.

(** A clock that starts at midnight UTC of day [day] and advances one
    second per reading. *)
Definition secondsFrom (day : Z) : nat -> Z :=
  fun k => day * 86400000 + 1000 * Z.of_nat k.

Definition startWorld (day : Z) : World :=
  {| mem := Storage.empty; clock := secondsFrom day; tick := 0 |}.

Definition robin : InsertUser :=
  {| ins_username := "robin"; ins_password := "secret" |}.

(** One registered user (id 1) on the free plan, never identified. *)
Definition freeWorld : World := after (createUser robin (startWorld 0)).

(** The same user after an upgrade to the premium plan. *)
Definition premiumWorld : World :=
  after (updateUserSubscription 1 "premium" None freeWorld).

(** The row of user 1 in [freeWorld]. *)
Definition freeRow : User :=
  {| id := 1; username := "robin"; password := "secret"; email := None;
     subscriptionPlan := "free"; subscriptionEndDate := None;
     stripeCustomerId := None; stripeSubscriptionId := None;
     dailyIdentificationsCount := Some 0; lastIdentificationDate := None |}.

(** User 1 after three identifications on day 0, seen on day 1: the
    storage is the one the three increments left, the clock now reads
    day 1. *)
Definition staleWorld : World :=
  {| mem := mem (after (repeatM 3 (incrementDailyIdentificationCount utcDay 1)
                         freeWorld));
     clock := secondsFrom 1; tick := 0 |}.

Definition staleRow : User :=
  {| id := 1; username := "robin"; password := "secret"; email := None;
     subscriptionPlan := "free"; subscriptionEndDate := None;
     stripeCustomerId := None; stripeSubscriptionId := None;
     dailyIdentificationsCount := Some 3; lastIdentificationDate := Some 4000 |}.

(** The row of user 1 in [premiumWorld]. *)
Definition premiumRow : User :=
  {| id := 1; username := "robin"; password := "secret"; email := None;
     subscriptionPlan := "premium"; subscriptionEndDate := None;
     stripeCustomerId := None; stripeSubscriptionId := None;
     dailyIdentificationsCount := Some 0; lastIdentificationDate := None |}.

(** An identification submitted by user 1. *)
Definition byRobin : InsertBirdIdentification :=
  {| ibi_userId := Some 1;
     ibi_imageUrl := "data:image/jpeg;base64,/9j/4AAQSkZJRg...";
     ibi_result := Js.JNull |}.

(** An identification whose owner id is the number 0. *)
Definition byZero : InsertBirdIdentification :=
  {| ibi_userId := Some 0;
     ibi_imageUrl := "data:image/jpeg;base64,/9j/4AAQSkZJRg...";
     ibi_result := Js.JNull |}.

(** The premium user after 31 identifications of their own. *)
Definition historyWorld : World :=
  after (repeatM 31 (createIdentification utcDay byRobin) premiumWorld).

(** A list of records runs from the newest to the oldest. *)
Definition newestFirst (l : list BirdIdentification) : Prop :=
  StronglySorted (fun a b => bi_identifiedAt b <= bi_identifiedAt a) l.

(** The records of [userId] in storage order. *)
Definition recordsOf (userId : Z) (w : World) : list BirdIdentification :=
  filter (fun i => bi_userId i = Some userId)
         (map_values (identifications (mem w))).

End Spec.

(** ** Vocabulary of the properties of the normaliser *)

Module NormalizerSpec.
Import Js Schema Gemini.

(** The property [k] of [v], [undefined] where the read would throw. *)
Definition field (v : value) (k : string) : value :=
  match prop v k with
  | inr x => x
  | inl _ => undefined
  end.

(** The response carries an explicit error flag. *)
Definition errorFlag (resp : json) : bool :=
  truthy (field (Some resp) "error").

(** The response has a primary bird entry with at least a name. *)
Definition namedMainBird (resp : json) : bool :=
  truthy (field (Some resp) "mainBird")
  && truthy (field (field (Some resp) "mainBird") "name").

(** The entries of the similar-birds list of the response. *)
Definition similarEntries (resp : json) : list json :=
  match field (Some resp) "similarBirds" with
  | Some (JArr birds) => birds
  | _ => []
  end.

(** [n] is an integer nearest to [q]. *)
Definition nearestInteger (q : Q) (n : Z) : Prop :=
  (inject_Z n - q <= 1 # 2)%Q /\ (q - inject_Z n <= 1 # 2)%Q.

(** [n] clamped into the inclusive range 1..100. *)
Definition clamp (n : Z) : Z := Z.min (Z.max 1 n) 100.

(** [out] is [x] rounded to a nearest integer and then clamped into
    1..100; the infinities clamp to the bounds and [NaN] has no image. *)
Definition roundedThenClamped (x out : number) : Prop :=
  match x with
  | Fin q => exists n : Z, nearestInteger q n /\ out = Fin (inject_Z (clamp n))
  | PInf => out = Fin (inject_Z 100)
  | NInf => out = Fin (inject_Z 1)
  | NaN => False
  end.

(** [n] is an integer within 1..100. *)
Definition inRange (n : number) : Prop :=
  exists k : Z, 1 <= k <= 100 /\ n = Fin (inject_Z k).

Section WithCoercions.
Variable StringToNumber : string -> number.
Variable ArrayToString : list json -> string.

(** The number the confidence of an entry of the response stands for:
    the default 0 when the property is absent or falsy. *)
Definition inputConfidence (entry : value) : number :=
  ToNumber StringToNumber ArrayToString
    (or_else (field entry "confidence") (JNum (Fin 0))).

End WithCoercions.

(** The result of the normaliser, if it did not reject. *)
Definition accepted {A} (r : JsError + A) : option A :=
  match r with
  | inr a => Some a
  | inl _ => None
  end.

(** An already-normalised result: what every accepted response yields.
    Texts that have a default are not empty, confidences are integers
    within 1..100, no image URL is set, a migration group says whether
    the bird migrates, and the similar-birds list is present. *)
Definition normalBird (b : Bird) : Prop :=
  name b <> ""
  /\ scientificName b <> ""
  /\ inRange (confidence b)
  /\ description b <> ""
  /\ (exists h, habitat b = Some h /\ h <> "")
  /\ (exists s, sound b = Some s /\ s <> "")
  /\ imageUrl b = None
  /\ (forall m, migrationPatterns b = Some m -> exists y, migratory m = Some y).

Definition normalSimilar (b : SimilarBird) : Prop :=
  sb_name b <> ""
  /\ sb_scientificName b <> ""
  /\ inRange (sb_confidence b)
  /\ sb_imageUrl b = None.

Definition normalResult (r : IdentificationResult) : Prop :=
  normalBird (mainBird r)
  /\ exists similar, similarBirds r = Some similar /\ Forall normalSimilar similar.

(** The one error the [catch] of the normaliser rethrows. *)
Definition parseFailure : JsError :=
  Error "Failed to parse identification result from Gemini API".

(** The closed examples below never convert a string or an array to a
    number; for them the two coercions are fixed to stand-ins. *)
Definition noNumeral : string -> number := fun _ => NaN.
Definition noElements : list json -> string := fun _ => "".

Definition robinWith (confidence : Q) : json :=
  JObj [("mainBird", JObj [("name", JStr "Robin");
                           ("confidence", JNum (Fin confidence))])].

Definition robinAndWren : json :=
  JObj [("mainBird", JObj [("name", JStr "Robin");
                           ("confidence", JNum (Fin (175 # 2)))]);
        ("similarBirds", JArr [JObj [("name", JStr "Wren");
                                     ("confidence", JNum (Fin (1 # 4)))]])].

Definition robinWithoutFeatures : json :=
  JObj [("mainBird", JObj [("name", JStr "Robin"); ("features", JArr [])])].

Definition noBirdVisible : json :=
  JObj [("error", JBool true);
        ("message", JStr "No bird is visible in the image")].

Definition namelessBird : json :=
  JObj [("mainBird", JObj [("confidence", JNum (Fin 90))])].

End NormalizerSpec.

(** ** server/storage.ts : the sightings of [MemStorage] *)

Module Sightings.
Import Js Schema Storage.

(** Row of [bird_sightings]. *)
Record BirdSighting : Type := {
  s_id : Z;
  s_userId : Z;
  s_birdName : string;
  s_scientificName : option string;
  s_location : option string;
  s_latitude : option string;
  s_longitude : option string;
  s_sightingDate : Z;
  s_notes : option string;
  s_imageUrl : option string;
  s_identificationId : option number;
  s_isOffline : bool;
}.

(** [InsertBirdSighting]: an optional property is [None] when it is
    [undefined] or [null]. *)
Record InsertBirdSighting : Type := {
  is_userId : Z;
  is_birdName : string;
  is_scientificName : option string;
  is_location : option string;
  is_latitude : option string;
  is_longitude : option string;
  is_sightingDate : option Z;
  is_notes : option string;
  is_imageUrl : option string;
  is_identificationId : option number;
  is_isOffline : option bool;
}.

(** [Partial<BirdSighting>] *)
Record PartialSighting : Type := {
  ps_id : option Z;
  ps_userId : option Z;
  ps_birdName : option string;
  ps_scientificName : option (option string);
  ps_location : option (option string);
  ps_latitude : option (option string);
  ps_longitude : option (option string);
  ps_sightingDate : option Z;
  ps_notes : option (option string);
  ps_imageUrl : option (option string);
  ps_identificationId : option (option number);
  ps_isOffline : option bool;
}.

(** [{ ...sighting, ...updates }] *)
Definition spreadSighting (sighting : BirdSighting) (updates : PartialSighting)
    : BirdSighting :=
  {| s_id := default (s_id sighting) (ps_id updates);
     s_userId := default (s_userId sighting) (ps_userId updates);
     s_birdName := default (s_birdName sighting) (ps_birdName updates);
     s_scientificName :=
       default (s_scientificName sighting) (ps_scientificName updates);
     s_location := default (s_location sighting) (ps_location updates);
     s_latitude := default (s_latitude sighting) (ps_latitude updates);
     s_longitude := default (s_longitude sighting) (ps_longitude updates);
     s_sightingDate := default (s_sightingDate sighting) (ps_sightingDate updates);
     s_notes := default (s_notes sighting) (ps_notes updates);
     s_imageUrl := default (s_imageUrl sighting) (ps_imageUrl updates);
     s_identificationId :=
       default (s_identificationId sighting) (ps_identificationId updates);
     s_isOffline := default (s_isOffline sighting) (ps_isOffline updates) |}.

(** [text || null]: the empty string is falsy *)
Definition text_or_null (o : option string) : option string :=
  match o with
  | Some s => if bool_decide (s = "") then None else Some s
  | None => None
  end.

(** [n || null]: 0 and [NaN] are falsy *)
Definition number_or_null (o : option number) : option number :=
  match o with
  | Some n => if truthy (Some (JNum n)) then Some n else None
  | None => None
  end.

(** The whole of [MemStorage]: the users and identifications with
    their clock, and the sightings in the insertion order of their
    [Map]. *)
Record Store : Type := {
  ledger : World;
  sightings : list (Z * BirdSighting);
  sightingIdCounter : Z;
}.

Definition newStore (clock : nat -> Z) : Store :=
  {| ledger := {| mem := Storage.empty; clock := clock; tick := 0 |};
     sightings := []; sightingIdCounter := 1 |}.

(** What a method throws. *)
Inductive SError : Type :=
| LedgerError (e : Storage.Error)
| SightingNotFound (id : Z).

Definition MS (A : Type) : Type := Store -> (SError + A) * Store.

Definition sret {A} (a : A) : MS A := fun st => (inr a, st).
Definition sthrow {A} (e : SError) : MS A := fun st => (inl e, st).
Definition sbind {A B} (c : MS A) (k : A -> MS B) : MS B :=
  fun st => match c st with
            | (inl e, st') => (inl e, st')
            | (inr a, st') => k a st'
            end.

Declare Scope sightings_scope.
Delimit Scope sightings_scope with sightings.
Notation "'let+' x ':=' c 'in' k" := (sbind c (fun x => k))
  (at level 10, x name, c at level 100, k at level 200) : sightings_scope.
Local Open Scope sightings_scope.

(** A method of the users' part run on the whole storage. *)
Definition onLedger {A} (c : M A) : MS A :=
  fun st =>
    match c (ledger st) with
    | (r, w') =>
        (match r with inl e => inl (LedgerError e) | inr a => inr a end,
         {| ledger := w'; sightings := sightings st;
            sightingIdCounter := sightingIdCounter st |})
    end.

Definition getSightings : MS (list (Z * BirdSighting)) :=
  fun st => (inr (sightings st), st).

Definition putSightings (m : list (Z * BirdSighting)) : MS unit :=
  fun st => (inr tt, {| ledger := ledger st; sightings := m;
                        sightingIdCounter := sightingIdCounter st |}).

(** [this.sightingIdCounter++] *)
Definition nextSightingId : MS Z :=
  fun st => (inr (sightingIdCounter st),
             {| ledger := ledger st; sightings := sightings st;
                sightingIdCounter := sightingIdCounter st + 1 |}).

(** [Map.prototype.delete]: the binding of the key is taken out. *)
Fixpoint map_delete {V} (k : Z) (m : list (Z * V)) : list (Z * V) :=
  match m with
  | [] => []
  | (k', v) :: rest =>
      if bool_decide (k' = k) then rest else (k', v) :: map_delete k rest
  end.

Definition createSighting (sighting : InsertBirdSighting) : MS BirdSighting :=
  let+ id := nextSightingId in
  let+ now := onLedger newDate in
  let newSighting :=
    {| s_id := id;
       s_userId := is_userId sighting;
       s_birdName := is_birdName sighting;
       s_scientificName := text_or_null (is_scientificName sighting);
       s_location := text_or_null (is_location sighting);
       s_latitude := text_or_null (is_latitude sighting);
       s_longitude := text_or_null (is_longitude sighting);
       s_sightingDate := default now (is_sightingDate sighting);
       s_notes := text_or_null (is_notes sighting);
       s_imageUrl := text_or_null (is_imageUrl sighting);
       s_identificationId := number_or_null (is_identificationId sighting);
       s_isOffline := default false (is_isOffline sighting) |} in
  let+ m := getSightings in
  let+ _ := putSightings (map_set id newSighting m) in
  sret newSighting.

Definition getSighting (id : Z) : MS (option BirdSighting) :=
  let+ m := getSightings in sret (map_get id m).

(** The sort of [getUserSightings]: stable, newest sighting first. *)
Fixpoint insertSighting (x : BirdSighting) (sorted : list BirdSighting)
    : list BirdSighting :=
  match sorted with
  | [] => [x]
  | y :: rest =>
      if s_sightingDate y <=? s_sightingDate x
      then x :: y :: rest
      else y :: insertSighting x rest
  end.

Definition sortSightings (l : list BirdSighting) : list BirdSighting :=
  foldr insertSighting [] l.

(** [Math.min(limit, maxAllowed)] *)
Definition min_limit (lim : Z) (maxAllowed : Schema.limit) : Schema.limit :=
  match maxAllowed with
  | Num n => Num (Z.min lim n)
  | Infinity => Num lim
  end.

(** [limit] is [None] for [undefined]. *)
Definition getUserSightings (userId : Z) (lim : option Z) : MS (list BirdSighting) :=
  let+ user := onLedger (getUser userId) in
  match user with
  | None => sthrow (LedgerError (UserNotFound userId))
  | Some user =>
      let maxAllowed :=
        if bool_decide (subscriptionPlan user = "premium") then Infinity else Num 10 in
      let+ m := getSightings in
      let sightings :=
        sortSightings (filter (fun s => s_userId s = userId) (map_values m)) in
      let effectiveLimit :=
        match lim with
        | None => maxAllowed
        | Some l => min_limit l maxAllowed
        end in
      sret (slice0 sightings
              (match effectiveLimit with
               | Infinity => Z.of_nat (length sightings)
               | Num n => n
               end))
  end.

Definition updateSighting (id : Z) (updates : PartialSighting) : MS BirdSighting :=
  let+ m := getSightings in
  match map_get id m with
  | None => sthrow (SightingNotFound id)
  | Some sighting =>
      let updatedSighting := spreadSighting sighting updates in
      let+ _ := putSightings (map_set id updatedSighting m) in
      sret updatedSighting
  end.

Definition deleteSighting (id : Z) : MS bool :=
  let+ m := getSightings in
  match map_get id m with
  | None => sret false
  | Some _ =>
      let+ _ := putSightings (map_delete id m) in
      sret true
  end.

Definition getUserSightingCount (userId : Z) : MS Z :=
  let+ m := getSightings in
  sret (Z.of_nat (length (filter (fun s => s_userId s = userId) (map_values m)))).

End Sightings.

(** ** Vocabulary of the further properties of the ledger *)

Module Ledger.
Import Schema Storage.

(** The numbering the storage keeps: the counters are positive; every
    user key lies in
    [1, userIdCounter); the identification keys are the ids of their
    records, ascend in storage order and lie in
    [1, identificationIdCounter); every record is without owner or
    owned by a stored user. *)
Record wellNumbered (s : MemStorage) : Prop := {
  counters_positive : 1 <= userIdCounter s /\ 1 <= identificationIdCounter s;
  users_numbered :
    forall k, is_Some (users s !! k) -> 1 <= k < userIdCounter s;
  identifications_numbered :
    Forall (fun kv => 1 <= kv.1 < identificationIdCounter s /\ bi_id kv.2 = kv.1)
           (identifications s);
  identifications_ascending :
    StronglySorted Z.lt (fst <$> identifications s);
  owners_stored :
    Forall (fun kv => forall owner, bi_userId kv.2 = Some owner ->
                                    is_Some (users s !! owner))
           (identifications s);
}.

(** A call of one of the user or identification methods of [IStorage]. *)
Inductive Call : Type :=
| GetUser (id : Z)
| CreateUser (insertUser : InsertUser)
| UpdateUser (id : Z) (updates : PartialUser)
| UpdateUserSubscription (userId : Z) (plan : string) (endDate : option Z)
| UpdateStripeCustomerId (userId : Z) (customer : string)
| UpdateUserStripeInfo (userId : Z) (stripeInfo : StripeCustomerInfo)
| CheckDailyIdentificationLimit (userId : Z)
| IncrementDailyIdentificationCount (userId : Z)
| ResetDailyIdentificationCount (userId : Z)
| CreateIdentification (insertIdentification : InsertBirdIdentification)
| GetIdentification (id : Z)
| GetRecentIdentifications (userId : option Z) (lim : Z)
| GetUserIdentificationCount (userId : Z).

Definition ignore {A} (c : M A) : M unit := bind c (fun _ => ret tt).

Section WithCalendar.
Context {Day : Type} `{EqDecision Day}.
Variable toDateString : Z -> Day.

(** The world a call leaves, whether it returned or threw. *)
Definition perform (w : World) (c : Call) : World :=
  snd (match c with
       | GetUser id => ignore (getUser id)
       | CreateUser u => ignore (createUser u)
       | UpdateUser id updates => ignore (updateUser id updates)
       | UpdateUserSubscription id plan endDate =>
           ignore (updateUserSubscription id plan endDate)
       | UpdateStripeCustomerId id customer =>
           ignore (updateStripeCustomerId id customer)
       | UpdateUserStripeInfo id info => ignore (updateUserStripeInfo id info)
       | CheckDailyIdentificationLimit id =>
           ignore (checkDailyIdentificationLimit toDateString id)
       | IncrementDailyIdentificationCount id =>
           ignore (incrementDailyIdentificationCount toDateString id)
       | ResetDailyIdentificationCount id =>
           ignore (resetDailyIdentificationCount id)
       | CreateIdentification ins =>
           ignore (createIdentification toDateString ins)
       | GetIdentification id => ignore (getIdentification id)
       | GetRecentIdentifications userId lim =>
           ignore (getRecentIdentifications userId lim)
       | GetUserIdentificationCount id => ignore (getUserIdentificationCount id)
       end w).

(** The world after a sequence of calls on a new [MemStorage]. *)
Definition afterCalls (clock : nat -> Z) (calls : list Call) : World :=
  foldl perform {| mem := Storage.empty; clock := clock; tick := 0 |} calls.

End WithCalendar.

(** Two storages have the same users' keys, the same identifications
    and the same counters. *)
Definition sameShape (s s' : MemStorage) : Prop :=
  dom (users s') = dom (users s)
  /\ identifications s' = identifications s
  /\ userIdCounter s' = userIdCounter s
  /\ identificationIdCounter s' = identificationIdCounter s.

(** A method that leaves the shape of the storage and the clock alone. *)
Definition keepsShape {A} (c : M A) : Prop :=
  forall w, sameShape (mem w) (mem (snd (c w))) /\ clock (snd (c w)) = clock w.

(** A call threw the not-found error for [userId] and left the storage
    of [w] as it was. *)
Definition notFoundUnchanged {A} (userId : Z) (w : World)
    (r : (Error + A) * World) : Prop :=
  fst r = inl (UserNotFound userId) /\ mem (snd r) = mem w.

(** The update [updateUserSubscription] passes to [updateUser]. *)
Definition subscriptionUpdate (plan : string) (endDate : option Z) : PartialUser :=
  {| p_id := None; p_username := None; p_password := None; p_email := None;
     p_subscriptionPlan := Some plan;
     p_subscriptionEndDate := Some endDate;
     p_stripeCustomerId := None; p_stripeSubscriptionId := None;
     p_dailyIdentificationsCount := None;
     p_lastIdentificationDate := None |}.

(** User 1 on the free plan after five identifications on day 0, the
    clock still on day 0. *)
Definition exhaustedWorld : World :=
  Spec.after (repeatM 5 (incrementDailyIdentificationCount Spec.utcDay 1)
                      Spec.freeWorld).

Definition exhaustedRow : User :=
  {| id := 1; username := "robin"; password := "secret"; email := None;
     subscriptionPlan := "free"; subscriptionEndDate := None;
     stripeCustomerId := None; stripeSubscriptionId := None;
     dailyIdentificationsCount := Some 5; lastIdentificationDate := Some 8000 |}.

(** User 1 on the free plan with five identifications of their own. *)
Definition freeHistoryWorld : World :=
  Spec.after (repeatM 5 (createIdentification Spec.utcDay Spec.byRobin)
                      Spec.freeWorld).

(** What the daily check answers on a row whose stored date is today. *)
Definition sameDayAnswer (u : User) : DailyLimitCheckResult :=
  let count := or_zero (dailyIdentificationsCount u) in
  if bool_decide (subscriptionPlan u = "premium")
  then {| withinLimit := true; current := count; limit := -1 |}
  else {| withinLimit := count <? 5; current := count; limit := 5 |}.

End Ledger.

(** ** Vocabulary of the properties of the sightings *)

Module SightingsSpec.
Import Js Schema Storage Sightings.

Definition sreturned {A} (r : (SError + A) * Store) : option A :=
  match fst r with
  | inr a => Some a
  | inl _ => None
  end.

Definition safter {A} (r : (SError + A) * Store) : Store := snd r.

(** The numbering of the sightings: the counter is positive and the keys
    ascend in storage order within [1, sightingIdCounter). *)
Definition sightingsNumbered (st : Store) : Prop :=
  1 <= sightingIdCounter st
  /\ Forall (fun kv => 1 <= kv.1 < sightingIdCounter st) (sightings st)
  /\ StronglySorted Z.lt (fst <$> sightings st).

(** The sightings of [userId] in storage order. *)
Definition ownSightings (userId : Z) (st : Store) : list BirdSighting :=
  filter (fun s => s_userId s = userId) (map_values (sightings st)).

(** A list of sightings runs from the newest to the oldest. *)
Definition newestSightingFirst (l : list BirdSighting) : Prop :=
  StronglySorted (fun a b => s_sightingDate b <= s_sightingDate a) l.

(** A call of one of the methods of [IStorage]. *)
Inductive SCall : Type :=
| OnUsers (c : Ledger.Call)
| CreateSighting (sighting : InsertBirdSighting)
| GetSighting (id : Z)
| GetUserSightings (userId : Z) (lim : option Z)
| UpdateSighting (id : Z) (updates : PartialSighting)
| DeleteSighting (id : Z)
| GetUserSightingCount (userId : Z).

Section WithCalendar.
Context {Day : Type} `{EqDecision Day}.
Variable toDateString : Z -> Day.

(** The storage a call leaves, whether it returned or threw. *)
Definition performS (st : Store) (c : SCall) : Store :=
  match c with
  | OnUsers c' =>
      {| ledger := Ledger.perform toDateString (ledger st) c';
         sightings := sightings st;
         sightingIdCounter := sightingIdCounter st |}
  | CreateSighting sighting => snd (createSighting sighting st)
  | GetSighting id => snd (getSighting id st)
  | GetUserSightings userId lim => snd (getUserSightings userId lim st)
  | UpdateSighting id updates => snd (updateSighting id updates st)
  | DeleteSighting id => snd (deleteSighting id st)
  | GetUserSightingCount userId => snd (getUserSightingCount userId st)
  end.

Definition afterSCalls (clock : nat -> Z) (calls : list SCall) : Store :=
  foldl performS (newStore clock) calls.

End WithCalendar.

(** A sighting of user 1 with the optional texts left empty. *)
Definition wrenSeen : InsertBirdSighting :=
  {| is_userId := 1; is_birdName := "Wren"; is_scientificName := Some "";
     is_location := Some "Hyde Park"; is_latitude := None; is_longitude := None;
     is_sightingDate := None; is_notes := Some ""; is_imageUrl := None;
     is_identificationId := Some (Fin 0); is_isOffline := None |}.

(** A storage with user 1 (free plan) and no sighting. *)
Definition oneUserStore : Store :=
  {| ledger := Spec.freeWorld; sightings := []; sightingIdCounter := 1 |}.

(** The same after twelve sightings of user 1. *)
Fixpoint repeatS {A} (n : nat) (c : MS A) (st : Store) : Store :=
  match n with
  | O => st
  | S n' => repeatS n' c (snd (c st))
  end.

Definition twelveSightings : Store := repeatS 12 (createSighting wrenSeen) oneUserStore.

(** The same with user 1 on the premium plan. *)
Definition twelveSightingsPremium : Store :=
  snd (onLedger (updateUserSubscription 1 "premium" None) twelveSightings).

End SightingsSpec.

(** ** Vocabulary of the further properties of the normaliser *)

Module NormalizerFields.
Import Js Schema Gemini NormalizerSpec.

(** The text a defaulted property ends up as: the given string unless
    it is absent, empty or otherwise falsy, then the default. *)
Definition textOr (v : value) (d : string) : string :=
  match v with
  | Some (JStr s) => if bool_decide (s = "") then d else s
  | _ => d
  end.

(** A value a defaulted text property accepts: falsy, or a string. *)
Definition textOrFalsy (v : value) : Prop :=
  truthy v = false \/ exists s, v = Some (JStr s).

(** An optional text of a group as the value it was read from: absent
    stays absent. *)
Definition optText (o : option string) : value := JStr <$> o.

(** A group of the result as it follows from the value [v] given for
    it: no group when [v] is absent or falsy, otherwise a group whose
    texts are the properties of [v], each absent where [v] has none. *)
Definition physicalFrom (v : value) (o : option PhysicalCharacteristics) : Prop :=
  if truthy v then
    exists p, o = Some p
      /\ optText (size p) = field v "size"
      /\ optText (weight p) = field v "weight"
      /\ optText (wingspan p) = field v "wingspan"
      /\ optText (plumage p) = field v "plumage"
      /\ optText (bill p) = field v "bill"
      /\ optText (legs p) = field v "legs"
      /\ optText (eyeColor p) = field v "eyeColor"
  else o = None.

Definition habitatFrom (v : value) (o : option HabitatAndRange) : Prop :=
  if truthy v then
    exists h, o = Some h
      /\ optText (preferredHabitat h) = field v "preferredHabitat"
      /\ optText (geographicRange h) = field v "geographicRange"
      /\ optText (rangeMapUrl h) = field v "rangeMapUrl"
  else o = None.

Definition migrationFrom (v : value) (o : option MigrationPatterns) : Prop :=
  if truthy v then
    exists m, o = Some m
      /\ migratory m = Some (truthy (field v "migratory"))
      /\ optText (migrationSeason m) = field v "migrationSeason"
      /\ optText (migrationRoute m) = field v "migrationRoute"
      /\ optText (winteringGrounds m) = field v "winteringGrounds"
      /\ optText (breedingGrounds m) = field v "breedingGrounds"
  else o = None.

Definition seasonalFrom (v : value) (o : option SeasonalVariations) : Prop :=
  if truthy v then
    exists x, o = Some x
      /\ optText (breedingPlumage x) = field v "breedingPlumage"
      /\ optText (winterPlumage x) = field v "winterPlumage"
      /\ optText (juvenilePlumage x) = field v "juvenilePlumage"
      /\ optText (seasonalBehavior x) = field v "seasonalBehavior"
  else o = None.

Definition soundsFrom (v : value) (o : option BirdSounds) : Prop :=
  if truthy v then
    exists x, o = Some x
      /\ optText (calls x) = field v "calls"
      /\ optText (songs x) = field v "songs"
      /\ optText (audioUrl x) = field v "audioUrl"
  else o = None.

Definition robinInPark : json :=
  JObj [("mainBird",
         JObj [("name", JStr "Robin");
               ("scientificName", JStr "");
               ("habitat", JStr "Parks and gardens");
               ("physicalCharacteristics", JStr "small");
               ("migrationPatterns", JObj [("migrationSeason", JStr "autumn")])]);
        ("similarBirds", JStr "none")].

End NormalizerFields.

(** ** server/routes.ts: the journal and subscription endpoints *)

Module Routes.
Import Js Schema Storage Sightings Gemini.
Local Open Scope sightings_scope.
Local Open Scope try_scope.

(** What the [catch] of a handler receives. *)
Inductive Caught : Type :=
| FromStorage (e : SError)
| FromCode (t : Thrown)
| Rejected (e : JsError).  (* the identification service *)

(** The body of a response.  [IdentifyFailed] has the message of its
    cause, or a fixed text when that is empty. *)
Inductive Payload : Type :=
| Message (message : string)
| SightingLimitReached (sightingCount sightingLimit : Z)
| InvalidData (message : string)  (* the message with zod's [errors] *)
| OneSighting (sighting : BirdSighting)
| ManySightings (sightings : list BirdSighting)
| Subscription (plan : string) (endDate : option Z)
    (limits : option SubscriptionLimits)
| Identified (result : IdentificationResult)
| IdentifyFailed (cause : Caught).

(** What a handler sends: [res.status(s).json(b)], where [res.json(b)]
    has the status 200, or [res.status(s).send()]. *)
Inductive Reply : Type :=
| Json (status : Z) (body : Payload)
| Send (status : Z).

(** The [try] block of a handler: the storage is threaded through, also
    when something is thrown. *)
Definition Block (A : Type) : Type := Store -> (Caught + A) * Store.

Definition hret {A} (a : A) : Block A := fun st => (inr a, st).
Definition hbind {A B} (c : Block A) (k : A -> Block B) : Block B :=
  fun st => match c st with
            | (inl e, st') => (inl e, st')
            | (inr a, st') => k a st'
            end.

Declare Scope routes_scope.
Delimit Scope routes_scope with routes.
Notation "'let&' x ':=' c 'in' k" := (hbind c (fun x => k))
  (at level 10, x name, c at level 100, k at level 200) : routes_scope.
Local Open Scope routes_scope.

(** [await storage.method(...)] *)
Definition await {A} (c : MS A) : Block A :=
  fun st => match c st with
            | (inl e, st') => (inl (FromStorage e), st')
            | (inr a, st') => (inr a, st')
            end.

(** [schema.parse(...)] and the property reads of the handler itself *)
Definition parse {A} (c : T A) : Block A :=
  fun st => (match c with inl t => inl (FromCode t) | inr a => inr a end, st).

(** [try { ... } catch (error) { ... }] *)
Definition tryCatch (block : Block Reply) (handler : Caught -> Reply)
    : Store -> Reply * Store :=
  fun st => match block st with
            | (inr reply, st') => (reply, st')
            | (inl error, st') => (handler error, st')
            end.

(** A [try] with its [catch] inside the [try] block of the handler *)
Definition settled (inner : Store -> Reply * Store) : Block Reply :=
  fun st => match inner st with (reply, st') => (inr reply, st') end.

(** [await] of the identification service *)
Definition served {A} (outcome : JsError + A) : Block A :=
  fun st => (match outcome with inl e => inl (Rejected e) | inr a => inr a end, st).

(** The key a JS number is in the maps of the storage: the keys are
    values of the counters, so a number that is no integer finds
    nothing. *)
Definition numericKey (n : number) : option Z :=
  match n with
  | Fin q =>
      if Qnum q mod Zpos (Qden q) =? 0 then Some (Qnum q / Zpos (Qden q))
      else None
  | _ => None
  end.

(** *** The request bodies *)

(** [z.object({...})] accepts an object that is no array. *)
Definition zObject (body : value) : T (list (string * json)) :=
  match body with
  | Some (JObj fields) => ok fields
  | _ => raise ZodError
  end.

(** [z.string().min(1)] *)
Definition zNonEmptyString (v : value) : T string :=
  match v with
  | Some (JStr s) => if bool_decide (s = "") then raise ZodError else ok s
  | _ => raise ZodError
  end.

(** [z.string().min(1).optional()] *)
Definition zOptNonEmptyString (v : value) : T (option string) :=
  match v with
  | None => ok None
  | Some _ => let! s := zNonEmptyString v in ok (Some s)
  end.

(** [z.number().optional()] *)
Definition zOptNumber (v : value) : T (option number) :=
  match v with
  | None => ok None
  | Some (JNum n) => let! m := zNumber n in ok (Some m)
  | Some _ => raise ZodError
  end.

(** [z.boolean().optional()] *)
Definition zOptBoolean (v : value) : T (option bool) :=
  match v with
  | None => ok None
  | Some (JBool b) => ok (Some b)
  | Some _ => raise ZodError
  end.

(** [z.date().optional()]: no value of a parsed JSON text is a [Date]. *)
Definition zOptDate (v : value) : T (option Z) :=
  match v with
  | None => ok None
  | Some _ => raise ZodError
  end.

(** [sightingData] of POST /api/sightings *)
Record SightingData : Type := {
  sd_birdName : string;
  sd_scientificName : option string;
  sd_location : option string;
  sd_latitude : option string;
  sd_longitude : option string;
  sd_notes : option string;
  sd_imageUrl : option string;
  sd_identificationId : option number;
  sd_isOffline : option bool;
}.

Definition sightingDataSchema (body : value) : T SightingData :=
  let! fields := zObject body in
  let! birdName := zNonEmptyString (lookup_field "birdName" fields) in
  let! scientificName := zOptString (lookup_field "scientificName" fields) in
  let! location := zOptString (lookup_field "location" fields) in
  let! latitude := zOptString (lookup_field "latitude" fields) in
  let! longitude := zOptString (lookup_field "longitude" fields) in
  let! notes := zOptString (lookup_field "notes" fields) in
  let! imageUrl := zOptString (lookup_field "imageUrl" fields) in
  let! identificationId := zOptNumber (lookup_field "identificationId" fields) in
  let! isOffline := zOptBoolean (lookup_field "isOffline" fields) in
  ok {| sd_birdName := birdName; sd_scientificName := scientificName;
        sd_location := location; sd_latitude := latitude;
        sd_longitude := longitude; sd_notes := notes; sd_imageUrl := imageUrl;
        sd_identificationId := identificationId; sd_isOffline := isOffline |}.

(** [{ ...sightingData, userId, sightingDate }] *)
Definition newSightingOf (sightingData : SightingData) (userId : Z)
    (sightingDate : Z) : InsertBirdSighting :=
  {| is_userId := userId;
     is_birdName := sd_birdName sightingData;
     is_scientificName := sd_scientificName sightingData;
     is_location := sd_location sightingData;
     is_latitude := sd_latitude sightingData;
     is_longitude := sd_longitude sightingData;
     is_sightingDate := Some sightingDate;
     is_notes := sd_notes sightingData;
     is_imageUrl := sd_imageUrl sightingData;
     is_identificationId := sd_identificationId sightingData;
     is_isOffline := sd_isOffline sightingData |}.

(** [updateData] of PUT /api/sightings/:id: the keys the schema names,
    each only if the body has it. *)
Definition updateDataSchema (body : value) : T PartialSighting :=
  let! fields := zObject body in
  let! birdName := zOptNonEmptyString (lookup_field "birdName" fields) in
  let! scientificName := zOptString (lookup_field "scientificName" fields) in
  let! location := zOptString (lookup_field "location" fields) in
  let! latitude := zOptString (lookup_field "latitude" fields) in
  let! longitude := zOptString (lookup_field "longitude" fields) in
  let! notes := zOptString (lookup_field "notes" fields) in
  let! imageUrl := zOptString (lookup_field "imageUrl" fields) in
  let! sightingDate := zOptDate (lookup_field "sightingDate" fields) in
  let! isOffline := zOptBoolean (lookup_field "isOffline" fields) in
  ok {| ps_id := None; ps_userId := None;
        ps_birdName := birdName;
        ps_scientificName := Some <$> scientificName;
        ps_location := Some <$> location;
        ps_latitude := Some <$> latitude;
        ps_longitude := Some <$> longitude;
        ps_sightingDate := sightingDate;
        ps_notes := Some <$> notes;
        ps_imageUrl := Some <$> imageUrl;
        ps_identificationId := None;
        ps_isOffline := isOffline |}.

(** [z.object({ plan: z.enum([FREE, PREMIUM]) })] *)
Definition planSchema (body : value) : T string :=
  let! fields := zObject body in
  match lookup_field "plan" fields with
  | Some (JStr plan) =>
      if bool_decide (plan = FREE) || bool_decide (plan = PREMIUM)
      then ok plan else raise ZodError
  | _ => raise ZodError
  end.

(** [subscriptionLimitsMap[plan].sightings.total]: the read of
    [sightings] throws when the plan is not in the table. *)
Definition sightingLimitOf (plan : string) : T Schema.limit :=
  match subscriptionLimitsMap plan with
  | Some limits => ok (sightings_total limits)
  | None => raise TypeError
  end.

(** *** The image of POST /api/identify *)

(** [\w] *)
Definition wordChar (c : Ascii.ascii) : bool :=
  let n := Z.of_N (Ascii.N_of_ascii c) in
  ((48 <=? n) && (n <=? 57)) || ((65 <=? n) && (n <=? 90))
  || ((97 <=? n) && (n <=? 122)) || (n =? 95).

(** The rest of [s] behind [p], when [s] starts with [p]. *)
Fixpoint afterPrefix (p s : string) : option string :=
  match p, s with
  | EmptyString, _ => Some s
  | String a p', String b s' =>
      if Ascii.eqb a b then afterPrefix p' s' else None
  | String _ _, EmptyString => None
  end.

(** The rest of [s] behind its longest run of word characters. *)
Fixpoint afterWord (s : string) : string :=
  match s with
  | EmptyString => EmptyString
  | String c rest => if wordChar c then afterWord rest else s
  end.

(** [/^data:image\/\w+;base64,/.test(s)] *)
Definition dataUrlPattern (s : string) : bool :=
  match afterPrefix "data:image/" s with
  | Some (String c rest) =>
      wordChar c
      && match afterPrefix ";base64," (afterWord rest) with
         | Some _ => true
         | None => false
         end
  | _ => false
  end.

(** [s.indexOf(c)]; [None] is -1. *)
Fixpoint indexOf (c : Ascii.ascii) (s : string) : option nat :=
  match s with
  | EmptyString => None
  | String b rest =>
      if Ascii.eqb b c then Some O else S <$> indexOf c rest
  end.

(** [s.substring(from)] *)
Fixpoint substringFrom (from : nat) (s : string) : string :=
  match from, s with
  | O, _ => s
  | S n, String _ rest => substringFrom n rest
  | S _, EmptyString => EmptyString
  end.

(** The character [","] *)
Definition comma : Ascii.ascii := Ascii.ascii_of_nat 44.

(** The image data the handler passes on. *)
Definition imageDataOf (image : string) : string :=
  if dataUrlPattern image then
    match indexOf comma image with
    | Some commaIndex => substringFrom (commaIndex + 1) image
    | None => image
    end
  else image.

(** [z.object({ image: z.string().min(1),
                source: z.enum(["camera", "upload"]) })] *)
Definition identifyBodySchema (body : value) : T (string * string) :=
  let! fields := zObject body in
  let! image := zNonEmptyString (lookup_field "image" fields) in
  let! source :=
    match lookup_field "source" fields with
    | Some (JStr source) =>
        if bool_decide (source = "camera") || bool_decide (source = "upload")
        then ok source else raise ZodError
    | _ => raise ZodError
    end in
  ok (image, source).

(** *** The handlers *)

Section WithService.
Context {Day : Type} `{EqDecision Day}.
Variable toDateString : Z -> Day.
(** The outcome of [identifyBirdWithGemini] for an image. *)
Variable identifyBirdWithGemini : string -> JsError + IdentificationResult.

(** POST /api/identify *)
Definition postIdentify (body : value) : Store -> Reply * Store :=
  tryCatch
    (let& parsed := parse (identifyBodySchema body) in
     let imageData := imageDataOf (fst parsed) in
     settled
       (tryCatch
          (let& result := served (identifyBirdWithGemini imageData) in
           let& _ :=
             await (onLedger
                      (createIdentification toDateString
                         {| ibi_imageUrl :=
                              "data:image/jpeg;base64,"
                              +:+ String.substring 0 30 imageData +:+ "...";
                            ibi_result := resultToJson result;
                            ibi_userId := None |})) in
           hret (Json 200 (Identified result)))
          (fun geminiError => Json 500 (IdentifyFailed geminiError))))
    (fun error =>
       match error with
       | FromCode ZodError => Json 400 (InvalidData "Invalid request data")
       | _ => Json 500 (Message "Failed to identify bird")
       end).

End WithService.


Section WithCoercions.
Variable StringToNumber : string -> number.

(** The middleware; [userId] is the value of
    [req.headers['x-user-id'] || req.query.userId], a text or
    [undefined], and [next] the handler behind it, which finds the user
    in [req.user]. *)
Definition authenticate (userId : option string)
    (next : User -> Store -> Reply * Store) : Store -> Reply * Store :=
  fun st =>
    if negb (truthy (JStr <$> userId))
    then (Json 401 (Message "Authentication required"), st)
    else
      match numericKey (StringToNumber (default "" userId)) with
      | None => (Json 401 (Message "User not found"), st)
      | Some key =>
          match await (onLedger (getUser key)) st with
          | (inr (Some user), st') => next user st'
          | (inr None, st') => (Json 401 (Message "User not found"), st')
          | (inl _, st') => (Json 500 (Message "Authentication error"), st')
          end
      end.

(** POST /api/sightings; the limit is compared only when it is not
    [Infinity]. *)
Definition postSighting (body : value) (user : User) : Store -> Reply * Store :=
  tryCatch
    (let& sightingCount := await (getUserSightingCount (id user)) in
     let& sightingLimit := parse (sightingLimitOf (subscriptionPlan user)) in
     let create :=
       let& sightingData := parse (sightingDataSchema body) in
       let& sightingDate := await (onLedger newDate) in
       let& sighting :=
         await (createSighting (newSightingOf sightingData (id user) sightingDate)) in
       hret (Json 201 (OneSighting sighting)) in
     match sightingLimit with
     | Num n =>
         if n <=? sightingCount
         then hret (Json 403 (SightingLimitReached sightingCount n))
         else create
     | Infinity => create
     end)
    (fun error =>
       match error with
       | FromCode ZodError => Json 400 (InvalidData "Invalid sighting data")
       | _ => Json 500 (Message "Failed to create sighting")
       end).

(** GET /api/sightings *)
Definition getSightingsRoute (user : User) : Store -> Reply * Store :=
  tryCatch
    (let& sightings := await (getUserSightings (id user) None) in
     hret (Json 200 (ManySightings sightings)))
    (fun _ => Json 500 (Message "Failed to retrieve sightings")).

(** GET /api/sightings/:id; [idParam] is [req.params.id]. *)
Definition getSightingRoute (idParam : string) (user : User)
    : Store -> Reply * Store :=
  tryCatch
    (match numericKey (StringToNumber idParam) with
     | None => hret (Json 404 (Message "Sighting not found"))
     | Some sightingId =>
         let& sighting := await (getSighting sightingId) in
         match sighting with
         | None => hret (Json 404 (Message "Sighting not found"))
         | Some sighting =>
             if negb (bool_decide (s_userId sighting = id user))
             then hret (Json 403 (Message "Unauthorized access to sighting"))
             else hret (Json 200 (OneSighting sighting))
         end
     end)
    (fun _ => Json 500 (Message "Failed to retrieve sighting")).

(** PUT /api/sightings/:id *)
Definition putSighting (idParam : string) (body : value) (user : User)
    : Store -> Reply * Store :=
  tryCatch
    (match numericKey (StringToNumber idParam) with
     | None => hret (Json 404 (Message "Sighting not found"))
     | Some sightingId =>
         let& sighting := await (getSighting sightingId) in
         match sighting with
         | None => hret (Json 404 (Message "Sighting not found"))
         | Some sighting =>
             if negb (bool_decide (s_userId sighting = id user))
             then hret (Json 403 (Message "Unauthorized access to sighting"))
             else
               let& updateData := parse (updateDataSchema body) in
               let& updatedSighting :=
                 await (updateSighting sightingId updateData) in
               hret (Json 200 (OneSighting updatedSighting))
         end
     end)
    (fun error =>
       match error with
       | FromCode ZodError => Json 400 (InvalidData "Invalid sighting data")
       | _ => Json 500 (Message "Failed to update sighting")
       end).

(** DELETE /api/sightings/:id *)
Definition deleteSightingRoute (idParam : string) (user : User)
    : Store -> Reply * Store :=
  tryCatch
    (match numericKey (StringToNumber idParam) with
     | None => hret (Json 404 (Message "Sighting not found"))
     | Some sightingId =>
         let& sighting := await (getSighting sightingId) in
         match sighting with
         | None => hret (Json 404 (Message "Sighting not found"))
         | Some sighting =>
             if negb (bool_decide (s_userId sighting = id user))
             then hret (Json 403 (Message "Unauthorized access to sighting"))
             else
               let& success := await (deleteSighting sightingId) in
               if success : bool then hret (Send 204)
               else hret (Json 500 (Message "Failed to delete sighting"))
         end
     end)
    (fun _ => Json 500 (Message "Failed to delete sighting")).

(** POST /api/subscription/update; [Date.now()] is a reading of the
    clock. *)
Definition postSubscriptionUpdate (body : value) (user : User)
    : Store -> Reply * Store :=
  tryCatch
    (let& plan := parse (planSchema body) in
     let& endDate :=
       if bool_decide (plan = PREMIUM)
       then let& now := await (onLedger newDate) in
            hret (Some (now + 30 * 24 * 60 * 60 * 1000))
       else hret None in
     let& updatedUser :=
       await (onLedger (updateUserSubscription (id user) plan endDate)) in
     hret (Json 200
             (Subscription (subscriptionPlan updatedUser)
                (subscriptionEndDate updatedUser)
                (subscriptionLimitsMap (subscriptionPlan updatedUser)))))
    (fun error =>
       match error with
       | FromCode ZodError => Json 400 (InvalidData "Invalid subscription plan")
       | _ => Json 500 (Message "Failed to update subscription")
       end).

End WithCoercions.

End Routes.

(** ** Vocabulary of the properties of the endpoints *)

Module RoutesSpec.
Import Js Schema Storage Sightings Gemini SightingsSpec Routes.

Definition reply (r : Reply * Store) : Reply := fst r.
Definition leaves (r : Reply * Store) : Store := snd r.

Section WithCoercions.
Variable StringToNumber : string -> number.

(** The request carries the id of the stored user [u]. *)
Definition callerIs (userId : option string) (u : User) (st : Store) : Prop :=
  exists s,
    userId = Some s /\ s <> ""
    /\ numericKey (StringToNumber s) = Some (id u)
    /\ users (mem (ledger st)) !! id u = Some u.

(** The request carries no id, or one that no stored user has. *)
Definition callerUnknown (userId : option string) (st : Store) : Prop :=
  forall s key,
    userId = Some s -> s <> "" ->
    numericKey (StringToNumber s) = Some key ->
    users (mem (ledger st)) !! key = None.

(** The sighting [req.params.id] names, if there is one. *)
Definition named (idParam : string) (st : Store) : option BirdSighting :=
  match numericKey (StringToNumber idParam) with
  | Some key => map_get key (sightings st)
  | None => None
  end.

End WithCoercions.

(** The number of sightings of a user. *)
Definition journalSize (userId : Z) (st : Store) : Z :=
  Z.of_nat (length (ownSightings userId st)).

(** The end date the handler computes and the storage it leaves. *)
Definition endDateFor (plan : string) (st : Store) : option Z :=
  if bool_decide (plan = PREMIUM)
  then Some (clock (ledger st) (tick (ledger st)) + 30 * 24 * 60 * 60 * 1000)
  else None.

Definition subscribed (plan : string) (u : User) (st : Store) : Store :=
  {| ledger :=
       {| mem :=
            setUsers
              (<[id u := spread u (Ledger.subscriptionUpdate plan (endDateFor plan st))]>
                 (users (mem (ledger st))))
              (mem (ledger st));
          clock := clock (ledger st);
          tick := if bool_decide (plan = PREMIUM)
                  then S (tick (ledger st)) else tick (ledger st) |};
     sightings := sightings st;
     sightingIdCounter := sightingIdCounter st |}.

(** A reading of the numerals that knows the plain decimal ones. *)
Definition digitValue (c : Ascii.ascii) : option Z :=
  let n := Z.of_N (Ascii.N_of_ascii c) in
  if (48 <=? n) && (n <=? 57) then Some (n - 48) else None.

Fixpoint decimalFrom (acc : Z) (s : string) : option Z :=
  match s with
  | EmptyString => Some acc
  | String c rest =>
      match digitValue c with
      | Some d => decimalFrom (10 * acc + d) rest
      | None => None
      end
  end.

Definition decimalNumeral (s : string) : number :=
  match s with
  | EmptyString => Fin 0
  | _ => match decimalFrom 0 s with
         | Some n => Fin (inject_Z n)
         | None => NaN
         end
  end.

(** A text of word characters only. *)
Fixpoint wordChars (s : string) : bool :=
  match s with
  | EmptyString => true
  | String c rest => wordChar c && wordChars rest
  end.

(** The identification service when the model answers [response] to
    every image: the normaliser run on that answer. *)
Definition answering (response : json) : string -> JsError + IdentificationResult :=
  fun image =>
    normalizeResponse NormalizerSpec.noNumeral NormalizerSpec.noElements
      (Some image) response.

(** The record POST /api/identify stores for an image and a result. *)
Definition ownerless (st : Store) (imageData : string)
    (result : IdentificationResult) : BirdIdentification :=
  {| bi_id := identificationIdCounter (mem (ledger st));
     bi_userId := None;
     bi_imageUrl :=
       "data:image/jpeg;base64," +:+ String.substring 0 30 imageData +:+ "...";
     bi_identifiedAt := clock (ledger st) (tick (ledger st));
     bi_result := resultToJson result |}.

(** Two users, 1 and 2, and one sighting, of user 1. *)
Definition wren : InsertUser :=
  {| ins_username := "wren"; ins_password := "hidden" |}.

Definition sharedStore : Store :=
  snd (createSighting wrenSeen
         {| ledger := Spec.after (createUser wren Spec.freeWorld);
            sightings := []; sightingIdCounter := 1 |}).

(** Request bodies. *)
Definition wrenBody : value :=
  Some (JObj [("birdName", JStr "Wren"); ("location", JStr "Hyde Park")]).

Definition renameBody : value :=
  Some (JObj [("birdName", JStr "Eurasian Wren"); ("id", JNum (Fin 99));
              ("userId", JNum (Fin 2))]).

Definition redateBody : value :=
  Some (JObj [("sightingDate", JStr "2020-01-01T00:00:00.000Z")]).

Definition identifyBody : value :=
  Some (JObj [("image", JStr "data:image/png;base64,iVBORw0KGgoAAAANSUhEUgAAAAEAAAABCAYAAAAf");
              ("source", JStr "upload")]).

Definition upgradeBody : value := Some (JObj [("plan", JStr "premium")]).
Definition downgradeBody : value := Some (JObj [("plan", JStr "free")]).

End RoutesSpec.

(** * Properties of the usage ledger *)

Section LedgerProperties.
Import Schema Storage Spec.
Local Open Scope storage_scope.
Context {Day : Type} `{EqDecision Day}.
Variable toDateString : Z -> Day.

Lemma or_zero_Some (c : Z) : or_zero (Some c) = c.
Proof. unfold or_zero. destruct (Z.eqb_spec c 0); congruence. Qed.

Lemma isNewDay_rolledOver (w : World) (u : User) :
  rolledOver toDateString w u ->
  isNewDay toDateString u w =
    (inr true, {| mem := mem w; clock := clock w; tick := stampIndex w u |}).
Proof.
  unfold rolledOver, isNewDay, stampIndex.
  destruct (lastIdentificationDate u) as [last|]; intros Hday.
  - unfold bind, newDate, ret; simpl.
    rewrite bool_decide_eq_false_2 by assumption. reflexivity.
  - unfold ret. destruct w; reflexivity.
Qed.

Lemma isNewDay_sameDay (w : World) (u : User) (last : Z) :
  lastIdentificationDate u = Some last ->
  toDateString (clock w (tick w)) = toDateString last ->
  isNewDay toDateString u w =
    (inr false, {| mem := mem w; clock := clock w; tick := S (tick w) |}).
Proof.
  intros Hlast Hday. unfold isNewDay. rewrite Hlast.
  unfold bind, newDate, ret; simpl.
  rewrite bool_decide_eq_true_2 by assumption. reflexivity.
Qed.

Lemma getUser_run (w : World) (userId : Z) :
  getUser userId w = (inr (users (mem w) !! userId), w).
Proof. reflexivity. Qed.

Lemma updateUser_run (w : World) (userId : Z) (u : User) (updates : PartialUser) :
  users (mem w) !! userId = Some u ->
  updateUser userId updates w =
    (inr (spread u updates),
     {| mem := setUsers (<[userId := spread u updates]> (users (mem w))) (mem w);
        clock := clock w; tick := tick w |}).
Proof. intros Hu. unfold updateUser, bind, getMem. simpl. rewrite Hu. reflexivity. Qed.

Lemma updateUser_missing (w : World) (userId : Z) (updates : PartialUser) :
  users (mem w) !! userId = None ->
  updateUser userId updates w = (inl (UserNotFound userId), w).
Proof. intros Hu. unfold updateUser, bind, getMem. simpl. rewrite Hu. reflexivity. Qed.

Lemma day_rollover_resets_count_aux (w : World) (userId : Z) (u : User) :
  users (mem w) !! userId = Some u ->
  rolledOver toDateString w u ->
  exists w1,
    checkDailyIdentificationLimit toDateString userId w
    = (inr {| withinLimit := true; current := 0; limit := 5 |}, w1)
    /\ users (mem w1) !! userId
       = Some (spread u (dailyUpdate 0 (clock w (stampIndex w u)))).
Proof.
  intros Hu Hroll. eexists.
  unfold checkDailyIdentificationLimit, bind.
  rewrite getUser_run, Hu, (isNewDay_rolledOver w u Hroll).
  unfold resetDailyIdentificationCount, bind, newDate.
  rewrite (updateUser_run _ _ u) by exact Hu. simpl.
  split; [reflexivity|]. apply lookup_insert_eq.
Qed.

(** C1: a user whose stored date is [null] or on another calendar day
    than now is treated as if the prior count were 0.  The check
    answers [current = 0], within the limit, and as a side effect
    stores count 0 and stamps the date; the increment returns 1,
    stores count 1 and stamps the date.  In both cases every other
    column of the user is kept, and the stored row does not depend
    on the count it replaces. *)
Theorem day_rollover_resets_count (w : World) (userId : Z) (u : User) :
  users (mem w) !! userId = Some u ->
  rolledOver toDateString w u ->
  let stamp := clock w (stampIndex w u) in
  (exists w1,
      checkDailyIdentificationLimit toDateString userId w
      = (inr {| withinLimit := true; current := 0; limit := 5 |}, w1)
      /\ users (mem w1) !! userId = Some (spread u (dailyUpdate 0 stamp))
      /\ dailyIdentificationsCount (spread u (dailyUpdate 0 stamp)) = Some 0
      /\ lastIdentificationDate (spread u (dailyUpdate 0 stamp)) = Some stamp)
  /\ (exists w2,
      incrementDailyIdentificationCount toDateString userId w = (inr 1, w2)
      /\ users (mem w2) !! userId = Some (spread u (dailyUpdate 1 stamp))
      /\ dailyIdentificationsCount (spread u (dailyUpdate 1 stamp)) = Some 1
      /\ lastIdentificationDate (spread u (dailyUpdate 1 stamp)) = Some stamp).
Proof.
  intros Hu Hroll stamp. split.
  - destruct (day_rollover_resets_count_aux w userId u Hu Hroll) as (w1 & Hrun & Hrow).
    exists w1. repeat split; assumption || reflexivity.
  - eexists. unfold incrementDailyIdentificationCount, bind.
    rewrite getUser_run, Hu, (isNewDay_rolledOver w u Hroll).
    unfold newDate.
    rewrite (updateUser_run _ _ u) by exact Hu. simpl.
    split; [reflexivity|]. split; [|split; reflexivity].
    apply lookup_insert_eq.
Qed.

Lemma increment_rolledOver (w : World) (userId : Z) (u : User) :
  users (mem w) !! userId = Some u ->
  rolledOver toDateString w u ->
  let u1 := spread u (dailyUpdate 1 (clock w (stampIndex w u))) in
  incrementDailyIdentificationCount toDateString userId w =
    (inr 1, {| mem := setUsers (<[userId := u1]> (users (mem w))) (mem w);
               clock := clock w; tick := S (stampIndex w u) |}).
Proof.
  intros Hu Hroll. unfold incrementDailyIdentificationCount, bind.
  rewrite getUser_run, Hu, (isNewDay_rolledOver w u Hroll).
  unfold newDate. rewrite (updateUser_run _ _ u) by exact Hu. reflexivity.
Qed.

Lemma increment_sameDay (w : World) (userId : Z) (u : User) (last : Z) :
  users (mem w) !! userId = Some u ->
  lastIdentificationDate u = Some last ->
  toDateString (clock w (tick w)) = toDateString last ->
  let n := or_zero (dailyIdentificationsCount u) + 1 in
  let u1 := spread u (dailyUpdate n (clock w (S (tick w)))) in
  incrementDailyIdentificationCount toDateString userId w =
    (inr n, {| mem := setUsers (<[userId := u1]> (users (mem w))) (mem w);
               clock := clock w; tick := S (S (tick w)) |}).
Proof.
  intros Hu Hlast Hday. unfold incrementDailyIdentificationCount, bind.
  rewrite getUser_run, Hu, (isNewDay_sameDay w u last Hlast Hday).
  unfold newDate. rewrite (updateUser_run _ _ u) by exact Hu. reflexivity.
Qed.

Lemma increment_missing (w : World) (userId : Z) :
  users (mem w) !! userId = None ->
  incrementDailyIdentificationCount toDateString userId w
  = (inl (UserNotFound userId), w).
Proof.
  intros Hu. unfold incrementDailyIdentificationCount, bind.
  rewrite getUser_run, Hu. reflexivity.
Qed.

Lemma counts_shift (c : Z) (n : nat) :
  (c + 1) :: ((fun i => c + 1 + Z.of_nat i) <$> seq 1 n)
  = (fun i => c + Z.of_nat i) <$> seq 1 (S n).
Proof.
  cbn [seq fmap list_fmap]. f_equal.
  rewrite <- (seq_shift n 1). rewrite <- list_fmap_compose.
  apply list_fmap_ext. intros _ i _. simpl. lia.
Qed.

(** Within one day, starting from a row already stamped on that day,
    [n] increments add [n] to the count and return the running counts. *)
Lemma increments_sameDay (userId : Z) (d : Day) (n : nat) :
  forall (w : World) (u : User) (c last : Z),
    users (mem w) !! userId = Some u ->
    dailyIdentificationsCount u = Some c ->
    lastIdentificationDate u = Some last ->
    toDateString last = d ->
    readingsOnDay toDateString d w (2 * n) ->
    exists w',
      repeatM n (incrementDailyIdentificationCount toDateString userId) w
      = (inr ((fun i => c + Z.of_nat i) <$> seq 1 n), w')
      /\ dailyIdentificationsCount <$> users (mem w') !! userId
         = Some (Some (c + Z.of_nat n))
      /\ tick w' = (tick w + 2 * n)%nat.
Proof.
  induction n as [|n IH]; intros w u c last Hu Hc Hlast Hd Hread.
  - exists w. split; [reflexivity|]. split; [|lia]. rewrite Hu. simpl. rewrite Hc.
    do 2 f_equal. lia.
  - assert (Hnow : toDateString (clock w (tick w)) = toDateString last).
    { rewrite Hd. apply Hread. lia. }
    assert (Hstamp : toDateString (clock w (S (tick w))) = d).
    { apply Hread. lia. }
    pose proof (increment_sameDay w userId u last Hu Hlast Hnow) as Hstep.
    simpl in Hstep. rewrite Hc, or_zero_Some in Hstep.
    set (u1 := spread u (dailyUpdate (c + 1) (clock w (S (tick w))))) in *.
    set (w1 := {| mem := setUsers (<[userId := u1]> (users (mem w))) (mem w);
                  clock := clock w; tick := S (S (tick w)) |}) in *.
    destruct (IH w1 u1 (c + 1) (clock w (S (tick w))))
      as (w' & Hrun & Hcount & Htick).
    + apply lookup_insert_eq.
    + reflexivity.
    + reflexivity.
    + exact Hstamp.
    + intros k Hk. apply (Hread k). simpl in Hk. lia.
    + exists w'. split; [|split].
      * cbn [repeatM]. unfold bind at 1. rewrite Hstep.
        unfold bind at 1. rewrite Hrun. unfold ret.
        rewrite counts_shift. reflexivity.
      * rewrite Hcount. do 2 f_equal. lia.
      * rewrite Htick. simpl. lia.
Qed.

(** C2: [N >= 1] increments for an existing user, all within calendar
    day [d], starting from a row whose stored date is [null] or not on
    [d]: the k-th call returns k and the stored count ends up equal to
    [N].  The calls are within day [d] when every reading of the clock
    they consume is; they consume exactly [readingsOfIncrements u N]
    readings. *)
Theorem increments_within_a_day (w : World) (userId : Z) (u : User)
    (d : Day) (N : nat) :
  (1 <= N)%nat ->
  users (mem w) !! userId = Some u ->
  notOnDay toDateString d u ->
  readingsOnDay toDateString d w (readingsOfIncrements u N) ->
  exists w',
    repeatM N (incrementDailyIdentificationCount toDateString userId) w
    = (inr (Z.of_nat <$> seq 1 N), w')
    /\ dailyIdentificationsCount <$> users (mem w') !! userId
       = Some (Some (Z.of_nat N))
    /\ tick w' = (tick w + readingsOfIncrements u N)%nat.
Proof.
  intros HN Hu Hnot Hread.
  destruct N as [|n]; [lia|].
  assert (Hreadings : readingsOfIncrements u (S n)
                      = (stampIndex w u - tick w + 1 + 2 * n)%nat).
  { unfold readingsOfIncrements, stampIndex.
    destruct (lastIdentificationDate u); lia. }
  rewrite Hreadings in *.
  assert (Hroll : rolledOver toDateString w u).
  { unfold rolledOver, notOnDay in *.
    destruct (lastIdentificationDate u) as [last|]; [|exact I].
    rewrite (Hread (tick w)) by lia. congruence. }
  pose proof (increment_rolledOver w userId u Hu Hroll) as Hstep.
  simpl in Hstep.
  set (stamp := clock w (stampIndex w u)) in *.
  set (u1 := spread u (dailyUpdate 1 stamp)) in *.
  set (w1 := {| mem := setUsers (<[userId := u1]> (users (mem w))) (mem w);
                clock := clock w; tick := S (stampIndex w u) |}) in *.
  assert (Hticks : (tick w <= stampIndex w u <= S (tick w))%nat).
  { unfold stampIndex. destruct (lastIdentificationDate u); lia. }
  destruct (increments_sameDay userId d n w1 u1 1 stamp)
    as (w' & Hrun & Hcount & Htick).
  - apply lookup_insert_eq.
  - reflexivity.
  - reflexivity.
  - apply Hread. lia.
  - intros k Hk. apply (Hread k). simpl in Hk. lia.
  - exists w'. split; [|split].
    + cbn [repeatM]. unfold bind at 1. rewrite Hstep.
      unfold bind at 1. rewrite Hrun. unfold ret.
      do 2 f_equal.
      change ((0 + 1) :: ((fun i => 0 + 1 + Z.of_nat i) <$> seq 1 n)
              = Z.of_nat <$> seq 1 (S n)).
      rewrite counts_shift. apply list_fmap_ext. intros _ i _. lia.
    + rewrite Hcount. do 2 f_equal. lia.
    + rewrite Htick. simpl. lia.
Qed.

Lemma check_sameDay (w : World) (userId : Z) (u : User) (last : Z) :
  users (mem w) !! userId = Some u ->
  lastIdentificationDate u = Some last ->
  toDateString (clock w (tick w)) = toDateString last ->
  let count := or_zero (dailyIdentificationsCount u) in
  returned (checkDailyIdentificationLimit toDateString userId w)
  = Some (if bool_decide (subscriptionPlan u = "premium")
          then {| withinLimit := true; current := count; limit := -1 |}
          else {| withinLimit := count <? 5; current := count; limit := 5 |}).
Proof.
  intros Hu Hlast Hday. unfold checkDailyIdentificationLimit, bind.
  rewrite getUser_run, Hu, (isNewDay_sameDay w u last Hlast Hday).
  destruct (bool_decide (subscriptionPlan u = "premium")); reflexivity.
Qed.

(** C3: for a premium user the check reports the sentinel [-1] only
    when the stored date is today.  On the path that detects a day
    rollover (stored date [null] or another day) it reports the
    constant 5, the quota of the free plan, whatever the plan is. *)
Theorem premium_limit_depends_on_path (w : World) (userId : Z) (u : User) :
  users (mem w) !! userId = Some u ->
  subscriptionPlan u = "premium" ->
  (rolledOver toDateString w u ->
   limit <$> returned (checkDailyIdentificationLimit toDateString userId w)
   = Some 5)
  /\ (forall last,
        lastIdentificationDate u = Some last ->
        toDateString (clock w (tick w)) = toDateString last ->
        limit <$> returned (checkDailyIdentificationLimit toDateString userId w)
        = Some (-1)).
Proof.
  intros Hu Hplan. split.
  - intros Hroll.
    destruct (day_rollover_resets_count_aux w userId u Hu Hroll) as (w1 & Hrun & _).
    rewrite Hrun. reflexivity.
  - intros last Hlast Hday.
    rewrite (check_sameDay w userId u last Hu Hlast Hday).
    rewrite bool_decide_eq_true_2 by exact Hplan. reflexivity.
Qed.

Lemma insertNewestFirst_perm (x : BirdIdentification) (l : list BirdIdentification) :
  insertNewestFirst x l ≡ₚ x :: l.
Proof.
  induction l as [|y l IH]; [reflexivity|].
  simpl. destruct (bi_identifiedAt y <=? bi_identifiedAt x); [reflexivity|].
  rewrite IH. apply perm_swap.
Qed.

Lemma sortNewestFirst_perm (l : list BirdIdentification) : sortNewestFirst l ≡ₚ l.
Proof.
  induction l as [|x l IH]; [reflexivity|].
  simpl. rewrite insertNewestFirst_perm. rewrite IH. reflexivity.
Qed.

Lemma insertNewestFirst_sorted (x : BirdIdentification) (l : list BirdIdentification) :
  newestFirst l -> newestFirst (insertNewestFirst x l).
Proof.
  unfold newestFirst. induction 1 as [|y l Hl IH Hy].
  - repeat constructor.
  - simpl. destruct (Z.leb_spec (bi_identifiedAt y) (bi_identifiedAt x)) as [Hle|Hgt].
    + constructor; [constructor; assumption|].
      constructor; [exact Hle|].
      eapply Forall_impl; [exact Hy|]. simpl. intros b Hb. lia.
    + constructor; [exact IH|].
      rewrite insertNewestFirst_perm. constructor; [lia|exact Hy].
Qed.

Lemma sortNewestFirst_sorted (l : list BirdIdentification) :
  newestFirst (sortNewestFirst l).
Proof.
  induction l as [|x l IH]; [constructor|].
  simpl. apply insertNewestFirst_sorted. exact IH.
Qed.

(** The sort is stable: the records of one time value keep their order. *)
Lemma insertNewestFirst_stable (t : Z) (x : BirdIdentification)
    (l : list BirdIdentification) :
  filter (fun i => bi_identifiedAt i = t) (insertNewestFirst x l)
  = filter (fun i => bi_identifiedAt i = t) (x :: l).
Proof.
  induction l as [|y l IH]; [reflexivity|].
  simpl. destruct (Z.leb_spec (bi_identifiedAt y) (bi_identifiedAt x)) as [Hle|Hgt];
    [reflexivity|].
  rewrite (filter_cons _ y), IH, !filter_cons.
  destruct (decide (bi_identifiedAt y = t)), (decide (bi_identifiedAt x = t));
    try reflexivity. lia.
Qed.

Lemma sortNewestFirst_stable (t : Z) (l : list BirdIdentification) :
  filter (fun i => bi_identifiedAt i = t) (sortNewestFirst l)
  = filter (fun i => bi_identifiedAt i = t) l.
Proof.
  induction l as [|x l IH]; [reflexivity|].
  simpl. rewrite insertNewestFirst_stable, !filter_cons, IH. reflexivity.
Qed.

Lemma length_insertNewestFirst (x : BirdIdentification) (l : list BirdIdentification) :
  length (insertNewestFirst x l) = S (length l).
Proof.
  induction l as [|y l IH]; [reflexivity|].
  simpl. destruct (bi_identifiedAt y <=? bi_identifiedAt x); simpl; congruence.
Qed.

Lemma length_sortNewestFirst (l : list BirdIdentification) :
  length (sortNewestFirst l) = length l.
Proof.
  induction l as [|x l IH]; [reflexivity|].
  simpl. rewrite length_insertNewestFirst. congruence.
Qed.

(** C7 (amended): the history cap of the premium plan is the finite
    number 30, in the plan table and in the query.  For an existing
    premium user the query returns the first [min(limit, 30)] of the
    user's records put newest first, so with a non-negative limit never
    more than 30 records. *)
Theorem premium_history_cap_is_30 (w : World) (userId : Z) (u : User) (lim : Z) :
  users (mem w) !! userId = Some u ->
  subscriptionPlan u = "premium" ->
  let mine := recordsOf userId w in
  let sorted := sortNewestFirst mine in
  let shown := slice0 sorted (Z.min lim 30) in
  identifications_history <$> subscriptionLimitsMap PREMIUM = Some (Num 30)
  /\ getRecentIdentifications (Some userId) lim w = (inr shown, w)
  /\ sorted ≡ₚ mine
  /\ newestFirst sorted
  /\ (0 <= lim ->
      shown = take (Z.to_nat (Z.min lim 30)) sorted
      /\ length shown = Nat.min (Z.to_nat (Z.min lim 30)) (length mine)
      /\ (length shown <= 30)%nat).
Proof.
  intros Hu Hplan mine sorted shown. split; [reflexivity|]. split; [|split; [|split]].
  - unfold getRecentIdentifications, bind, getMem. rewrite getUser_run, Hu.
    rewrite bool_decide_eq_true_2 by exact Hplan. reflexivity.
  - apply sortNewestFirst_perm.
  - apply sortNewestFirst_sorted.
  - intros Hlim. unfold shown, slice0.
    destruct (Z.ltb_spec (Z.min lim 30) 0) as [Hneg|_]; [lia|].
    split; [reflexivity|]. unfold sorted.
    rewrite length_take, length_sortNewestFirst. split; lia.
Qed.

(** The owner of a new record: the submitted id unless it is [null] or 0. *)
Lemma or_null_Some (userId : option Z) (n : Z) :
  or_null userId = Some n <-> userId = Some n /\ n <> 0.
Proof.
  unfold or_null. destruct userId as [m|]; [|split; [discriminate|intros [? _]; discriminate]].
  destruct (Z.eqb_spec m 0) as [->|Hm]; split.
  - discriminate.
  - intros [[= <-] Hn]. congruence.
  - intros [= <-]. split; [reflexivity|exact Hm].
  - intros [[= <-] _]. reflexivity.
Qed.

Lemma or_null_None (userId : option Z) :
  or_null userId = None <-> userId = None \/ userId = Some 0.
Proof.
  unfold or_null. destruct userId as [m|]; [|split; [left; reflexivity|reflexivity]].
  destruct (Z.eqb_spec m 0) as [->|Hm]; split.
  - right; reflexivity.
  - reflexivity.
  - discriminate.
  - intros [|[= ->]]; [discriminate|congruence].
Qed.

Lemma map_get_set {V} (k : Z) (v : V) (m : list (Z * V)) :
  map_get k (map_set k v m) = Some v.
Proof.
  induction m as [|[k' v'] m IH]; simpl.
  - rewrite bool_decide_eq_true_2 by reflexivity. reflexivity.
  - destruct (bool_decide_reflect (k' = k)) as [Heq|Hne]; simpl.
    + rewrite bool_decide_eq_true_2 by reflexivity. reflexivity.
    + rewrite bool_decide_eq_false_2 by exact Hne. exact IH.
Qed.

Lemma getIdentification_stored (w : World) (k : Z) (v : BirdIdentification)
    (m : list (Z * BirdIdentification)) :
  identifications (mem w) = map_set k v m ->
  returned (getIdentification k w) = Some (Some v).
Proof.
  intros Hm. unfold getIdentification, bind, getMem, ret, returned. simpl.
  rewrite Hm, map_get_set. reflexivity.
Qed.

(** One step of [createIdentification], with the increment kept as a
    call. *)
Lemma createIdentification_run (w : World) (ins : InsertBirdIdentification) :
  let id := identificationIdCounter (mem w) in
  let record :=
    {| bi_id := id; bi_userId := or_null (ibi_userId ins);
       bi_imageUrl := ibi_imageUrl ins; bi_identifiedAt := clock w (tick w);
       bi_result := ibi_result ins |} in
  let w1 :=
    {| mem := {| users := users (mem w);
                 identifications := identifications (mem w);
                 userIdCounter := userIdCounter (mem w);
                 identificationIdCounter := id + 1 |};
       clock := clock w; tick := S (tick w) |} in
  let store (w2 : World) :=
    {| mem := setIdentifications
                (map_set id record (identifications (mem w2))) (mem w2);
       clock := clock w2; tick := tick w2 |} in
  createIdentification toDateString ins w =
    match or_null (ibi_userId ins) with
    | Some userId =>
        match incrementDailyIdentificationCount toDateString userId w1 with
        | (inl e, w2) => (inl e, w2)
        | (inr _, w2) => (inr record, store w2)
        end
    | None => (inr record, store w1)
    end.
Proof.
  intros id record w1 store.
  unfold createIdentification, bind, getMem, putMem, newDate, ret.
  cbn [mem clock tick]. fold id. fold w1.
  destruct (or_null (ibi_userId ins)) as [userId|]; [|reflexivity].
  destruct (incrementDailyIdentificationCount toDateString userId w1)
    as [[e|n] w2]; reflexivity.
Qed.

(** C10 (amended): [createIdentification] draws the next id, reads the
    clock, and then, for an owner id that is neither [null] nor [0]
    ([or_null] gives the id), increments the daily count of that user
    before it stores the record; if that user does not exist it throws
    and neither map is changed.  For an owner id that is [null] or [0]
    ([or_null] gives [None]) the record is stored without owner and
    the users are left as they were. *)
Theorem createIdentification_counts_owner (w : World)
    (ins : InsertBirdIdentification) :
  let id := identificationIdCounter (mem w) in
  let record :=
    {| bi_id := id; bi_userId := or_null (ibi_userId ins);
       bi_imageUrl := ibi_imageUrl ins; bi_identifiedAt := clock w (tick w);
       bi_result := ibi_result ins |} in
  let r := createIdentification toDateString ins w in
  match or_null (ibi_userId ins) with
  | Some userId =>
      match users (mem w) !! userId with
      | Some u =>
          let now := clock w (S (tick w)) in
          let stamp := clock w (match lastIdentificationDate u with
                                | Some _ => S (S (tick w))
                                | None => S (tick w)
                                end) in
          returned r = Some record
          /\ users (mem (after r))
             = <[userId := spread u (dailyUpdate (nextCount toDateString now u) stamp)]>
                 (users (mem w))
          /\ identifications (mem (after r))
             = map_set id record (identifications (mem w))
          /\ returned (getIdentification id (after r)) = Some (Some record)
      | None =>
          fst r = inl (UserNotFound userId)
          /\ users (mem (after r)) = users (mem w)
          /\ identifications (mem (after r)) = identifications (mem w)
      end
  | None =>
      returned r = Some record
      /\ bi_userId record = None
      /\ users (mem (after r)) = users (mem w)
      /\ identifications (mem (after r))
         = map_set id record (identifications (mem w))
      /\ returned (getIdentification id (after r)) = Some (Some record)
  end.
Proof.
  intros id record r. subst r.
  rewrite createIdentification_run. fold id.
  destruct (or_null (ibi_userId ins)) as [userId|] eqn:Howner.
  - set (w1 := {| mem := _; clock := clock w; tick := S (tick w) |}).
    destruct (users (mem w) !! userId) as [u|] eqn:Hu.
    + assert (Hu1 : users (mem w1) !! userId = Some u) by exact Hu.
      unfold nextCount.
      destruct (lastIdentificationDate u) as [last|] eqn:Hlast.
      * destruct (decide (toDateString (clock w (S (tick w))) = toDateString last))
          as [Hday|Hday].
        -- rewrite (increment_sameDay w1 userId u last Hu1 Hlast Hday).
           rewrite bool_decide_eq_true_2 by exact Hday.
           split; [reflexivity|]. split; [reflexivity|]. split; [reflexivity|].
           eapply getIdentification_stored. reflexivity.
        -- assert (Hroll : rolledOver toDateString w1 u).
           { unfold rolledOver. rewrite Hlast. exact Hday. }
           rewrite (increment_rolledOver w1 userId u Hu1 Hroll).
           rewrite bool_decide_eq_false_2 by exact Hday.
           unfold stampIndex. rewrite Hlast.
           split; [reflexivity|]. split; [reflexivity|]. split; [reflexivity|].
           eapply getIdentification_stored. reflexivity.
      * assert (Hroll : rolledOver toDateString w1 u).
        { unfold rolledOver. rewrite Hlast. exact I. }
        rewrite (increment_rolledOver w1 userId u Hu1 Hroll).
        unfold stampIndex. rewrite Hlast.
        split; [reflexivity|]. split; [reflexivity|]. split; [reflexivity|].
        eapply getIdentification_stored. reflexivity.
    + assert (Hu1 : users (mem w1) !! userId = None) by exact Hu.
      rewrite (increment_missing w1 userId Hu1).
      split; [reflexivity|]. split; reflexivity.
  - split; [reflexivity|]. split; [reflexivity|]. split; [reflexivity|].
    split; [reflexivity|].
    eapply getIdentification_stored. reflexivity.
Qed.

End LedgerProperties.

(** ** The ledger on concrete worlds, with the UTC calendar *)

Section LedgerInstances.
Import Schema Storage Spec.

Lemma readings_of_day (day : Z) (w : World) (n : nat) :
  clock w = secondsFrom day ->
  Z.of_nat (tick w + n) <= 86400 ->
  readingsOnDay utcDay day w n.
Proof.
  intros Hclock Hn k Hk. rewrite Hclock. unfold utcDay, secondsFrom.
  symmetry. apply (Z.div_unique _ _ _ (1000 * Z.of_nat k)); lia.
Qed.

Lemma day_rollover_resets_count_witness :
  users (mem staleWorld) !! 1 = Some staleRow
  /\ rolledOver utcDay staleWorld staleRow
  /\ returned (checkDailyIdentificationLimit utcDay 1 staleWorld)
     = Some {| withinLimit := true; current := 0; limit := 5 |}
  /\ returned (incrementDailyIdentificationCount utcDay 1 staleWorld) = Some 1.
Proof.
  assert (Hu : users (mem staleWorld) !! 1 = Some staleRow) by (vm_compute; reflexivity).
  assert (Hroll : rolledOver utcDay staleWorld staleRow) by (vm_compute; discriminate).
  destruct (day_rollover_resets_count utcDay staleWorld 1 staleRow Hu Hroll)
    as [(w1 & Hcheck & _) (w2 & Hincr & _)].
  split; [exact Hu|]. split; [exact Hroll|].
  rewrite Hcheck, Hincr. split; reflexivity.
Defined.

Lemma increments_within_a_day_witness :
  (1 <= 4)%nat
  /\ users (mem staleWorld) !! 1 = Some staleRow
  /\ notOnDay utcDay 1 staleRow
  /\ readingsOnDay utcDay 1 staleWorld 8
  /\ exists w',
      repeatM 4 (incrementDailyIdentificationCount utcDay 1) staleWorld
      = (inr [1; 2; 3; 4], w')
      /\ dailyIdentificationsCount <$> users (mem w') !! 1 = Some (Some 4)
      /\ tick w' = 8%nat.
Proof.
  assert (HN : (1 <= 4)%nat) by lia.
  assert (Hu : users (mem staleWorld) !! 1 = Some staleRow) by (vm_compute; reflexivity).
  assert (Hnot : notOnDay utcDay 1 staleRow) by (vm_compute; discriminate).
  assert (Hread : readingsOnDay utcDay 1 staleWorld 8).
  { apply readings_of_day; [reflexivity | simpl; lia]. }
  repeat (split; [assumption|]).
  exact (increments_within_a_day utcDay staleWorld 1 staleRow 1 4 HN Hu Hnot Hread).
Defined.

Lemma premium_limit_depends_on_path_witness :
  users (mem premiumWorld) !! 1 = Some premiumRow
  /\ subscriptionPlan premiumRow = "premium"
  /\ rolledOver utcDay premiumWorld premiumRow
  /\ limit <$> returned (checkDailyIdentificationLimit utcDay 1 premiumWorld)
     = Some 5.
Proof.
  assert (Hu : users (mem premiumWorld) !! 1 = Some premiumRow) by (vm_compute; reflexivity).
  assert (Hplan : subscriptionPlan premiumRow = "premium") by reflexivity.
  assert (Hroll : rolledOver utcDay premiumWorld premiumRow) by exact I.
  repeat (split; [assumption|]).
  exact (proj1 (premium_limit_depends_on_path utcDay premiumWorld 1 premiumRow Hu Hplan)
               Hroll).
Defined.

(** C7, as stated, fails: a premium user who owns 31 records and asks
    for up to 100 of them is shown 30. *)
Lemma premium_history_truncated :
  subscriptionPlan <$> users (mem historyWorld) !! 1 = Some "premium"
  /\ length (recordsOf 1 historyWorld) = 31%nat
  /\ length <$> returned (getRecentIdentifications (Some 1) 100 historyWorld)
     = Some 30%nat.
Proof. vm_compute. repeat split; reflexivity. Qed.

Lemma premium_history_cap_is_30_witness :
  (exists u, users (mem historyWorld) !! 1 = Some u
             /\ subscriptionPlan u = "premium")
  /\ length <$> returned (getRecentIdentifications (Some 1) 100 historyWorld)
     = Some (Nat.min 30 (length (recordsOf 1 historyWorld))).
Proof.
  destruct (users (mem historyWorld) !! 1) as [u|] eqn:Hu;
    [|vm_compute in Hu; discriminate].
  assert (Hplan : subscriptionPlan u = "premium").
  { vm_compute in Hu. injection Hu as <-. reflexivity. }
  split; [exists u; split; [reflexivity | exact Hplan]|].
  destruct (premium_history_cap_is_30 historyWorld 1 u 100 Hu Hplan)
    as (_ & Hrun & _ & _ & Hlen).
  rewrite Hrun. unfold returned. cbn [fst fmap option_fmap option_map].
  rewrite (proj1 (proj2 (Hlen ltac:(lia)))). reflexivity.
Defined.

(** C10, as stated, fails: the owner id 0 is not [null] and no user 0
    exists, yet nothing is thrown and the record is stored. *)
Lemma createIdentification_zero_owner_stored :
  let r := createIdentification utcDay byZero (startWorld 0) in
  ibi_userId byZero = Some 0
  /\ users (mem (startWorld 0)) !! 0 = None
  /\ identifications (mem (startWorld 0)) = []
  /\ (exists record, fst r = inr record
                     /\ identifications (mem (after r)) = [(1, record)]).
Proof.
  cbv zeta. do 3 (split; [reflexivity|]).
  eexists. split; vm_compute; reflexivity.
Qed.

End LedgerInstances.

(** * Properties of the result normaliser *)

Section NormalizerProperties.
Import Js Schema Gemini NormalizerSpec.
Local Open Scope try_scope.
Variable StringToNumber : string -> number.
Variable ArrayToString : list json -> string.

Local Abbreviation tryBlock := (Gemini.tryBlock StringToNumber ArrayToString).
Local Abbreviation normalizeResponse :=
  (Gemini.normalizeResponse StringToNumber ArrayToString).

Lemma andThen_inr {A B} (c : T A) (k : A -> T B) (b : B) :
  andThen c k = inr b -> exists a, c = inr a /\ k a = inr b.
Proof. destruct c as [e|a]; [discriminate|]. intros Hk. exists a. split; [reflexivity|exact Hk]. Qed.

Lemma truthy_field_object (resp : json) (k : string) :
  truthy (field (Some resp) k) = true ->
  exists fields, resp = JObj fields /\ prop (Some resp) k = inr (lookup_field k fields).
Proof.
  unfold field. destruct resp; simpl; try discriminate.
  intros _. eexists. split; reflexivity.
Qed.

Lemma normalize_of_throw (img : option string) (resp : json) (e : Thrown) :
  tryBlock img resp = inl e -> normalizeResponse img resp = inl parseFailure.
Proof. unfold Gemini.normalizeResponse. intros ->. reflexivity. Qed.

(** C5: a response whose error flag is set is always rejected, whatever
    else it contains.  The [try] block throws an error that carries the
    provided message (or the default text), but the enclosing [catch]
    replaces it: what the caller receives is the fixed parse-failure
    error, not the provided message. *)
Theorem error_flag_rejected_with_parse_failure (img : option string) (resp : json) :
  errorFlag resp = true ->
  tryBlock img resp
  = inl (ErrorWith (or_else (field (Some resp) "message")
                            (JStr "Failed to identify bird in image")))
  /\ normalizeResponse img resp = inl parseFailure.
Proof.
  intros Hflag.
  destruct (truthy_field_object resp "error" Hflag) as (fields & -> & Hprop).
  assert (Htry : tryBlock img (JObj fields)
                 = inl (ErrorWith (or_else (field (Some (JObj fields)) "message")
                                           (JStr "Failed to identify bird in image")))).
  { unfold Gemini.tryBlock. rewrite Hprop. cbn [andThen].
    unfold errorFlag, field in Hflag. rewrite Hprop in Hflag. rewrite Hflag.
    reflexivity. }
  split; [exact Htry|]. exact (normalize_of_throw _ _ _ Htry).
Qed.

(** C6: a response without error flag that has no primary bird entry
    with a name is always rejected.  For a response that is not [null]
    the [try] block throws the error made for this case, but the
    enclosing [catch] replaces it: the caller receives the same fixed
    parse-failure error as for every other rejection. *)
Theorem missing_name_rejected_with_parse_failure (img : option string) (resp : json) :
  errorFlag resp = false ->
  namedMainBird resp = false ->
  (resp <> JNull ->
   tryBlock img resp
   = inl (ErrorWith
            (JStr "The API response did not contain valid bird identification data")))
  /\ normalizeResponse img resp = inl parseFailure.
Proof.
  intros Hflag Hname.
  assert (Hnull : resp = JNull \/ resp <> JNull).
  { destruct resp; (left; reflexivity) || (right; discriminate). }
  destruct Hnull as [->|Hnull].
  { split; [congruence|reflexivity]. }
  assert (Htry : tryBlock img resp
                 = inl (ErrorWith
                          (JStr "The API response did not contain valid bird identification data"))).
  { unfold Gemini.tryBlock, errorFlag, namedMainBird, field in *.
    destruct resp as [| b | n | s | l | fields]; try congruence;
      try (simpl in *; reflexivity).
    cbn [prop andThen ok] in *. rewrite Hflag.
    unfold missingMainBird.
    destruct (truthy (lookup_field "mainBird" fields)) eqn:Hmb; [|reflexivity].
    simpl in Hname.
    destruct (lookup_field "mainBird" fields) as [[| b | n | s | l | mb]|];
      simpl in *; try discriminate; try rewrite Hname; try reflexivity. }
  split; [intros _; exact Htry|]. exact (normalize_of_throw _ _ _ Htry).
Qed.

(** *** The confidence *)

Lemma Qle_bool_inject_Z (a b : Z) : Qle_bool (inject_Z a) (inject_Z b) = (a <=? b).
Proof. unfold Qle_bool, inject_Z. simpl. rewrite !Z.mul_1_r. reflexivity. Qed.

Lemma nearest_round (q : Q) : nearestInteger q (Qfloor (q + (1 # 2))).
Proof.
  pose proof (Qfloor_le (q + (1 # 2))) as Hle.
  pose proof (Qlt_floor (q + (1 # 2))) as Hlt.
  rewrite inject_Z_plus in Hlt. change (inject_Z 1) with 1%Q in Hlt.
  unfold nearestInteger.
  set (n := inject_Z (Qfloor (q + (1 # 2)))) in *.
  split; lra.
Qed.

(** [Math.round] prefers the upper of two nearest integers. *)
Lemma round_tie_goes_up (k : Z) :
  Math_round (Fin (inject_Z k + (1 # 2))) = Fin (inject_Z (k + 1)).
Proof.
  unfold Math_round. do 2 f_equal.
  unfold Qfloor, Qplus, inject_Z. simpl.
  symmetry. apply (Z.div_unique _ _ _ 0); lia.
Qed.

Lemma round_of_integer (k : Z) :
  Math_round (Fin (inject_Z k)) = Fin (inject_Z k).
Proof.
  unfold Math_round. do 2 f_equal.
  unfold Qfloor, Qplus, inject_Z. simpl.
  symmetry. apply (Z.div_unique _ _ _ 1); lia.
Qed.

Lemma clamp_steps (n : Z) :
  Math_min (Math_max (Fin 1) (Fin (inject_Z n))) (Fin 100) = Fin (inject_Z (clamp n)).
Proof.
  unfold Math_max, Math_min, clamp.
  change 1%Q with (inject_Z 1). change 100%Q with (inject_Z 100).
  rewrite Qle_bool_inject_Z.
  destruct (Z.leb_spec 1 n) as [H1|H1].
  - rewrite Qle_bool_inject_Z. destruct (Z.leb_spec n 100) as [H2|H2].
    + do 2 f_equal. lia.
    + do 2 f_equal. lia.
  - rewrite Qle_bool_inject_Z. simpl. do 2 f_equal. lia.
Qed.

Lemma clamp_in_range (n : Z) : 1 <= clamp n <= 100.
Proof. unfold clamp. lia. Qed.

(** What [Math.min(Math.max(1, Math.round(x)), 100)] is on each number. *)
Lemma round_max_min (x : number) :
  let out := Math_min (Math_max (Fin 1) (Math_round x)) (Fin 100) in
  match x with
  | NaN => out = NaN
  | _ => roundedThenClamped x out /\ inRange out
  end.
Proof.
  destruct x as [| | |q]; cbv zeta.
  - reflexivity.
  - split; [reflexivity|]. exists 100. split; [lia|reflexivity].
  - split; [reflexivity|]. exists 1. split; [lia|reflexivity].
  - unfold Math_round. rewrite clamp_steps. split.
    + exists (Qfloor (q + (1 # 2))). split; [apply nearest_round|reflexivity].
    + eexists. split; [apply clamp_in_range|reflexivity].
Qed.

Lemma clampConfidence_accepted (c : value) (out : number) :
  zNumber (clampConfidence StringToNumber ArrayToString c) = inr out ->
  out = clampConfidence StringToNumber ArrayToString c
  /\ roundedThenClamped (ToNumber StringToNumber ArrayToString
                           (or_else c (JNum (Fin 0)))) out
  /\ inRange out.
Proof.
  unfold clampConfidence.
  pose proof (round_max_min (ToNumber StringToNumber ArrayToString
                               (or_else c (JNum (Fin 0))))) as Hspec.
  cbv zeta in Hspec.
  destruct (ToNumber StringToNumber ArrayToString (or_else c (JNum (Fin 0))))
    as [| | |q].
  - rewrite Hspec. discriminate.
  - destruct Hspec as [Hr Hin]. rewrite Hr. simpl. intros [= <-].
    split; [reflexivity|]. split; [reflexivity|]. rewrite <- Hr. exact Hin.
  - destruct Hspec as [Hr Hin]. rewrite Hr. simpl. intros [= <-].
    split; [reflexivity|]. split; [reflexivity|]. rewrite <- Hr. exact Hin.
  - destruct Hspec as [Hr Hin]. destruct Hin as (k & Hk & Hout).
    rewrite Hout. simpl. intros [= <-].
    split; [reflexivity|]. split; [rewrite <- Hout; exact Hr|].
    exists k. split; [exact Hk|reflexivity].
Qed.

(** *** What an accepted response went through *)

Ltac invert_lets H :=
  repeat (let v := fresh "v" in
          let Hv := fresh "Hv" in
          apply andThen_inr in H; destruct H as (v & Hv & H); cbv beta in H).

Lemma field_of_prop (v : value) (k : string) (x : value) :
  prop v k = inr x -> field v k = x.
Proof. unfold field. intros ->. reflexivity. Qed.

Lemma readMainBird_inr (mb : value) (main : RawBird) :
  readMainBird StringToNumber ArrayToString mb = inr main ->
  raw_name main = or_else (field mb "name") (JStr "Unknown Bird")
  /\ raw_scientificName main
     = or_else (field mb "scientificName") (JStr "Unknown Species")
  /\ raw_confidence main
     = clampConfidence StringToNumber ArrayToString (field mb "confidence")
  /\ raw_description main
     = or_else (field mb "description") (JStr "No description available")
  /\ raw_features main
     = or_else (field mb "features") (JArr [JStr "No features available"])
  /\ raw_habitat main = or_else (field mb "habitat") (JStr "Unknown habitat")
  /\ raw_sound main = or_else (field mb "sound") (JStr "Unknown sound").
Proof.
  unfold readMainBird. intros H. invert_lets H.
  injection H as <-. cbn [raw_name raw_scientificName raw_confidence
    raw_description raw_features raw_habitat raw_sound].
  repeat match goal with
         | Hp : prop mb _ = inr _ |- _ => apply field_of_prop in Hp; rewrite Hp; clear Hp
         end.
  repeat split; reflexivity.
Qed.

Lemma birdSchema_inr (main : RawBird) (b : Bird) :
  birdSchema main = inr b ->
  zString (Some (raw_name main)) = inr (name b)
  /\ zString (Some (raw_scientificName main)) = inr (scientificName b)
  /\ zNumber (raw_confidence main) = inr (confidence b)
  /\ zString (Some (raw_description main)) = inr (description b)
  /\ zStringArray (Some (raw_features main)) = inr (features b)
  /\ zOptString (Some (raw_habitat main)) = inr (habitat b)
  /\ zOptString (Some (raw_sound main)) = inr (sound b)
  /\ imageUrl b = None
  /\ zOptional migrationPatternsSchema (raw_migrationPatterns main)
     = inr (migrationPatterns b).
Proof.
  unfold birdSchema. intros H. invert_lets H. injection H as <-.
  cbn [name scientificName confidence description features habitat sound imageUrl
       migrationPatterns].
  repeat split; assumption.
Qed.

Lemma similarBirdSchema_inr (raw : RawSimilarBird) (b : SimilarBird) :
  similarBirdSchema raw = inr b ->
  zString (Some (raw_sb_name raw)) = inr (sb_name b)
  /\ zString (Some (raw_sb_scientificName raw)) = inr (sb_scientificName b)
  /\ zNumber (raw_sb_confidence raw) = inr (sb_confidence b)
  /\ sb_imageUrl b = None.
Proof.
  unfold similarBirdSchema. intros H. invert_lets H. injection H as <-.
  repeat split; assumption.
Qed.

Lemma readSimilarBird_inr (bird : json) (raw : RawSimilarBird) :
  readSimilarBird StringToNumber ArrayToString bird = inr raw ->
  raw_sb_name raw = or_else (field (Some bird) "name") (JStr "Unknown Similar Bird")
  /\ raw_sb_scientificName raw
     = or_else (field (Some bird) "scientificName") (JStr "Unknown Species")
  /\ raw_sb_confidence raw
     = clampConfidence StringToNumber ArrayToString (field (Some bird) "confidence").
Proof.
  unfold readSimilarBird. intros H. invert_lets H. injection H as <-.
  cbn [raw_sb_name raw_sb_scientificName raw_sb_confidence].
  repeat match goal with
         | Hp : prop (Some bird) _ = inr _ |- _ =>
             apply field_of_prop in Hp; rewrite Hp; clear Hp
         end.
  repeat split; reflexivity.
Qed.

Lemma mapT_inr {A B} (f : A -> T B) (l : list A) (out : list B) :
  mapT f l = inr out -> Forall2 (fun a b => f a = inr b) l out.
Proof.
  revert out. induction l as [|a l IH]; intros out H.
  - injection H as <-. constructor.
  - cbn [mapT] in H. invert_lets H. injection H as <-.
    constructor; [assumption|]. apply IH. assumption.
Qed.

Lemma mapT_of_Forall2 {A B} (f : A -> T B) (l : list A) (out : list B) :
  Forall2 (fun a b => f a = inr b) l out -> mapT f l = inr out.
Proof.
  induction 1 as [|a b l out Hab _ IH]; [reflexivity|].
  cbn [mapT]. rewrite Hab. cbn [andThen]. rewrite IH. reflexivity.
Qed.

Lemma tryBlock_inr (img : option string) (resp : json) (r : IdentificationResult) :
  tryBlock img resp = inr r ->
  errorFlag resp = false
  /\ namedMainBird resp = true
  /\ exists main sims out,
      readMainBird StringToNumber ArrayToString (field (Some resp) "mainBird")
      = inr main
      /\ birdSchema main = inr (mainBird r)
      /\ mapT (readSimilarBird StringToNumber ArrayToString) (similarEntries resp)
         = inr sims
      /\ mapT similarBirdSchema sims = inr out
      /\ similarBirds r = Some out
      /\ originalImage r = originalImageOf img.
Proof.
  unfold Gemini.tryBlock. intros H.
  apply andThen_inr in H. destruct H as (e & He & H).
  unfold errorFlag. rewrite (field_of_prop _ _ _ He).
  destruct (truthy e) eqn:Herr.
  { apply andThen_inr in H. destruct H as (m & _ & H). discriminate. }
  split; [reflexivity|].
  apply andThen_inr in H. destruct H as (mb & Hmb & H).
  apply andThen_inr in H. destruct H as (missing & Hmissing & H).
  destruct missing; [discriminate|].
  apply andThen_inr in H. destruct H as (main & Hmain & H).
  apply andThen_inr in H. destruct H as (similar & Hsimilar & H).
  apply andThen_inr in H. destruct H as (sims & Hsims & H).
  unfold identificationResultSchema in H. cbn [raw_mainBird raw_similarBirds
    raw_originalImage] in H.
  apply andThen_inr in H. destruct H as (b & Hb & H).
  apply andThen_inr in H. destruct H as (out & Hout & H).
  injection H as <-. cbn [mainBird similarBirds originalImage].
  unfold namedMainBird, similarEntries.
  rewrite (field_of_prop _ _ _ Hmb), (field_of_prop _ _ _ Hsimilar).
  split.
  - unfold missingMainBird in Hmissing.
    destruct (truthy mb) eqn:Htruthy; [|discriminate].
    apply andThen_inr in Hmissing. destruct Hmissing as (n & Hn & Hmissing).
    rewrite (field_of_prop _ _ _ Hn). injection Hmissing as Hmissing.
    destruct (truthy n); [reflexivity|discriminate].
  - exists main, sims, out. repeat split; try assumption.
    destruct similar as [[| | | |birds|]|]; try assumption.
Qed.

(** C4: in every accepted response the confidence of the primary bird
    and of each similar bird is the input confidence (0 when absent)
    rounded to a nearest integer and then clamped into 1..100.  The two
    examples of the specification: 150 gives 100 and -5 gives 1. *)
Theorem confidence_rounded_then_clamped (img : option string) :
  (forall resp r,
      normalizeResponse img resp = inr r ->
      roundedThenClamped
        (inputConfidence StringToNumber ArrayToString (field (Some resp) "mainBird"))
        (confidence (mainBird r))
      /\ exists similar,
          similarBirds r = Some similar
          /\ Forall2 (fun entry b =>
                        roundedThenClamped
                          (inputConfidence StringToNumber ArrayToString (Some entry))
                          (sb_confidence b))
                     (similarEntries resp) similar)
  /\ confidence ∘ mainBird <$> accepted (normalizeResponse img (robinWith 150))
     = Some (Fin 100)
  /\ confidence ∘ mainBird <$> accepted (normalizeResponse img (robinWith (-5 # 1)))
     = Some (Fin 1).
Proof.
  split; [|split; reflexivity].
  intros resp r Hr. unfold Gemini.normalizeResponse in Hr.
  destruct (tryBlock img resp) as [e|r0] eqn:Htry; [discriminate|].
  injection Hr as ->.
  destruct (tryBlock_inr img resp r Htry)
    as (_ & _ & main & sims & out & Hmain & Hb & Hsims & Hout & Hsimilar & _).
  split.
  - destruct (readMainBird_inr _ _ Hmain) as (_ & _ & Hconf & _).
    destruct (birdSchema_inr _ _ Hb) as (_ & _ & Hz & _).
    rewrite Hconf in Hz.
    destruct (clampConfidence_accepted _ _ Hz) as (_ & Hspec & _). exact Hspec.
  - exists out. split; [exact Hsimilar|].
    apply mapT_inr in Hsims. apply mapT_inr in Hout.
    clear Hsimilar Htry. revert out Hout.
    induction Hsims as [|entry raw entries sims Hentry _ IH]; intros out Hout.
    + inversion Hout. constructor.
    + inversion Hout as [|? b ? out' Hraw Hrest]; subst. constructor.
      * destruct (readSimilarBird_inr _ _ Hentry) as (_ & _ & Hconf).
        destruct (similarBirdSchema_inr _ _ Hraw) as (_ & _ & Hz & _).
        rewrite Hconf in Hz.
        destruct (clampConfidence_accepted _ _ Hz) as (_ & Hspec & _). exact Hspec.
      * apply IH. exact Hrest.
Qed.

(** *** The features *)

Lemma zStringArray_inr (l : list json) (fs : list string) :
  zStringArray (Some (JArr l)) = inr fs -> JStr <$> fs = l.
Proof.
  cbn [zStringArray]. intros H. apply mapT_inr in H.
  induction H as [|j f l fs Hj _ IH]; [reflexivity|].
  cbn [fmap list_fmap]. f_equal; [|exact IH].
  destruct j; try discriminate. injection Hj as ->. reflexivity.
Qed.

Lemma zStringArray_strings (fs : list string) :
  zStringArray (Some (JArr (JStr <$> fs))) = inr fs.
Proof.
  cbn [zStringArray]. apply mapT_of_Forall2.
  induction fs as [|f fs IH]; constructor; [reflexivity|exact IH].
Qed.

(** C8 (amended): in every accepted response the features of the
    primary bird are the input list itself when the input value is a
    list, and the single default feature when the input value is absent
    or falsy; no other input value is accepted.  So the output list is
    empty exactly when the input list is the empty list. *)
Theorem features_follow_the_response (img : option string) (resp : json)
    (r : IdentificationResult) :
  normalizeResponse img resp = inr r ->
  let given := field (field (Some resp) "mainBird") "features" in
  match given with
  | Some (JArr l) => JStr <$> features (mainBird r) = l
  | _ => truthy given = false
         /\ features (mainBird r) = ["No features available"]
  end
  /\ (features (mainBird r) = [] <-> given = Some (JArr [])).
Proof.
  intros Hr. unfold Gemini.normalizeResponse in Hr.
  destruct (tryBlock img resp) as [e|r0] eqn:Htry; [discriminate|].
  injection Hr as ->.
  destruct (tryBlock_inr img resp r Htry)
    as (_ & _ & main & _ & _ & Hmain & Hb & _).
  destruct (readMainBird_inr _ _ Hmain) as (_ & _ & _ & _ & Hfeat & _).
  destruct (birdSchema_inr _ _ Hb) as (_ & _ & _ & _ & Hz & _).
  rewrite Hfeat in Hz. clear Hfeat Hb Hmain Htry. cbv zeta.
  destruct (field (field (Some resp) "mainBird") "features")
    as [[| b | n | s | l | fields]|]; cbn [or_else truthy] in Hz |- *.
  - injection Hz as <-. split; [split; reflexivity|]. split; discriminate.
  - destruct b; [discriminate|]. injection Hz as <-.
    split; [split; reflexivity|]. split; discriminate.
  - destruct n as [| | |q]; try discriminate.
    + injection Hz as <-. split; [split; reflexivity|]. split; discriminate.
    + destruct (isZero q); cbn [negb] in Hz |- *; [|discriminate].
      injection Hz as <-. split; [split; reflexivity|]. split; discriminate.
  - destruct (bool_decide (s = "")); cbn [negb] in Hz |- *; [|discriminate].
    injection Hz as <-. split; [split; reflexivity|]. split; discriminate.
  - apply zStringArray_inr in Hz. split; [exact Hz|]. subst l. split.
    + intros ->. reflexivity.
    + intros [= Hl]. destruct (features (mainBird r)); [reflexivity|discriminate].
  - discriminate.
  - injection Hz as <-. split; [split; reflexivity|]. split; discriminate.
Qed.

(** *** An accepted response yields a normalised result *)

Lemma zString_or_else (v : value) (d s : string) :
  d <> "" -> zString (Some (or_else v (JStr d))) = inr s -> s <> "".
Proof.
  intros Hd. destruct v as [[| b | n | s' | l | fields]|]; cbn [or_else truthy zString];
    try (intros [= <-]; exact Hd); try discriminate.
  - destruct b; [discriminate|]. intros [= <-]; exact Hd.
  - destruct n as [| | |q]; try discriminate; try (intros [= <-]; exact Hd).
    destruct (isZero q); [|discriminate]. intros [= <-]; exact Hd.
  - destruct (bool_decide_reflect (s' = "")) as [->|Hs]; cbn [negb].
    + intros [= <-]; exact Hd.
    + intros [= <-]; exact Hs.
Qed.

Lemma zOptString_or_else (v : value) (d : string) (o : option string) :
  d <> "" -> zOptString (Some (or_else v (JStr d))) = inr o ->
  exists s, o = Some s /\ s <> "".
Proof.
  intros Hd Ho.
  destruct (or_else v (JStr d)) as [| b | n | s | l | fields] eqn:Hv;
    try discriminate.
  injection Ho as <-. exists s. split; [reflexivity|].
  apply (zString_or_else v d s Hd). rewrite Hv. reflexivity.
Qed.

Lemma migrationPatternsSchema_says (raw : option RawMigrationPatterns)
    (o : option MigrationPatterns) :
  zOptional migrationPatternsSchema raw = inr o ->
  forall m, o = Some m -> exists y, migratory m = Some y.
Proof.
  destruct raw as [raw|]; cbn [zOptional].
  - intros H. invert_lets H. injection H as <-. intros m [= <-].
    unfold migrationPatternsSchema in Hv. invert_lets Hv. injection Hv as <-.
    eexists. reflexivity.
  - intros [= <-]. discriminate.
Qed.

Lemma accepted_is_normal (img : option string) (resp : json)
    (r : IdentificationResult) :
  tryBlock img resp = inr r -> normalResult r.
Proof.
  intros Htry.
  destruct (tryBlock_inr img resp r Htry)
    as (_ & _ & main & sims & out & Hmain & Hb & Hsims & Hout & Hsimilar & _).
  split.
  - destruct (readMainBird_inr _ _ Hmain)
      as (Hname & Hsci & Hconf & Hdesc & _ & Hhab & Hsound).
    destruct (birdSchema_inr _ _ Hb)
      as (Zname & Zsci & Zconf & Zdesc & _ & Zhab & Zsound & Zurl & Zmig).
    rewrite Hname in Zname. rewrite Hsci in Zsci. rewrite Hconf in Zconf.
    rewrite Hdesc in Zdesc. rewrite Hhab in Zhab. rewrite Hsound in Zsound.
    unfold normalBird.
    refine (conj _ (conj _ (conj _ (conj _ (conj _ (conj _ (conj _ _))))))).
    + eapply zString_or_else; [|exact Zname]. discriminate.
    + eapply zString_or_else; [|exact Zsci]. discriminate.
    + exact (proj2 (proj2 (clampConfidence_accepted _ _ Zconf))).
    + eapply zString_or_else; [|exact Zdesc]. discriminate.
    + eapply zOptString_or_else; [|exact Zhab]. discriminate.
    + eapply zOptString_or_else; [|exact Zsound]. discriminate.
    + exact Zurl.
    + exact (migrationPatternsSchema_says _ _ Zmig).
  - exists out. split; [exact Hsimilar|].
    apply mapT_inr in Hsims. apply mapT_inr in Hout.
    clear Hsimilar Htry. revert out Hout.
    induction Hsims as [|entry raw entries sims Hentry _ IH]; intros out Hout.
    + inversion Hout. constructor.
    + inversion Hout as [|? b ? out' Hraw Hrest]; subst. constructor.
      * destruct (readSimilarBird_inr _ _ Hentry) as (Hname & Hsci & Hconf).
        destruct (similarBirdSchema_inr _ _ Hraw) as (Zname & Zsci & Zconf & Zurl).
        rewrite Hname in Zname. rewrite Hsci in Zsci. rewrite Hconf in Zconf.
        unfold normalSimilar. refine (conj _ (conj _ (conj _ _))).
        -- eapply zString_or_else; [|exact Zname]. discriminate.
        -- eapply zString_or_else; [|exact Zsci]. discriminate.
        -- exact (proj2 (proj2 (clampConfidence_accepted _ _ Zconf))).
        -- exact Zurl.
      * apply IH. exact Hrest.
Qed.

(** *** Reading a normalised result back *)

Lemma clampConfidence_in_range (n : number) :
  inRange n -> clampConfidence StringToNumber ArrayToString (Some (JNum n)) = n.
Proof.
  intros (k & Hk & ->). unfold clampConfidence.
  assert (Htruthy : truthy (Some (JNum (Fin (inject_Z k)))) = true).
  { cbn [truthy]. unfold isZero, inject_Z. cbn [Qnum].
    destruct (Z.eqb_spec k 0); [lia|reflexivity]. }
  unfold or_else. rewrite Htruthy. cbn [ToNumber].
  rewrite round_of_integer, clamp_steps. do 2 f_equal. unfold clamp. lia.
Qed.

Lemma or_else_text (s : string) (d : json) :
  s <> "" -> or_else (Some (JStr s)) d = JStr s.
Proof.
  intros Hs. unfold or_else. cbn [truthy].
  rewrite bool_decide_eq_false_2 by exact Hs. reflexivity.
Qed.

Lemma reread_physicalCharacteristics (o : option PhysicalCharacteristics) :
  exists raw,
    readPhysicalCharacteristics (physicalCharacteristicsToJson <$> o) = inr raw
    /\ zOptional physicalCharacteristicsSchema raw = inr o.
Proof.
  destruct o as [[[?|] [?|] [?|] [?|] [?|] [?|] [?|]]|];
    eexists; split; reflexivity.
Qed.

Lemma reread_habitatAndRange (o : option HabitatAndRange) :
  exists raw,
    readHabitatAndRange (habitatAndRangeToJson <$> o) = inr raw
    /\ zOptional habitatAndRangeSchema raw = inr o.
Proof.
  destruct o as [[[?|] [?|] [?|]]|]; eexists; split; reflexivity.
Qed.

Lemma reread_migrationPatterns (o : option MigrationPatterns) :
  (forall m, o = Some m -> exists y, migratory m = Some y) ->
  exists raw,
    readMigrationPatterns (migrationPatternsToJson <$> o) = inr raw
    /\ zOptional migrationPatternsSchema raw = inr o.
Proof.
  intros Hsays. destruct o as [m|]; [|eexists; split; reflexivity].
  destruct (Hsays m eq_refl) as (y & Hy).
  destruct m as [mig [?|] [?|] [?|] [?|]]; cbn [migratory] in Hy; subst mig;
    destruct y; eexists; split; reflexivity.
Qed.

Lemma reread_seasonalVariations (o : option SeasonalVariations) :
  exists raw,
    readSeasonalVariations (seasonalVariationsToJson <$> o) = inr raw
    /\ zOptional seasonalVariationsSchema raw = inr o.
Proof.
  destruct o as [[[?|] [?|] [?|] [?|]]|]; eexists; split; reflexivity.
Qed.

Lemma reread_sounds (o : option BirdSounds) :
  exists raw,
    readSounds (birdSoundsToJson <$> o) = inr raw
    /\ zOptional birdSoundsSchema raw = inr o.
Proof.
  destruct o as [[[?|] [?|] [?|]]|]; eexists; split; reflexivity.
Qed.

Lemma props_of_birdToJson (b : Bird) :
  let mb := Some (birdToJson b) in
  prop mb "name" = inr (Some (JStr (name b)))
  /\ prop mb "scientificName" = inr (Some (JStr (scientificName b)))
  /\ prop mb "confidence" = inr (Some (JNum (confidence b)))
  /\ prop mb "description" = inr (Some (JStr (description b)))
  /\ prop mb "features" = inr (Some (JArr (JStr <$> features b)))
  /\ prop mb "habitat" = inr (JStr <$> habitat b)
  /\ prop mb "sound" = inr (JStr <$> sound b)
  /\ prop mb "physicalCharacteristics"
     = inr (physicalCharacteristicsToJson <$> physicalCharacteristics b)
  /\ prop mb "habitatAndRange" = inr (habitatAndRangeToJson <$> habitatAndRange b)
  /\ prop mb "migrationPatterns"
     = inr (migrationPatternsToJson <$> migrationPatterns b)
  /\ prop mb "seasonalVariations"
     = inr (seasonalVariationsToJson <$> seasonalVariations b)
  /\ prop mb "sounds" = inr (birdSoundsToJson <$> sounds b).
Proof.
  destruct b as [n sn c d fs [h|] [s|] [u|] [pc|] [hr|] [mp|] [sv|] [sd|]];
    cbv zeta; repeat split; reflexivity.
Qed.

Lemma reread_bird (b : Bird) :
  normalBird b ->
  exists raw,
    readMainBird StringToNumber ArrayToString (Some (birdToJson b)) = inr raw
    /\ birdSchema raw = inr b.
Proof.
  intros (Hname & Hsci & Hconf & Hdesc & (h & Hh & Hh') & (s & Hs & Hs') & Hurl & Hmig).
  destruct (props_of_birdToJson b)
    as (P1 & P2 & P3 & P4 & P5 & P6 & P7 & P8 & P9 & P10 & P11 & P12).
  cbv zeta in *.
  destruct (reread_physicalCharacteristics (physicalCharacteristics b))
    as (pc & Rpc & Zpc).
  destruct (reread_habitatAndRange (habitatAndRange b)) as (hr & Rhr & Zhr).
  destruct (reread_migrationPatterns (migrationPatterns b) Hmig) as (mp & Rmp & Zmp).
  destruct (reread_seasonalVariations (seasonalVariations b)) as (sv & Rsv & Zsv).
  destruct (reread_sounds (sounds b)) as (sd & Rsd & Zsd).
  eexists. split.
  - unfold readMainBird.
    rewrite P1, P2, P3, P4, P5, P6, P7, P8. cbn [andThen].
    rewrite Rpc, P9. cbn [andThen]. rewrite Rhr, P10. cbn [andThen].
    rewrite Rmp, P11. cbn [andThen]. rewrite Rsv, P12. cbn [andThen].
    rewrite Rsd. cbn [andThen]. reflexivity.
  - unfold birdSchema.
    cbn [raw_name raw_scientificName raw_confidence raw_description raw_features
         raw_habitat raw_sound raw_physicalCharacteristics raw_habitatAndRange
         raw_migrationPatterns raw_seasonalVariations raw_sounds].
    rewrite Zpc, Zhr, Zmp, Zsv, Zsd.
    rewrite (or_else_text _ _ Hname), (or_else_text _ _ Hsci),
      (or_else_text _ _ Hdesc).
    rewrite (clampConfidence_in_range _ Hconf).
    rewrite Hh, Hs. cbn [fmap option_fmap option_map].
    rewrite (or_else_text _ _ Hh'), (or_else_text _ _ Hs').
    cbn [or_else truthy]. rewrite zStringArray_strings.
    destruct Hconf as (k & _ & Hk). rewrite Hk.
    cbn [zString zNumber zOptString andThen ok].
    destruct b; cbn in *; subst; reflexivity.
Qed.

Lemma props_of_similarBirdToJson (b : SimilarBird) :
  let entry := Some (similarBirdToJson b) in
  prop entry "name" = inr (Some (JStr (sb_name b)))
  /\ prop entry "scientificName" = inr (Some (JStr (sb_scientificName b)))
  /\ prop entry "confidence" = inr (Some (JNum (sb_confidence b))).
Proof. cbv zeta. repeat split; reflexivity. Qed.

Lemma reread_similarBird (b : SimilarBird) :
  normalSimilar b ->
  exists raw,
    readSimilarBird StringToNumber ArrayToString (similarBirdToJson b) = inr raw
    /\ similarBirdSchema raw = inr b.
Proof.
  intros (Hname & Hsci & Hconf & Hurl).
  destruct (props_of_similarBirdToJson b) as (P1 & P2 & P3). cbv zeta in *.
  eexists. split.
  - unfold readSimilarBird. rewrite P1, P2, P3. cbn [andThen]. reflexivity.
  - unfold similarBirdSchema.
    cbn [raw_sb_name raw_sb_scientificName raw_sb_confidence].
    rewrite (or_else_text _ _ Hname), (or_else_text _ _ Hsci).
    rewrite (clampConfidence_in_range _ Hconf).
    destruct Hconf as (k & _ & Hk). rewrite Hk.
    cbn [zString zNumber andThen ok].
    destruct b; cbn in *; subst; reflexivity.
Qed.

Lemma reread_similarBirds (similar : list SimilarBird) :
  Forall normalSimilar similar ->
  exists raws,
    mapT (readSimilarBird StringToNumber ArrayToString)
         (similarBirdToJson <$> similar) = inr raws
    /\ mapT similarBirdSchema raws = inr similar.
Proof.
  induction 1 as [|b similar Hb _ (raws & Hread & Hschema)].
  - exists []. split; reflexivity.
  - destruct (reread_similarBird b Hb) as (raw & Hraw & Hz).
    exists (raw :: raws). split.
    + cbn [fmap list_fmap mapT]. rewrite Hraw. cbn [andThen].
      change (list_fmap _ _ similarBirdToJson similar)
        with (similarBirdToJson <$> similar).
      rewrite Hread. reflexivity.
    + cbn [mapT]. rewrite Hz. cbn [andThen]. rewrite Hschema. reflexivity.
Qed.

(** A normalised result, read back as a response, is accepted and comes
    out unchanged but for the image reference, which is that of the
    second call. *)
Lemma renormalize (img : option string) (r : IdentificationResult) :
  normalResult r ->
  tryBlock img (resultToJson r)
  = inr {| mainBird := mainBird r; similarBirds := similarBirds r;
           originalImage := originalImageOf img |}.
Proof.
  intros (Hbird & similar & Hsimilar & Hall).
  destruct (reread_bird (mainBird r) Hbird) as (raw & Hraw & Hz).
  destruct (reread_similarBirds similar Hall) as (raws & Hraws & Hzs).
  destruct (props_of_birdToJson (mainBird r)) as (Pname & _). cbv zeta in Pname.
  destruct Hbird as (Hname & _).
  unfold Gemini.tryBlock, resultToJson. rewrite Hsimilar.
  cbn [optObj app prop lookup_field String.eqb Ascii.eqb Bool.eqb andThen ok truthy].
  unfold missingMainBird.
  assert (Htruthy : truthy (Some (birdToJson (mainBird r))) = true) by reflexivity.
  rewrite Htruthy, Pname. cbn [andThen ok truthy].
  rewrite bool_decide_eq_false_2 by exact Hname. cbn [negb].
  rewrite Hraw. cbn [andThen]. rewrite Hraws. cbn [andThen].
  unfold identificationResultSchema.
  cbn [raw_mainBird raw_similarBirds raw_originalImage].
  rewrite Hz. cbn [andThen]. rewrite Hzs. reflexivity.
Qed.

(** C9: feeding the result of an accepted response back into the
    normaliser (with any image) is accepted again, and the confidence
    of the primary bird and of every similar bird comes out as it went
    in: an integer within 1..100.  The bird entries as a whole are
    unchanged. *)
Theorem renormalizing_keeps_confidence (img img' : option string) (resp : json)
    (r : IdentificationResult) :
  normalizeResponse img resp = inr r ->
  exists r',
    normalizeResponse img' (resultToJson r) = inr r'
    /\ confidence (mainBird r') = confidence (mainBird r)
    /\ inRange (confidence (mainBird r))
    /\ (exists similar,
          similarBirds r = Some similar
          /\ similarBirds r' = Some similar
          /\ Forall (fun b => inRange (sb_confidence b)) similar)
    /\ mainBird r' = mainBird r.
Proof.
  intros Hr. unfold Gemini.normalizeResponse in Hr.
  destruct (tryBlock img resp) as [e|r0] eqn:Htry; [discriminate|].
  injection Hr as ->.
  pose proof (accepted_is_normal img resp r Htry) as Hnormal.
  pose proof (renormalize img' r Hnormal) as Hagain.
  eexists. unfold Gemini.normalizeResponse. rewrite Hagain.
  split; [reflexivity|]. cbn [mainBird similarBirds].
  destruct Hnormal as (Hbird & similar & Hsimilar & Hall).
  split; [reflexivity|].
  split; [exact (proj1 (proj2 (proj2 Hbird)))|].
  split; [|reflexivity].
  exists similar. split; [exact Hsimilar|]. split; [exact Hsimilar|].
  eapply Forall_impl; [exact Hall|].
  intros b Hb. exact (proj1 (proj2 (proj2 Hb))).
Qed.

End NormalizerProperties.

(** ** The normaliser on concrete responses *)

Section NormalizerInstances.
Import Js Schema Gemini NormalizerSpec.

Lemma confidence_rounded_then_clamped_witness :
  exists r,
    normalizeResponse noNumeral noElements None robinAndWren = inr r
    /\ roundedThenClamped (Fin (175 # 2)) (confidence (mainBird r))
    /\ confidence (mainBird r) = Fin 88
    /\ similarBirds r
       = Some [{| sb_name := "Wren"; sb_scientificName := "Unknown Species";
                  sb_confidence := Fin 1; sb_imageUrl := None |}].
Proof.
  destruct (normalizeResponse noNumeral noElements None robinAndWren)
    as [e|r] eqn:Hr; [vm_compute in Hr; discriminate|].
  exists r. split; [reflexivity|].
  destruct (proj1 (confidence_rounded_then_clamped noNumeral noElements None)
                  robinAndWren r Hr) as (Hmain & _).
  split; [exact Hmain|].
  vm_compute in Hr. injection Hr as <-. split; reflexivity.
Defined.

Lemma error_flag_rejected_with_parse_failure_witness :
  errorFlag noBirdVisible = true
  /\ tryBlock noNumeral noElements None noBirdVisible
     = inl (ErrorWith (JStr "No bird is visible in the image"))
  /\ normalizeResponse noNumeral noElements None noBirdVisible
     = inl (Error "Failed to parse identification result from Gemini API").
Proof.
  assert (Hflag : errorFlag noBirdVisible = true) by reflexivity.
  split; [exact Hflag|].
  exact (error_flag_rejected_with_parse_failure noNumeral noElements None
           noBirdVisible Hflag).
Defined.

Lemma missing_name_rejected_with_parse_failure_witness :
  errorFlag namelessBird = false
  /\ namedMainBird namelessBird = false
  /\ tryBlock noNumeral noElements None namelessBird
     = inl (ErrorWith
              (JStr "The API response did not contain valid bird identification data"))
  /\ normalizeResponse noNumeral noElements None namelessBird
     = inl (Error "Failed to parse identification result from Gemini API").
Proof.
  assert (Hflag : errorFlag namelessBird = false) by reflexivity.
  assert (Hname : namedMainBird namelessBird = false) by reflexivity.
  destruct (missing_name_rejected_with_parse_failure noNumeral noElements None
              namelessBird Hflag Hname) as (Htry & Hnorm).
  split; [exact Hflag|]. split; [exact Hname|].
  split; [apply Htry; discriminate|exact Hnorm].
Defined.

(** C8, as stated, fails: a response whose features are the empty list
    is accepted, whatever the coercions are, and its result has no
    feature. *)
Lemma empty_features_accepted :
  (forall s2n a2s,
      features ∘ mainBird
        <$> accepted (normalizeResponse s2n a2s None robinWithoutFeatures)
      = Some [])
  /\ ~ (forall s2n a2s img resp r,
          normalizeResponse s2n a2s img resp = inr r ->
          features (mainBird r) <> []).
Proof.
  split; [reflexivity|].
  intros Hclaim.
  refine (Hclaim noNumeral noElements None robinWithoutFeatures _ eq_refl _).
  reflexivity.
Qed.

Lemma features_follow_the_response_witness :
  exists r,
    normalizeResponse noNumeral noElements None (robinWith 150) = inr r
    /\ features (mainBird r) = ["No features available"]
    /\ features (mainBird r) <> [].
Proof.
  destruct (normalizeResponse noNumeral noElements None (robinWith 150))
    as [e|r] eqn:Hr; [vm_compute in Hr; discriminate|].
  exists r. split; [reflexivity|].
  destruct (features_follow_the_response noNumeral noElements None
              (robinWith 150) r Hr) as ((_ & Hdefault) & Hempty).
  split; [exact Hdefault|].
  intros Hnone. apply Hempty in Hnone. discriminate.
Defined.

Lemma renormalizing_keeps_confidence_witness :
  exists r r',
    normalizeResponse noNumeral noElements None robinAndWren = inr r
    /\ normalizeResponse noNumeral noElements None (resultToJson r) = inr r'
    /\ confidence (mainBird r) = Fin 88
    /\ confidence (mainBird r') = Fin 88.
Proof.
  destruct (normalizeResponse noNumeral noElements None robinAndWren)
    as [e|r] eqn:Hr; [vm_compute in Hr; discriminate|].
  destruct (renormalizing_keeps_confidence noNumeral noElements None None
              robinAndWren r Hr) as (r' & Hr' & Hsame & _).
  exists r, r'. split; [reflexivity|]. split; [exact Hr'|].
  assert (Hc : confidence (mainBird r) = Fin 88).
  { vm_compute in Hr. injection Hr as <-. reflexivity. }
  split; [exact Hc|]. rewrite Hsame. exact Hc.
Defined.

End NormalizerInstances.

(** * Further properties of the usage ledger *)

Section LedgerNumbering.
Import Schema Storage Spec Ledger.
Local Open Scope storage_scope.
Context {Day : Type} `{EqDecision Day}.
Variable toDateString : Z -> Day.

Lemma sameShape_refl (s : MemStorage) : sameShape s s.
Proof. repeat split; reflexivity. Qed.

Lemma sameShape_trans (s1 s2 s3 : MemStorage) :
  sameShape s1 s2 -> sameShape s2 s3 -> sameShape s1 s3.
Proof.
  intros (H1 & H2 & H3 & H4) (K1 & K2 & K3 & K4).
  repeat split; congruence.
Qed.

Lemma keepsShape_ret {A} (a : A) : keepsShape (ret a).
Proof. intros w. split; [apply sameShape_refl|reflexivity]. Qed.

Lemma keepsShape_throw {A} (e : Error) : keepsShape (@throw A e).
Proof. intros w. split; [apply sameShape_refl|reflexivity]. Qed.

Lemma keepsShape_getMem : keepsShape getMem.
Proof. intros w. split; [apply sameShape_refl|reflexivity]. Qed.

Lemma keepsShape_newDate : keepsShape newDate.
Proof. intros w. split; [apply sameShape_refl|reflexivity]. Qed.

Lemma keepsShape_bind {A B} (c : M A) (k : A -> M B) :
  keepsShape c -> (forall a, keepsShape (k a)) -> keepsShape (bind c k).
Proof.
  intros Hc Hk w. unfold bind.
  destruct (Hc w) as (Hshape & Hclock).
  destruct (c w) as [[e|a] w1]; cbn [snd] in *.
  - split; assumption.
  - destruct (Hk a w1) as (Hshape' & Hclock'). split.
    + eapply sameShape_trans; eassumption.
    + congruence.
Qed.

Lemma keepsShape_getUser (id : Z) : keepsShape (getUser id).
Proof.
  unfold getUser. apply keepsShape_bind; [apply keepsShape_getMem|].
  intros s. apply keepsShape_ret.
Qed.

Lemma keepsShape_updateUser (id : Z) (updates : PartialUser) :
  keepsShape (updateUser id updates).
Proof.
  intros w. unfold updateUser, bind, getMem. cbn [mem fst snd].
  destruct (users (mem w) !! id) as [u|] eqn:Hu.
  - cbn. split; [|reflexivity].
    split; [|repeat split; reflexivity]. cbn.
    rewrite dom_insert_L. apply elem_of_dom_2 in Hu.
    apply subseteq_union_1_L, singleton_subseteq_l, Hu.
  - split; [apply sameShape_refl|reflexivity].
Qed.

Lemma keepsShape_updateUserSubscription (id : Z) (plan : string) (endDate : option Z) :
  keepsShape (updateUserSubscription id plan endDate).
Proof.
  unfold updateUserSubscription.
  apply keepsShape_bind; [apply keepsShape_getUser|].
  intros [u|]; [apply keepsShape_updateUser|apply keepsShape_throw].
Qed.

Lemma keepsShape_reset (id : Z) : keepsShape (resetDailyIdentificationCount id).
Proof.
  unfold resetDailyIdentificationCount.
  apply keepsShape_bind; [apply keepsShape_newDate|]. intros now.
  apply keepsShape_bind; [apply keepsShape_updateUser|]. intros _.
  apply keepsShape_ret.
Qed.

Lemma keepsShape_isNewDay (u : User) : keepsShape (isNewDay toDateString u).
Proof.
  unfold isNewDay. destruct (lastIdentificationDate u); [|apply keepsShape_ret].
  apply keepsShape_bind; [apply keepsShape_newDate|]. intros now.
  apply keepsShape_ret.
Qed.

Lemma keepsShape_check (id : Z) :
  keepsShape (checkDailyIdentificationLimit toDateString id).
Proof.
  unfold checkDailyIdentificationLimit.
  apply keepsShape_bind; [apply keepsShape_getUser|].
  intros [u|]; [|apply keepsShape_throw].
  apply keepsShape_bind; [apply keepsShape_isNewDay|].
  intros [|]; [|apply keepsShape_ret].
  apply keepsShape_bind; [apply keepsShape_reset|]. intros _. apply keepsShape_ret.
Qed.

Lemma keepsShape_increment (id : Z) :
  keepsShape (incrementDailyIdentificationCount toDateString id).
Proof.
  unfold incrementDailyIdentificationCount.
  apply keepsShape_bind; [apply keepsShape_getUser|].
  intros [u|]; [|apply keepsShape_throw].
  apply keepsShape_bind; [apply keepsShape_isNewDay|]. intros newDay.
  apply keepsShape_bind; [apply keepsShape_newDate|]. intros now.
  apply keepsShape_bind; [apply keepsShape_updateUser|]. intros _.
  apply keepsShape_ret.
Qed.

Lemma wellNumbered_sameShape (s s' : MemStorage) :
  wellNumbered s -> sameShape s s' -> wellNumbered s'.
Proof.
  intros [Hc Hu Hn Ha Ho] (Hdom & Hids & Hcu & Hci).
  assert (Hsome : forall k, is_Some (users s' !! k) <-> is_Some (users s !! k)).
  { intros k. rewrite <- !elem_of_dom, Hdom. reflexivity. }
  split.
  - rewrite Hcu, Hci. exact Hc.
  - intros k Hk. rewrite Hcu. apply Hu, Hsome, Hk.
  - rewrite Hids, Hci. exact Hn.
  - rewrite Hids. exact Ha.
  - rewrite Hids. eapply Forall_impl; [exact Ho|].
    intros kv Hkv owner Howner. apply Hsome, Hkv, Howner.
Qed.

Lemma wellNumbered_empty : wellNumbered Storage.empty.
Proof.
  split; cbn.
  - lia.
  - intros k [u Hu]. rewrite lookup_empty in Hu. discriminate.
  - constructor.
  - constructor.
  - constructor.
Qed.

Lemma map_set_fresh {V} (k : Z) (v : V) (m : list (Z * V)) :
  Forall (fun kv => kv.1 < k) m -> map_set k v m = (m ++ [(k, v)])%list.
Proof.
  induction 1 as [|[k' v'] m Hk _ IH]; [reflexivity|].
  cbn [map_set app]. cbn in Hk.
  rewrite bool_decide_eq_false_2 by lia. rewrite IH. reflexivity.
Qed.

Lemma map_get_app_fresh {V} (k k' : Z) (v : V) (m : list (Z * V)) :
  k' <> k -> map_get k' (m ++ [(k, v)])%list = map_get k' m.
Proof.
  intros Hne. induction m as [|[k0 v0] m IH]; cbn.
  - rewrite bool_decide_eq_false_2 by congruence. reflexivity.
  - destruct (bool_decide (k0 = k')); [reflexivity|exact IH].
Qed.

Lemma StronglySorted_snoc {A} (R : A -> A -> Prop) (l : list A) (a : A) :
  StronglySorted R l -> Forall (fun x => R x a) l ->
  StronglySorted R (l ++ [a]).
Proof.
  induction 1 as [|x l Hl IH Hx]; intros Ha; cbn.
  - repeat constructor.
  - inversion Ha as [|? ? Hxa Hla]; subst. constructor; [apply IH, Hla|].
    apply Forall_app. split; [exact Hx|]. constructor; [exact Hxa|constructor].
Qed.

Lemma createUser_run (w : World) (insertUser : InsertUser) :
  let id := userIdCounter (mem w) in
  let user :=
    {| id := id; username := ins_username insertUser;
       password := ins_password insertUser; email := None;
       subscriptionPlan := "free"; subscriptionEndDate := None;
       stripeCustomerId := None; stripeSubscriptionId := None;
       dailyIdentificationsCount := Some 0; lastIdentificationDate := None |} in
  createUser insertUser w
  = (inr user,
     {| mem := {| users := <[id := user]> (users (mem w));
                  identifications := identifications (mem w);
                  userIdCounter := id + 1;
                  identificationIdCounter := identificationIdCounter (mem w) |};
        clock := clock w; tick := tick w |}).
Proof. reflexivity. Qed.

Lemma wellNumbered_createUser (w : World) (insertUser : InsertUser) :
  wellNumbered (mem w) -> wellNumbered (mem (snd (createUser insertUser w))).
Proof.
  intros [Hc Hu Hn Ha Ho]. rewrite createUser_run. cbn [snd mem]. split; cbn.
  - lia.
  - intros k Hk. rewrite lookup_insert_is_Some in Hk.
    destruct Hk as [<-|[_ Hk]]; [lia|]. specialize (Hu k Hk). lia.
  - exact Hn.
  - exact Ha.
  - eapply Forall_impl; [exact Ho|]. intros kv Hkv owner Howner.
    rewrite lookup_insert_is_Some'. right. apply Hkv, Howner.
Qed.

Lemma increment_returns_for_stored (w w2 : World) (userId n : Z) :
  incrementDailyIdentificationCount toDateString userId w = (inr n, w2) ->
  is_Some (users (mem w) !! userId).
Proof.
  intros Hrun. destruct (users (mem w) !! userId) as [u|] eqn:Hu; [eauto|].
  rewrite (increment_missing toDateString w userId Hu) in Hrun. discriminate.
Qed.

Lemma wellNumbered_createIdentification (w : World) (ins : InsertBirdIdentification) :
  wellNumbered (mem w) ->
  wellNumbered (mem (snd (createIdentification toDateString ins w))).
Proof.
  intros Hw. rewrite createIdentification_run.
  set (id := identificationIdCounter (mem w)).
  set (w1 := {| mem := _; clock := clock w; tick := S (tick w) |}).
  set (record := {| bi_id := id |}).
  assert (Hw1 : wellNumbered (mem w1)).
  { destruct Hw as [Hc Hu Hn Ha Ho]. split; cbn; try assumption.
    - fold id. lia.
    - eapply Forall_impl; [exact Hn|]. cbn. fold id. intros kv ?. lia. }
  assert (Hstore : forall w2,
             sameShape (mem w1) (mem w2) ->
             (forall owner, bi_userId record = Some owner ->
                            is_Some (users (mem w1) !! owner)) ->
             wellNumbered
               (setIdentifications
                  (map_set id record (identifications (mem w2))) (mem w2))).
  { intros w2 Hshape Howner.
    pose proof (wellNumbered_sameShape _ _ Hw1 Hshape) as [Hc Hu Hn Ha Ho].
    destruct Hshape as (Hdom & Hids & Hcu & Hci).
    assert (Hbelow : Forall (fun kv => kv.1 < id) (identifications (mem w2))).
    { rewrite Hids. cbn. destruct Hw as [_ _ Hn0 _ _].
      eapply Forall_impl; [exact Hn0|]. cbn. fold id. intros kv ?. lia. }
    rewrite (map_set_fresh _ _ _ Hbelow). split; cbn.
    - exact Hc.
    - exact Hu.
    - apply Forall_app. split; [exact Hn|]. constructor; [|constructor].
      cbn. rewrite Hci. cbn. fold id. destruct Hw as [[_ Hpos] _ _ _ _].
      fold id in Hpos. split; [lia|reflexivity].
    - rewrite fmap_app. cbn. apply StronglySorted_snoc; [exact Ha|].
      apply Forall_fmap. exact Hbelow.
    - apply Forall_app. split; [exact Ho|]. constructor; [|constructor].
      cbn [snd]. intros owner Hown.
      rewrite <- elem_of_dom, Hdom, elem_of_dom. apply Howner, Hown. }
  destruct (or_null (ibi_userId ins)) as [userId|] eqn:Howner.
  - destruct (incrementDailyIdentificationCount toDateString userId w1)
      as [[e|n] w2] eqn:Hrun.
    + cbn [snd]. eapply wellNumbered_sameShape; [exact Hw1|].
      pose proof (keepsShape_increment userId w1) as [Hshape _].
      rewrite Hrun in Hshape. exact Hshape.
    + cbn [snd mem]. apply Hstore.
      * pose proof (keepsShape_increment userId w1) as [Hshape _].
        rewrite Hrun in Hshape. exact Hshape.
      * intros owner [= <-].
        exact (increment_returns_for_stored _ _ _ _ Hrun).
  - cbn [snd mem]. apply Hstore; [apply sameShape_refl|]. discriminate.
Qed.

Lemma snd_ignore {A} (c : M A) (w : World) : snd (ignore c w) = snd (c w).
Proof. unfold ignore, bind, ret. destruct (c w) as [[e|a] w']; reflexivity. Qed.

Lemma wellNumbered_keepsShape {A} (c : M A) (w : World) :
  keepsShape c -> wellNumbered (mem w) -> wellNumbered (mem (snd (c w))).
Proof.
  intros Hc Hw. eapply wellNumbered_sameShape; [exact Hw|]. apply Hc.
Qed.

Lemma keepsShape_getRecentIdentifications (userId : option Z) (lim : Z) :
  keepsShape (getRecentIdentifications userId lim).
Proof.
  unfold getRecentIdentifications.
  apply keepsShape_bind; [apply keepsShape_getMem|]. intros s.
  destruct userId; [|apply keepsShape_ret].
  apply keepsShape_bind; [apply keepsShape_getUser|]. intros u.
  apply keepsShape_ret.
Qed.

Lemma wellNumbered_perform (w : World) (c : Call) :
  wellNumbered (mem w) -> wellNumbered (mem (perform toDateString w c)).
Proof.
  intros Hw. unfold perform.
  destruct c; rewrite snd_ignore.
  - apply wellNumbered_keepsShape; [apply keepsShape_getUser|exact Hw].
  - apply wellNumbered_createUser, Hw.
  - apply wellNumbered_keepsShape; [apply keepsShape_updateUser|exact Hw].
  - apply wellNumbered_keepsShape; [apply keepsShape_updateUserSubscription|exact Hw].
  - apply wellNumbered_keepsShape; [apply keepsShape_updateUser|exact Hw].
  - apply wellNumbered_keepsShape; [apply keepsShape_updateUser|exact Hw].
  - apply wellNumbered_keepsShape; [apply keepsShape_check|exact Hw].
  - apply wellNumbered_keepsShape; [apply keepsShape_increment|exact Hw].
  - apply wellNumbered_keepsShape; [apply keepsShape_reset|exact Hw].
  - apply wellNumbered_createIdentification, Hw.
  - exact Hw.
  - apply wellNumbered_keepsShape;
      [apply keepsShape_getRecentIdentifications|exact Hw].
  - exact Hw.
Qed.

Lemma wellNumbered_calls (calls : list Call) (w : World) :
  wellNumbered (mem w) -> wellNumbered (mem (foldl (perform toDateString) w calls)).
Proof.
  revert w. induction calls as [|c calls IH]; intros w Hw; [exact Hw|].
  cbn [foldl]. apply IH, wellNumbered_perform, Hw.
Qed.

(** X1: whatever sequence of user and identification methods is called
    on a new storage, returning or throwing, the numbering is kept:
    user keys lie in [1, userIdCounter), identification keys ascend in
    storage order within [1, identificationIdCounter) and are the ids
    of their records, and every identification is without owner or
    owned by a stored user. *)
Theorem calls_keep_numbering (clock : nat -> Z) (calls : list Call) :
  wellNumbered (mem (afterCalls toDateString clock calls)).
Proof. apply wellNumbered_calls. exact wellNumbered_empty. Qed.

End LedgerNumbering.

Section LedgerCalls.
Import Schema Storage Spec Ledger.
Local Open Scope storage_scope.
Context {Day : Type} `{EqDecision Day}.
Variable toDateString : Z -> Day.

(** X2: on a well-numbered storage [createUser] never fails and never
    replaces a user: the id it draws is unused, the new row (free plan,
    count 0, no date) is what [getUser] returns for it afterwards,
    every other user and all identifications are as before.  It does
    not look at the user name, so a name that is taken is accepted. *)
Theorem createUser_registers_new_user (w : World) (insertUser : InsertUser) :
  wellNumbered (mem w) ->
  let newId := userIdCounter (mem w) in
  let r := createUser insertUser w in
  let user :=
    {| id := newId; username := ins_username insertUser;
       password := ins_password insertUser; email := None;
       subscriptionPlan := "free"; subscriptionEndDate := None;
       stripeCustomerId := None; stripeSubscriptionId := None;
       dailyIdentificationsCount := Some 0; lastIdentificationDate := None |} in
  users (mem w) !! newId = None
  /\ returned r = Some user
  /\ returned (getUser newId (after r)) = Some (Some user)
  /\ (forall k, k <> newId -> users (mem (after r)) !! k = users (mem w) !! k)
  /\ identifications (mem (after r)) = identifications (mem w)
  /\ userIdCounter (mem (after r)) = newId + 1.
Proof.
  intros [_ Hu _ _ _] newId r user. subst r. rewrite createUser_run.
  unfold after, returned. cbn [fst snd mem users identifications userIdCounter].
  split.
  - destruct (users (mem w) !! newId) as [u|] eqn:Hnew; [|reflexivity].
    specialize (Hu newId (ex_intro _ u Hnew)). unfold newId in Hu. lia.
  - split; [reflexivity|]. split.
    + unfold getUser, bind, getMem, ret. cbn. rewrite lookup_insert_eq. reflexivity.
    + split; [|split; reflexivity].
      intros k Hk. apply lookup_insert_ne.
      intros Heq. apply Hk. symmetry. exact Heq.
Qed.

(** X3: every method that works on one user throws the not-found error
    for an id that is not stored, and then leaves the storage as it
    was: it never creates the user. *)
Theorem missing_user_is_not_created (w : World) (userId : Z) :
  users (mem w) !! userId = None ->
  (forall updates, notFoundUnchanged userId w (updateUser userId updates w))
  /\ (forall plan endDate,
        notFoundUnchanged userId w (updateUserSubscription userId plan endDate w))
  /\ (forall customer,
        notFoundUnchanged userId w (updateStripeCustomerId userId customer w))
  /\ (forall info,
        notFoundUnchanged userId w (updateUserStripeInfo userId info w))
  /\ notFoundUnchanged userId w (checkDailyIdentificationLimit toDateString userId w)
  /\ notFoundUnchanged userId w
       (incrementDailyIdentificationCount toDateString userId w)
  /\ notFoundUnchanged userId w (resetDailyIdentificationCount userId w).
Proof.
  intros Hu. unfold notFoundUnchanged.
  assert (Hup : forall updates w',
             mem w' = mem w ->
             fst (updateUser userId updates w') = inl (UserNotFound userId)
             /\ mem (snd (updateUser userId updates w')) = mem w).
  { intros updates w' Hmem. rewrite updateUser_missing by (rewrite Hmem; exact Hu).
    split; [reflexivity|exact Hmem]. }
  split; [intros updates; apply Hup; reflexivity|].
  split.
  { intros plan endDate. unfold updateUserSubscription, bind.
    rewrite getUser_run, Hu. split; reflexivity. }
  split; [intros customer; apply Hup; reflexivity|].
  split; [intros info; apply Hup; reflexivity|].
  split.
  { unfold checkDailyIdentificationLimit, bind. rewrite getUser_run, Hu.
    split; reflexivity. }
  split.
  { rewrite (increment_missing toDateString w userId Hu). split; reflexivity. }
  unfold resetDailyIdentificationCount, bind, newDate.
  destruct (Hup (dailyUpdate 0 (clock w (tick w)))
                {| mem := mem w; clock := clock w; tick := S (tick w) |} eq_refl)
    as (Hfst & Hsnd).
  destruct (updateUser userId _ _) as [[e|a] w'] eqn:Hrun; cbn in *.
  - split; [congruence|exact Hsnd].
  - discriminate.
Qed.

Lemma updateUserSubscription_run (w : World) (userId : Z) (u : User)
    (plan : string) (endDate : option Z) :
  users (mem w) !! userId = Some u ->
  let u1 := spread u (subscriptionUpdate plan endDate) in
  updateUserSubscription userId plan endDate w
  = (inr u1, {| mem := setUsers (<[userId := u1]> (users (mem w))) (mem w);
                clock := clock w; tick := tick w |}).
Proof.
  intros Hu. unfold updateUserSubscription, bind. rewrite getUser_run, Hu.
  apply (updateUser_run w userId u _ Hu).
Qed.

(** X4: a change of plan keeps the daily count and the stored date and
    takes effect at once.  When the stored date is today, the check that
    follows answers for the new plan with the old count: on premium it
    is within the limit whatever the count, sentinel -1; on any other
    plan it is within the limit exactly when the count is below 5. *)
Theorem plan_change_takes_effect_at_once (w : World) (userId : Z) (u : User)
    (plan : string) (endDate : option Z) (last : Z) :
  users (mem w) !! userId = Some u ->
  lastIdentificationDate u = Some last ->
  toDateString (clock w (tick w)) = toDateString last ->
  let count := or_zero (dailyIdentificationsCount u) in
  let w1 := after (updateUserSubscription userId plan endDate w) in
  (exists u1,
      users (mem w1) !! userId = Some u1
      /\ subscriptionPlan u1 = plan
      /\ subscriptionEndDate u1 = endDate
      /\ dailyIdentificationsCount u1 = dailyIdentificationsCount u
      /\ lastIdentificationDate u1 = lastIdentificationDate u)
  /\ returned (checkDailyIdentificationLimit toDateString userId w1)
     = Some (if bool_decide (plan = "premium")
             then {| withinLimit := true; current := count; limit := -1 |}
             else {| withinLimit := count <? 5; current := count; limit := 5 |}).
Proof.
  intros Hu Hlast Hday count w1. subst w1.
  rewrite (updateUserSubscription_run w userId u plan endDate Hu).
  unfold after. cbn [snd].
  set (u1 := spread u (subscriptionUpdate plan endDate)).
  set (w1 := {| mem := _; clock := clock w; tick := tick w |}).
  assert (Hu1 : users (mem w1) !! userId = Some u1) by apply lookup_insert_eq.
  split.
  - exists u1. split; [exact Hu1|]. repeat split; reflexivity.
  - exact (check_sameDay toDateString w1 userId u1 last Hu1 Hlast Hday).
Qed.

(** X5: after [resetDailyIdentificationCount], a check on the same
    calendar day reports no use and is within the limit, with the limit
    of the user's plan. *)
Theorem reset_then_check (w : World) (userId : Z) (u : User) :
  users (mem w) !! userId = Some u ->
  toDateString (clock w (S (tick w))) = toDateString (clock w (tick w)) ->
  let w1 := after (resetDailyIdentificationCount userId w) in
  returned (resetDailyIdentificationCount userId w) = Some tt
  /\ returned (checkDailyIdentificationLimit toDateString userId w1)
     = Some {| withinLimit := true; current := 0;
               limit := if bool_decide (subscriptionPlan u = "premium")
                        then -1 else 5 |}.
Proof.
  intros Hu Hday w1. subst w1.
  unfold resetDailyIdentificationCount at 1 2, bind, newDate.
  rewrite (updateUser_run _ _ u) by exact Hu. unfold after, returned, ret.
  cbn [fst snd mem clock tick].
  split; [reflexivity|].
  set (u1 := spread u (dailyUpdate 0 (clock w (tick w)))).
  set (w1 := {| mem := _; clock := clock w; tick := S (tick w) |}).
  assert (Hu1 : users (mem w1) !! userId = Some u1) by apply lookup_insert_eq.
  pose proof (check_sameDay toDateString w1 userId u1 (clock w (tick w)) Hu1
                eq_refl Hday) as Hcheck.
  unfold returned in Hcheck. rewrite Hcheck. cbn.
  destruct (bool_decide (subscriptionPlan u = "premium")); reflexivity.
Qed.

(** The row after some increments of one day. *)
Lemma increments_sameDay_row (userId : Z) (d : Day) (n : nat) :
  forall (w : World) (u : User) (c last : Z),
    users (mem w) !! userId = Some u ->
    dailyIdentificationsCount u = Some c ->
    lastIdentificationDate u = Some last ->
    toDateString last = d ->
    readingsOnDay toDateString d w (2 * n) ->
    exists u',
      let w' := after (repeatM n (incrementDailyIdentificationCount toDateString userId) w) in
      users (mem w') !! userId = Some u'
      /\ dailyIdentificationsCount u' = Some (c + Z.of_nat n)
      /\ (exists last', lastIdentificationDate u' = Some last'
                        /\ toDateString last' = d)
      /\ subscriptionPlan u' = subscriptionPlan u
      /\ clock w' = clock w
      /\ tick w' = (tick w + 2 * n)%nat.
Proof.
  induction n as [|n IH]; intros w u c last Hu Hc Hlast Hd Hread.
  - exists u. cbn. split; [exact Hu|]. split; [rewrite Hc; f_equal; lia|].
    split; [exists last; split; assumption|]. split; [reflexivity|].
    split; [reflexivity|lia].
  - assert (Hnow : toDateString (clock w (tick w)) = toDateString last).
    { rewrite Hd. apply Hread. lia. }
    assert (Hstamp : toDateString (clock w (S (tick w))) = d).
    { apply Hread. lia. }
    pose proof (increment_sameDay toDateString w userId u last Hu Hlast Hnow) as Hstep.
    simpl in Hstep. rewrite Hc, or_zero_Some in Hstep.
    set (u1 := spread u (dailyUpdate (c + 1) (clock w (S (tick w))))) in *.
    set (w1 := {| mem := setUsers (<[userId := u1]> (users (mem w))) (mem w);
                  clock := clock w; tick := S (S (tick w)) |}) in *.
    destruct (IH w1 u1 (c + 1) (clock w (S (tick w))))
      as (u' & Hu' & Hc' & Hl' & Hp' & Hclock & Htick).
    + apply lookup_insert_eq.
    + reflexivity.
    + reflexivity.
    + exact Hstamp.
    + intros k Hk. apply (Hread k). simpl in Hk. lia.
    + exists u'. cbv zeta in *.
      assert (Hafter : after (repeatM (S n)
                                (incrementDailyIdentificationCount toDateString userId) w)
                       = after (repeatM n
                                  (incrementDailyIdentificationCount toDateString userId)
                                  w1)).
      { unfold after. cbn [repeatM]. unfold bind at 1. rewrite Hstep.
        unfold bind, ret.
        destruct (repeatM n _ w1) as [[e|l] w2]; reflexivity. }
      rewrite Hafter.
      split; [exact Hu'|]. split; [rewrite Hc'; f_equal; lia|].
      split; [exact Hl'|]. split; [exact Hp'|]. split; [exact Hclock|].
      rewrite Htick. simpl. lia.
Qed.

(** X6: the quota as the check sees it.  After [N >= 1] increments
    within one calendar day that began with a stored date of another
    day (or none), a check on that day reports [current = N]; a premium
    user is within the limit, any other user exactly when [N < 5]. *)
Theorem check_after_increments (w : World) (userId : Z) (u : User)
    (d : Day) (N : nat) :
  (1 <= N)%nat ->
  users (mem w) !! userId = Some u ->
  notOnDay toDateString d u ->
  readingsOnDay toDateString d w (readingsOfIncrements u N + 1) ->
  let w' := after (repeatM N (incrementDailyIdentificationCount toDateString userId) w) in
  returned (checkDailyIdentificationLimit toDateString userId w')
  = Some (if bool_decide (subscriptionPlan u = "premium")
          then {| withinLimit := true; current := Z.of_nat N; limit := -1 |}
          else {| withinLimit := Z.of_nat N <? 5; current := Z.of_nat N;
                  limit := 5 |}).
Proof.
  intros HN Hu Hnot Hread.
  destruct N as [|n]; [lia|].
  assert (Hreadings : readingsOfIncrements u (S n)
                      = (stampIndex w u - tick w + 1 + 2 * n)%nat).
  { unfold readingsOfIncrements, stampIndex.
    destruct (lastIdentificationDate u); lia. }
  rewrite Hreadings in Hread.
  assert (Hticks : (tick w <= stampIndex w u <= S (tick w))%nat).
  { unfold stampIndex. destruct (lastIdentificationDate u); lia. }
  assert (Hroll : rolledOver toDateString w u).
  { unfold rolledOver, notOnDay in *.
    destruct (lastIdentificationDate u) as [last|]; [|exact I].
    rewrite (Hread (tick w)) by lia. congruence. }
  pose proof (increment_rolledOver toDateString w userId u Hu Hroll) as Hstep.
  simpl in Hstep.
  set (stamp := clock w (stampIndex w u)) in *.
  set (u1 := spread u (dailyUpdate 1 stamp)) in *.
  set (w1 := {| mem := setUsers (<[userId := u1]> (users (mem w))) (mem w);
                clock := clock w; tick := S (stampIndex w u) |}) in *.
  destruct (increments_sameDay_row userId d n w1 u1 1 stamp)
    as (u' & Hu' & Hc' & (last' & Hl' & Hd') & Hp' & Hclock & Htick).
  - apply lookup_insert_eq.
  - reflexivity.
  - reflexivity.
  - apply Hread. lia.
  - intros k Hk. apply (Hread k). simpl in Hk. lia.
  - cbv zeta in *.
    assert (Hafter : after (repeatM (S n)
                              (incrementDailyIdentificationCount toDateString userId) w)
                     = after (repeatM n
                                (incrementDailyIdentificationCount toDateString userId)
                                w1)).
    { unfold after. cbn [repeatM]. unfold bind at 1. rewrite Hstep.
      unfold bind, ret.
      destruct (repeatM n _ w1) as [[e|l] w2]; reflexivity. }
    rewrite Hafter.
    set (w' := after (repeatM n _ w1)) in *.
    assert (Hday : toDateString (clock w' (tick w')) = toDateString last').
    { rewrite Hclock, Htick, Hd'. apply Hread. simpl. lia. }
    rewrite (check_sameDay toDateString w' userId u' last' Hu' Hl' Hday).
    rewrite Hc', or_zero_Some, Hp'.
    replace (1 + Z.of_nat n) with (Z.of_nat (S n)) by lia. reflexivity.
Qed.

Lemma map_get_below {V} (k : Z) (m : list (Z * V)) :
  Forall (fun kv => kv.1 < k) m -> map_get k m = None.
Proof.
  induction 1 as [|[k' v'] m Hk _ IH]; [reflexivity|].
  cbn in *. rewrite bool_decide_eq_false_2 by lia. exact IH.
Qed.

Lemma getIdentification_run (w : World) (k : Z) :
  getIdentification k w = (inr (map_get k (identifications (mem w))), w).
Proof. reflexivity. Qed.

Lemma getUserIdentificationCount_run (w : World) (userId : Z) :
  getUserIdentificationCount userId w
  = (inr (Z.of_nat (length (filter (fun i => bi_userId i = Some userId)
                                   (map_values (identifications (mem w)))))), w).
Proof. reflexivity. Qed.

Lemma createIdentification_stores (w : World) (ins : InsertBirdIdentification)
    (stored : BirdIdentification) :
  wellNumbered (mem w) ->
  fst (createIdentification toDateString ins w) = inr stored ->
  let newId := identificationIdCounter (mem w) in
  stored = {| bi_id := newId; bi_userId := or_null (ibi_userId ins);
              bi_imageUrl := ibi_imageUrl ins;
              bi_identifiedAt := clock w (tick w);
              bi_result := ibi_result ins |}
  /\ identifications (mem (snd (createIdentification toDateString ins w)))
     = (identifications (mem w) ++ [(newId, stored)])%list.
Proof.
  intros Hw. rewrite createIdentification_run.
  set (newId := identificationIdCounter (mem w)).
  set (w1 := {| mem := _; clock := clock w; tick := S (tick w) |}).
  set (record := {| bi_id := newId |}).
  assert (Hbelow : Forall (fun kv => kv.1 < newId) (identifications (mem w))).
  { destruct Hw as [_ _ Hn _ _]. eapply Forall_impl; [exact Hn|].
    cbn. fold newId. intros kv ?. lia. }
  destruct (or_null (ibi_userId ins)) as [userId|].
  - pose proof (keepsShape_increment toDateString userId w1) as [Hshape _].
    destruct (incrementDailyIdentificationCount toDateString userId w1)
      as [[e|n] w2]; cbn [fst snd]; [discriminate|].
    intros [= <-]. cbv zeta. split; [reflexivity|]. cbn [mem identifications setIdentifications].
    destruct Hshape as (_ & Hids & _). cbn [snd] in Hids. rewrite Hids.
    apply map_set_fresh. exact Hbelow.
  - cbn [fst snd]. intros [= <-]. cbv zeta. split; [reflexivity|].
    cbn [mem identifications setIdentifications].
    apply map_set_fresh. exact Hbelow.
Qed.

(** X7: on a well-numbered storage a successful [createIdentification]
    appends: the id of the new record was unused, the record goes to
    the end of the storage order, every older record is still returned
    by [getIdentification], and [getUserIdentificationCount] grows by
    one for the owner of the record and for nobody else. *)
Theorem createIdentification_appends (w : World) (ins : InsertBirdIdentification)
    (stored : BirdIdentification) :
  wellNumbered (mem w) ->
  returned (createIdentification toDateString ins w) = Some stored ->
  let w' := after (createIdentification toDateString ins w) in
  bi_id stored = identificationIdCounter (mem w)
  /\ returned (getIdentification (bi_id stored) w) = Some None
  /\ identifications (mem w')
     = (identifications (mem w) ++ [(bi_id stored, stored)])%list
  /\ returned (getIdentification (bi_id stored) w') = Some (Some stored)
  /\ (forall k, k <> bi_id stored ->
                returned (getIdentification k w') = returned (getIdentification k w))
  /\ (forall userId,
        exists n,
          returned (getUserIdentificationCount userId w) = Some n
          /\ returned (getUserIdentificationCount userId w')
             = Some (n + if bool_decide (bi_userId stored = Some userId)
                         then 1 else 0)).
Proof.
  intros Hw Hret w'. subst w'.
  assert (Hfst : fst (createIdentification toDateString ins w) = inr stored).
  { unfold returned in Hret.
    destruct (fst (createIdentification toDateString ins w)); congruence. }
  destruct (createIdentification_stores w ins stored Hw Hfst) as (Hstored & Hids).
  cbv zeta in *.
  assert (Hid : bi_id stored = identificationIdCounter (mem w)).
  { rewrite Hstored. reflexivity. }
  assert (Hbelow : Forall (fun kv => kv.1 < bi_id stored) (identifications (mem w))).
  { destruct Hw as [_ _ Hn _ _]. eapply Forall_impl; [exact Hn|].
    cbn. rewrite Hid. intros kv ?. lia. }
  rewrite <- Hid in Hids. unfold after.
  split; [exact Hid|]. split.
  { rewrite getIdentification_run. unfold returned. cbn [fst].
    rewrite (map_get_below _ _ Hbelow). reflexivity. }
  split; [exact Hids|]. split.
  { apply (getIdentification_stored _ _ _ (identifications (mem w))).
    rewrite (map_set_fresh _ _ _ Hbelow). exact Hids. }
  split.
  { intros k Hk. rewrite !getIdentification_run. unfold returned. cbn [fst].
    rewrite Hids, map_get_app_fresh by exact Hk. reflexivity. }
  intros userId. eexists. split; [reflexivity|].
  rewrite !getUserIdentificationCount_run. unfold returned. cbn [fst].
  rewrite Hids. unfold map_values. rewrite fmap_app, filter_app, length_app.
  cbn [fmap list_fmap snd]. rewrite filter_cons, filter_nil.
  f_equal. destruct (decide (bi_userId stored = Some userId)) as [Ho|Ho].
  - rewrite bool_decide_eq_true_2 by exact Ho. cbn. lia.
  - rewrite bool_decide_eq_false_2 by exact Ho. cbn. lia.
Qed.

Lemma newestFirst_take (n : nat) (l : list BirdIdentification) :
  newestFirst l -> newestFirst (take n l).
Proof.
  unfold newestFirst. intros Hl. revert n.
  induction Hl as [|x l Hl IH Hx]; intros [|n]; cbn; try constructor.
  - apply IH.
  - apply Forall_take. exact Hx.
Qed.

Lemma slice0_take {A} (l : list A) (e : Z) : exists n, slice0 l e = take n l.
Proof. unfold slice0. destruct (e <? 0); eexists; reflexivity. Qed.

(** X8: [getRecentIdentifications] for a user id never throws, whether
    the user is stored or not, and leaves the storage alone; what it
    returns is a front part of that user's own records put newest
    first: no record of another user or without owner is in it. *)
Theorem recent_identifications_are_own (w : World) (userId lim : Z) :
  exists shown,
    getRecentIdentifications (Some userId) lim w = (inr shown, w)
    /\ shown `prefix_of` sortNewestFirst (recordsOf userId w)
    /\ Forall (fun i => bi_userId i = Some userId) shown
    /\ newestFirst shown.
Proof.
  assert (Hrun : exists e,
             getRecentIdentifications (Some userId) lim w
             = (inr (slice0 (sortNewestFirst (recordsOf userId w)) e), w)).
  { unfold getRecentIdentifications, bind, getMem. rewrite getUser_run.
    eexists. reflexivity. }
  destruct Hrun as (e & Hrun).
  destruct (slice0_take (sortNewestFirst (recordsOf userId w)) e) as (n & Hn).
  rewrite Hn in Hrun. eexists. split; [exact Hrun|]. split.
  - exists (drop n (sortNewestFirst (recordsOf userId w))).
    symmetry. apply take_drop.
  - split.
    + apply Forall_take.
      rewrite sortNewestFirst_perm. unfold recordsOf.
      apply Forall_forall. intros i Hi. apply list_elem_of_filter in Hi.
      exact (proj1 Hi).
    + apply newestFirst_take, sortNewestFirst_sorted.
Qed.

(** X9: the free history cap.  For a stored user on any plan but
    premium and a non-negative limit, the query returns exactly
    [min(limit, 3, number of own records)] records. *)
Theorem free_history_cap_is_3 (w : World) (userId : Z) (u : User) (lim : Z) :
  users (mem w) !! userId = Some u ->
  subscriptionPlan u <> "premium" ->
  0 <= lim ->
  length <$> returned (getRecentIdentifications (Some userId) lim w)
  = Some (Nat.min (Z.to_nat (Z.min lim 3)) (length (recordsOf userId w))).
Proof.
  intros Hu Hplan Hlim.
  unfold getRecentIdentifications, bind, getMem. rewrite getUser_run, Hu.
  rewrite bool_decide_eq_false_2 by exact Hplan.
  unfold returned, ret. cbn [fst fmap option_fmap option_map]. f_equal.
  unfold slice0. destruct (Z.ltb_spec (Z.min lim 3) 0) as [Hneg|_]; [lia|].
  rewrite length_take, length_sortNewestFirst. reflexivity.
Qed.

End LedgerCalls.

Section LedgerCallsInstances.
Import Schema Storage Spec Ledger.

Lemma wellNumbered_freeWorld : wellNumbered (mem freeWorld).
Proof. apply wellNumbered_createUser. exact wellNumbered_empty. Qed.

Lemma createUser_registers_new_user_witness :
  wellNumbered (mem freeWorld)
  /\ (username <$> users (mem freeWorld) !! 1) = Some "robin"
  /\ (username <$> users (mem (after (createUser robin freeWorld))) !! 1)
     = Some "robin"
  /\ returned (getUser 2 (after (createUser robin freeWorld)))
     = Some (Some {| id := 2; username := "robin"; password := "secret";
                     email := None; subscriptionPlan := "free";
                     subscriptionEndDate := None; stripeCustomerId := None;
                     stripeSubscriptionId := None;
                     dailyIdentificationsCount := Some 0;
                     lastIdentificationDate := None |}).
Proof.
  pose proof wellNumbered_freeWorld as Hw.
  destruct (createUser_registers_new_user freeWorld robin Hw)
    as (_ & _ & Hget & Hother & _).
  split; [exact Hw|]. split; [reflexivity|].
  split.
  - rewrite (Hother 1) by discriminate. reflexivity.
  - exact Hget.
Defined.

Lemma missing_user_is_not_created_witness :
  users (mem (startWorld 0)) !! 7 = None
  /\ fst (incrementDailyIdentificationCount utcDay 7 (startWorld 0))
     = inl (UserNotFound 7)
  /\ fst (resetDailyIdentificationCount 7 (startWorld 0)) = inl (UserNotFound 7)
  /\ mem (snd (resetDailyIdentificationCount 7 (startWorld 0))) = Storage.empty.
Proof.
  assert (Hu : users (mem (startWorld 0)) !! 7 = None) by reflexivity.
  destruct (missing_user_is_not_created utcDay (startWorld 0) 7 Hu)
    as (_ & _ & _ & _ & _ & (Hincr & _) & (Hreset & Hmem)).
  split; [exact Hu|]. split; [exact Hincr|]. split; [exact Hreset|exact Hmem].
Defined.

Lemma plan_change_takes_effect_at_once_witness :
  users (mem exhaustedWorld) !! 1 = Some exhaustedRow
  /\ utcDay (clock exhaustedWorld (tick exhaustedWorld)) = utcDay 8000
  /\ returned (checkDailyIdentificationLimit utcDay 1 exhaustedWorld)
     = Some {| withinLimit := false; current := 5; limit := 5 |}
  /\ returned (checkDailyIdentificationLimit utcDay 1
                 (after (updateUserSubscription 1 "premium" None exhaustedWorld)))
     = Some {| withinLimit := true; current := 5; limit := -1 |}.
Proof.
  assert (Hu : users (mem exhaustedWorld) !! 1 = Some exhaustedRow)
    by (vm_compute; reflexivity).
  assert (Hday : utcDay (clock exhaustedWorld (tick exhaustedWorld)) = utcDay 8000)
    by (vm_compute; reflexivity).
  split; [exact Hu|]. split; [exact Hday|].
  split; [vm_compute; reflexivity|].
  exact (proj2 (plan_change_takes_effect_at_once utcDay exhaustedWorld 1 exhaustedRow
                  "premium" None 8000 Hu eq_refl Hday)).
Defined.

Lemma reset_then_check_witness :
  users (mem exhaustedWorld) !! 1 = Some exhaustedRow
  /\ returned (checkDailyIdentificationLimit utcDay 1
                 (after (resetDailyIdentificationCount 1 exhaustedWorld)))
     = Some {| withinLimit := true; current := 0; limit := 5 |}.
Proof.
  assert (Hu : users (mem exhaustedWorld) !! 1 = Some exhaustedRow)
    by (vm_compute; reflexivity).
  assert (Hday : utcDay (clock exhaustedWorld (S (tick exhaustedWorld)))
                 = utcDay (clock exhaustedWorld (tick exhaustedWorld)))
    by (vm_compute; reflexivity).
  split; [exact Hu|].
  exact (proj2 (reset_then_check utcDay exhaustedWorld 1 exhaustedRow Hu Hday)).
Defined.

Lemma check_after_increments_witness :
  (1 <= 5)%nat
  /\ users (mem staleWorld) !! 1 = Some staleRow
  /\ notOnDay utcDay 1 staleRow
  /\ readingsOnDay utcDay 1 staleWorld 11
  /\ returned (checkDailyIdentificationLimit utcDay 1
                 (after (repeatM 5 (incrementDailyIdentificationCount utcDay 1)
                                 staleWorld)))
     = Some {| withinLimit := false; current := 5; limit := 5 |}.
Proof.
  assert (HN : (1 <= 5)%nat) by lia.
  assert (Hu : users (mem staleWorld) !! 1 = Some staleRow) by (vm_compute; reflexivity).
  assert (Hnot : notOnDay utcDay 1 staleRow) by (vm_compute; discriminate).
  assert (Hread : readingsOnDay utcDay 1 staleWorld 11).
  { apply readings_of_day; [reflexivity | simpl; lia]. }
  repeat (split; [assumption|]).
  exact (check_after_increments utcDay staleWorld 1 staleRow 1 5 HN Hu Hnot Hread).
Defined.

Lemma createIdentification_appends_witness :
  wellNumbered (mem freeWorld)
  /\ (exists stored,
        returned (createIdentification utcDay byRobin freeWorld) = Some stored
        /\ bi_id stored = 1
        /\ returned (getUserIdentificationCount 1
                       (after (createIdentification utcDay byRobin freeWorld)))
           = Some 1).
Proof.
  pose proof wellNumbered_freeWorld as Hw.
  split; [exact Hw|].
  destruct (returned (createIdentification utcDay byRobin freeWorld))
    as [stored|] eqn:Hret; [|vm_compute in Hret; discriminate].
  exists stored. split; [reflexivity|].
  destruct (createIdentification_appends utcDay freeWorld byRobin stored Hw Hret)
    as (Hid & _ & _ & _ & _ & Hcount).
  split; [exact Hid|].
  destruct (Hcount 1) as (n & Hbefore & Hafter).
  rewrite Hafter. vm_compute in Hbefore. injection Hbefore as <-.
  vm_compute in Hret. injection Hret as <-. reflexivity.
Defined.

Lemma free_history_cap_is_3_witness :
  users (mem freeHistoryWorld) !! 1
  = Some {| id := 1; username := "robin"; password := "secret"; email := None;
            subscriptionPlan := "free"; subscriptionEndDate := None;
            stripeCustomerId := None; stripeSubscriptionId := None;
            dailyIdentificationsCount := Some 5;
            lastIdentificationDate := Some 13000 |}
  /\ length (recordsOf 1 freeHistoryWorld) = 5%nat
  /\ length <$> returned (getRecentIdentifications (Some 1) 10 freeHistoryWorld)
     = Some 3%nat.
Proof.
  assert (Hu : users (mem freeHistoryWorld) !! 1
               = Some {| id := 1; username := "robin"; password := "secret";
                         email := None; subscriptionPlan := "free";
                         subscriptionEndDate := None; stripeCustomerId := None;
                         stripeSubscriptionId := None;
                         dailyIdentificationsCount := Some 5;
                         lastIdentificationDate := Some 13000 |})
    by (vm_compute; reflexivity).
  assert (Hlen : length (recordsOf 1 freeHistoryWorld) = 5%nat)
    by (vm_compute; reflexivity).
  split; [exact Hu|]. split; [exact Hlen|].
  rewrite (free_history_cap_is_3 freeHistoryWorld 1 _ 10 Hu) by (discriminate || lia).
  rewrite Hlen. reflexivity.
Defined.

End LedgerCallsInstances.

(** * Further properties of the result normaliser *)

Section NormalizerFurther.
Import Js Schema Gemini NormalizerSpec NormalizerFields.
Local Open Scope try_scope.
Variable StringToNumber : string -> number.
Variable ArrayToString : list json -> string.

Local Abbreviation tryBlock := (Gemini.tryBlock StringToNumber ArrayToString).
Local Abbreviation normalizeResponse :=
  (Gemini.normalizeResponse StringToNumber ArrayToString).

Lemma accepted_tryBlock (img : option string) (resp : json)
    (r : IdentificationResult) :
  normalizeResponse img resp = inr r -> tryBlock img resp = inr r.
Proof.
  unfold Gemini.normalizeResponse.
  destruct (tryBlock img resp) as [e|r0]; [discriminate|]. intros [= ->]. reflexivity.
Qed.

(** X10: normalising is a projection.  The result of an accepted
    response, read back as a response together with the same image, is
    accepted and comes out as the very same result. *)
Theorem renormalizing_is_identity (img : option string) (resp : json)
    (r : IdentificationResult) :
  normalizeResponse img resp = inr r ->
  normalizeResponse img (resultToJson r) = inr r.
Proof.
  intros Hr. apply accepted_tryBlock in Hr.
  pose proof (accepted_is_normal StringToNumber ArrayToString img resp r Hr) as Hnormal.
  destruct (tryBlock_inr StringToNumber ArrayToString img resp r Hr)
    as (_ & _ & _ & _ & _ & _ & _ & _ & _ & _ & Himg).
  unfold Gemini.normalizeResponse.
  rewrite (renormalize StringToNumber ArrayToString img r Hnormal).
  rewrite <- Himg. destruct r; reflexivity.
Qed.

Lemma or_else_text_inr (v : value) (d s : string) :
  d <> "" ->
  zString (Some (or_else v (JStr d))) = inr s ->
  textOrFalsy v /\ s = textOr v d.
Proof.
  intros Hd. unfold textOrFalsy, textOr.
  destruct v as [[| b | n | s' | l | fields]|]; cbn [or_else truthy zString].
  - intros [= <-]. split; [left; reflexivity|reflexivity].
  - destruct b; [discriminate|]. intros [= <-]. split; [left; reflexivity|reflexivity].
  - destruct n as [| | |q]; try discriminate.
    + intros [= <-]. split; [left; reflexivity|reflexivity].
    + destruct (isZero q); cbn [negb]; [|discriminate].
      intros [= <-]. split; [left; reflexivity|reflexivity].
  - destruct (bool_decide (s' = "")); cbn [negb]; intros [= <-];
      (split; [right; eexists; reflexivity|reflexivity]).
  - discriminate.
  - discriminate.
  - intros [= <-]. split; [left; reflexivity|reflexivity].
Qed.

Lemma or_else_optText_inr (v : value) (d : string) (o : option string) :
  d <> "" ->
  zOptString (Some (or_else v (JStr d))) = inr o ->
  textOrFalsy v /\ o = Some (textOr v d).
Proof.
  intros Hd Ho.
  destruct (or_else v (JStr d)) as [| b | n | s | l | fields] eqn:Hv;
    try discriminate.
  injection Ho as <-.
  destruct (or_else_text_inr v d s Hd) as (Hv' & ->); [rewrite Hv; reflexivity|].
  split; [exact Hv'|reflexivity].
Qed.

(** X11: the texts of the primary bird.  In every accepted response
    the name is a non-empty string and is kept as it is; the scientific
    name, the description, the habitat and the sound are the given
    string, or their literal default when the given value is absent,
    empty or otherwise falsy; a truthy value that is not a string is
    never accepted.  No image URL is set. *)
Theorem main_bird_texts (img : option string) (resp : json)
    (r : IdentificationResult) :
  normalizeResponse img resp = inr r ->
  let given := field (field (Some resp) "mainBird") in
  let b := mainBird r in
  given "name" = Some (JStr (name b)) /\ name b <> ""
  /\ (textOrFalsy (given "scientificName")
      /\ scientificName b = textOr (given "scientificName") "Unknown Species")
  /\ (textOrFalsy (given "description")
      /\ description b = textOr (given "description") "No description available")
  /\ (textOrFalsy (given "habitat")
      /\ habitat b = Some (textOr (given "habitat") "Unknown habitat"))
  /\ (textOrFalsy (given "sound")
      /\ sound b = Some (textOr (given "sound") "Unknown sound"))
  /\ imageUrl b = None.
Proof.
  intros Hr given b. apply accepted_tryBlock in Hr.
  destruct (tryBlock_inr StringToNumber ArrayToString img resp r Hr)
    as (_ & Hnamed & main & _ & _ & Hmain & Hb & _).
  destruct (readMainBird_inr StringToNumber ArrayToString _ _ Hmain)
    as (Hname & Hsci & _ & Hdesc & _ & Hhab & Hsound).
  destruct (birdSchema_inr _ _ Hb)
    as (Zname & Zsci & _ & Zdesc & _ & Zhab & Zsound & Zurl & _).
  rewrite Hname in Zname. rewrite Hsci in Zsci. rewrite Hdesc in Zdesc.
  rewrite Hhab in Zhab. rewrite Hsound in Zsound.
  fold given in Zname, Zsci, Zdesc, Zhab, Zsound. fold b in Zname, Zsci, Zdesc, Zhab, Zsound, Zurl.
  assert (Htruthy : truthy (given "name") = true).
  { unfold namedMainBird in Hnamed. apply andb_true_iff in Hnamed.
    exact (proj2 Hnamed). }
  split; [|split].
  - destruct (or_else_text_inr _ "Unknown Bird" _ ltac:(discriminate) Zname) as ([Hf|(s & Hs)] & Heq).
    + congruence.
    + rewrite Hs in Heq, Htruthy |- *. cbn in Heq, Htruthy.
      destruct (bool_decide (s = "")); [discriminate|]. subst s. reflexivity.
  - eapply zString_or_else; [|exact Zname]. discriminate.
  - split; [exact (or_else_text_inr _ "Unknown Species" _ ltac:(discriminate) Zsci)|].
    split; [exact (or_else_text_inr _ "No description available" _ ltac:(discriminate) Zdesc)|].
    split; [exact (or_else_optText_inr _ "Unknown habitat" _ ltac:(discriminate) Zhab)|].
    split; [exact (or_else_optText_inr _ "Unknown sound" _ ltac:(discriminate) Zsound)|].
    exact Zurl.
Qed.


(** *** The optional groups *)

Ltac invert_chain H :=
  repeat (let v := fresh "v" in
          let Hv := fresh "Hv" in
          apply andThen_inr in H; destruct H as (v & Hv & H); cbv beta in H).

Lemma zOptString_inr (v : value) (o : option string) :
  zOptString v = inr o -> optText o = v.
Proof.
  destruct v as [[| b | n | s | l | fields]|]; cbn; try discriminate;
    intros [= <-]; reflexivity.
Qed.

Ltac read_group Hread Hschema :=
  match type of Hread with
  | context [truthy ?v] =>
      destruct (truthy v) eqn:Htruthy;
      [ invert_chain Hread; injection Hread as <-;
        cbn [zOptional] in Hschema; invert_chain Hschema; injection Hschema as <-;
        match goal with
        | Hs : _ ?raw = inr _ |- _ =>
            cbv delta [physicalCharacteristicsSchema habitatAndRangeSchema
                       migrationPatternsSchema seasonalVariationsSchema
                       birdSoundsSchema] in Hs;
            cbv beta in Hs; invert_chain Hs; injection Hs as <-
        end;
        repeat match goal with
               | Hp : prop v _ = inr _ |- _ => apply field_of_prop in Hp
               | Hz : zOptString _ = inr _ |- _ => apply zOptString_inr in Hz
               end;
        eexists; split; [reflexivity|]; cbn in *; subst;
        repeat split; assumption || reflexivity
      | injection Hread as <-; cbn [zOptional] in Hschema;
        injection Hschema as <-; reflexivity ]
  end.

Lemma physical_group (v : value) raw o :
  readPhysicalCharacteristics v = inr raw ->
  zOptional physicalCharacteristicsSchema raw = inr o -> physicalFrom v o.
Proof.
  unfold readPhysicalCharacteristics, physicalFrom. intros Hread Hschema.
  read_group Hread Hschema.
Qed.

Lemma habitat_group (v : value) raw o :
  readHabitatAndRange v = inr raw ->
  zOptional habitatAndRangeSchema raw = inr o -> habitatFrom v o.
Proof.
  unfold readHabitatAndRange, habitatFrom. intros Hread Hschema.
  read_group Hread Hschema.
Qed.

Lemma migration_group (v : value) raw o :
  readMigrationPatterns v = inr raw ->
  zOptional migrationPatternsSchema raw = inr o -> migrationFrom v o.
Proof.
  unfold readMigrationPatterns, migrationFrom. intros Hread Hschema.
  read_group Hread Hschema.
Qed.

Lemma seasonal_group (v : value) raw o :
  readSeasonalVariations v = inr raw ->
  zOptional seasonalVariationsSchema raw = inr o -> seasonalFrom v o.
Proof.
  unfold readSeasonalVariations, seasonalFrom. intros Hread Hschema.
  read_group Hread Hschema.
Qed.

Lemma sounds_group (v : value) raw o :
  readSounds v = inr raw ->
  zOptional birdSoundsSchema raw = inr o -> soundsFrom v o.
Proof.
  unfold readSounds, soundsFrom. intros Hread Hschema.
  read_group Hread Hschema.
Qed.

Lemma readMainBird_groups (mb : value) (main : RawBird) :
  readMainBird StringToNumber ArrayToString mb = inr main ->
  readPhysicalCharacteristics (field mb "physicalCharacteristics")
  = inr (raw_physicalCharacteristics main)
  /\ readHabitatAndRange (field mb "habitatAndRange")
     = inr (raw_habitatAndRange main)
  /\ readMigrationPatterns (field mb "migrationPatterns")
     = inr (raw_migrationPatterns main)
  /\ readSeasonalVariations (field mb "seasonalVariations")
     = inr (raw_seasonalVariations main)
  /\ readSounds (field mb "sounds") = inr (raw_sounds main).
Proof.
  unfold readMainBird. intros H. invert_chain H. injection H as <-.
  cbn [raw_physicalCharacteristics raw_habitatAndRange raw_migrationPatterns
       raw_seasonalVariations raw_sounds].
  repeat match goal with
         | Hp : prop mb _ = inr _ |- _ => apply field_of_prop in Hp; rewrite Hp; clear Hp
         end.
  repeat split; assumption.
Qed.

Lemma birdSchema_groups (main : RawBird) (b : Bird) :
  birdSchema main = inr b ->
  zOptional physicalCharacteristicsSchema (raw_physicalCharacteristics main)
  = inr (physicalCharacteristics b)
  /\ zOptional habitatAndRangeSchema (raw_habitatAndRange main)
     = inr (habitatAndRange b)
  /\ zOptional migrationPatternsSchema (raw_migrationPatterns main)
     = inr (migrationPatterns b)
  /\ zOptional seasonalVariationsSchema (raw_seasonalVariations main)
     = inr (seasonalVariations b)
  /\ zOptional birdSoundsSchema (raw_sounds main) = inr (sounds b).
Proof.
  unfold birdSchema. intros H. invert_chain H. injection H as <-.
  cbn [physicalCharacteristics habitatAndRange migrationPatterns
       seasonalVariations sounds].
  repeat split; assumption.
Qed.

(** X13: the optional groups.  In every accepted response each of the
    five groups of the primary bird is there exactly when the given
    value is truthy, and it is never made up from nothing; each text of
    a group is the given string, absent where none is given (so a
    truthy value that is not an object gives a group without texts),
    and the migration group always says whether the bird migrates. *)
Theorem groups_follow_the_response (img : option string) (resp : json)
    (r : IdentificationResult) :
  normalizeResponse img resp = inr r ->
  let given := field (field (Some resp) "mainBird") in
  let b := mainBird r in
  physicalFrom (given "physicalCharacteristics") (physicalCharacteristics b)
  /\ habitatFrom (given "habitatAndRange") (habitatAndRange b)
  /\ migrationFrom (given "migrationPatterns") (migrationPatterns b)
  /\ seasonalFrom (given "seasonalVariations") (seasonalVariations b)
  /\ soundsFrom (given "sounds") (sounds b).
Proof.
  intros Hr given b. apply accepted_tryBlock in Hr.
  destruct (tryBlock_inr StringToNumber ArrayToString img resp r Hr)
    as (_ & _ & main & _ & _ & Hmain & Hb & _).
  destruct (readMainBird_groups _ _ Hmain) as (R1 & R2 & R3 & R4 & R5).
  destruct (birdSchema_groups _ _ Hb) as (Z1 & Z2 & Z3 & Z4 & Z5).
  split; [exact (physical_group _ _ _ R1 Z1)|].
  split; [exact (habitat_group _ _ _ R2 Z2)|].
  split; [exact (migration_group _ _ _ R3 Z3)|].
  split; [exact (seasonal_group _ _ _ R4 Z4)|].
  exact (sounds_group _ _ _ R5 Z5).
Qed.

End NormalizerFurther.

Section NormalizerFurtherInstances.
Import Js Schema Gemini NormalizerSpec NormalizerFields.

Lemma renormalizing_is_identity_witness :
  exists r,
    normalizeResponse noNumeral noElements (Some "iVBORw0KGgoAAAANSUhEUg") robinAndWren
    = inr r
    /\ originalImage r = "data:image/png;base64,iVBORw0KGgoAAAANSUhEUg"
    /\ normalizeResponse noNumeral noElements (Some "iVBORw0KGgoAAAANSUhEUg")
         (resultToJson r)
       = inr r.
Proof.
  destruct (normalizeResponse noNumeral noElements (Some "iVBORw0KGgoAAAANSUhEUg")
              robinAndWren) as [e|r] eqn:Hr; [vm_compute in Hr; discriminate|].
  exists r. split; [reflexivity|]. split.
  - vm_compute in Hr. injection Hr as <-. reflexivity.
  - exact (renormalizing_is_identity noNumeral noElements _ robinAndWren r Hr).
Defined.

Lemma main_bird_texts_witness :
  exists r,
    normalizeResponse noNumeral noElements None robinInPark = inr r
    /\ name (mainBird r) = "Robin"
    /\ scientificName (mainBird r) = "Unknown Species"
    /\ habitat (mainBird r) = Some "Parks and gardens"
    /\ sound (mainBird r) = Some "Unknown sound".
Proof.
  destruct (normalizeResponse noNumeral noElements None robinInPark)
    as [e|r] eqn:Hr; [vm_compute in Hr; discriminate|].
  exists r. split; [reflexivity|].
  destruct (main_bird_texts noNumeral noElements None robinInPark r Hr)
    as (Hname & _ & (_ & Hsci) & _ & (_ & Hhab) & (_ & Hsound) & _).
  cbv zeta in *.
  split; [injection Hname as Hname; symmetry; exact Hname|].
  split; [exact Hsci|]. split; [exact Hhab|exact Hsound].
Defined.


Lemma groups_follow_the_response_witness :
  exists r,
    normalizeResponse noNumeral noElements None robinInPark = inr r
    /\ physicalCharacteristics (mainBird r)
       = Some {| size := None; weight := None; wingspan := None; plumage := None;
                 bill := None; legs := None; eyeColor := None |}
    /\ (exists m, migrationPatterns (mainBird r) = Some m
                  /\ migratory m = Some false
                  /\ migrationSeason m = Some "autumn")
    /\ sounds (mainBird r) = None.
Proof.
  destruct (normalizeResponse noNumeral noElements None robinInPark)
    as [e|r] eqn:Hr; [vm_compute in Hr; discriminate|].
  exists r. split; [reflexivity|].
  destruct (groups_follow_the_response noNumeral noElements None robinInPark r Hr)
    as (Hp & _ & Hm & _ & Hs).
  cbv zeta in *. split; [|split].
  - destruct Hp as (p & -> & H1 & H2 & H3 & H4 & H5 & H6 & H7).
    destruct p as [[?|] [?|] [?|] [?|] [?|] [?|] [?|]]; try discriminate.
    reflexivity.
  - destruct Hm as (m & Hm & Hmig & Hseason & _).
    exists m. split; [exact Hm|]. split; [exact Hmig|].
    destruct (migrationSeason m); [|discriminate].
    injection Hseason as ->. reflexivity.
  - exact Hs.
Defined.

End NormalizerFurtherInstances.

(** * Properties of the sightings *)

Section SightingsProperties.
Import Js Schema Storage Sightings SightingsSpec.
Local Open Scope sightings_scope.
Context {Day : Type} `{EqDecision Day}.
Variable toDateString : Z -> Day.

(** *** The ordered map *)

Lemma Forall_keys {V} (P : Z -> Prop) (m : list (Z * V)) :
  Forall (fun kv => P kv.1) m <-> Forall P (fst <$> m).
Proof.
  induction m as [|[k v] m IH]; cbn [fmap list_fmap].
  - split; constructor.
  - rewrite !Forall_cons, IH. reflexivity.
Qed.

Lemma map_get_set_ne {V} (k k' : Z) (v : V) (m : list (Z * V)) :
  k' <> k -> map_get k' (map_set k v m) = map_get k' m.
Proof.
  intros Hne. induction m as [|[k0 v0] m IH]; cbn.
  - rewrite bool_decide_eq_false_2 by congruence. reflexivity.
  - destruct (bool_decide_reflect (k0 = k)) as [->|Hk0]; cbn.
    + rewrite !bool_decide_eq_false_2 by congruence. reflexivity.
    + destruct (bool_decide (k0 = k')); [reflexivity|exact IH].
Qed.

Lemma map_set_keys {V} (k : Z) (v v0 : V) (m : list (Z * V)) :
  map_get k m = Some v0 -> fst <$> map_set k v m = fst <$> m.
Proof.
  induction m as [|[k0 v1] m IH]; cbn; [discriminate|].
  destruct (bool_decide_reflect (k0 = k)) as [->|Hk0]; cbn.
  - reflexivity.
  - intros Hget. rewrite (IH Hget). reflexivity.
Qed.

Lemma map_get_delete_ne {V} (k k' : Z) (m : list (Z * V)) :
  k' <> k -> map_get k' (map_delete k m) = map_get k' m.
Proof.
  intros Hne. induction m as [|[k0 v0] m IH]; cbn; [reflexivity|].
  destruct (bool_decide_reflect (k0 = k)) as [->|Hk0]; cbn.
  - rewrite bool_decide_eq_false_2 by congruence. reflexivity.
  - destruct (bool_decide (k0 = k')); [reflexivity|exact IH].
Qed.

Lemma map_get_above {V} (k : Z) (m : list (Z * V)) :
  Forall (fun k' => k < k') (fst <$> m) -> map_get k m = None.
Proof.
  induction m as [|[k0 v0] m IH]; cbn; [reflexivity|].
  intros Hall. inversion Hall as [|? ? Hk0 Hrest]; subst.
  rewrite bool_decide_eq_false_2 by lia. apply IH, Hrest.
Qed.

Lemma map_get_delete_eq {V} (k : Z) (m : list (Z * V)) :
  StronglySorted Z.lt (fst <$> m) -> map_get k (map_delete k m) = None.
Proof.
  induction m as [|[k0 v0] m IH]; cbn; [reflexivity|].
  intros Hsorted. apply StronglySorted_inv in Hsorted. destruct Hsorted as (Hm & Hk0).
  destruct (bool_decide_reflect (k0 = k)) as [->|Hne]; cbn.
  - apply map_get_above. exact Hk0.
  - rewrite bool_decide_eq_false_2 by exact Hne. apply IH, Hm.
Qed.

Lemma map_delete_Forall {V} (P : Z * V -> Prop) (k : Z) (m : list (Z * V)) :
  Forall P m -> Forall P (map_delete k m).
Proof.
  induction 1 as [|[k0 v0] m Hk0 Hm IH]; cbn; [constructor|].
  destruct (bool_decide (k0 = k)); [exact Hm|]. constructor; assumption.
Qed.

Lemma map_delete_sorted {V} (k : Z) (m : list (Z * V)) :
  StronglySorted Z.lt (fst <$> m) -> StronglySorted Z.lt (fst <$> map_delete k m).
Proof.
  induction m as [|[k0 v0] m IH]; cbn; [constructor|].
  intros Hsorted. apply StronglySorted_inv in Hsorted. destruct Hsorted as (Hm & Hk0).
  destruct (bool_decide (k0 = k)); [exact Hm|]. cbn. constructor; [apply IH, Hm|].
  apply Forall_fmap. apply (map_delete_Forall (fun kv => k0 < kv.1)).
  apply (proj1 (Forall_fmap _ _ _)) in Hk0. exact Hk0.
Qed.

Lemma map_delete_count {V} (P : V -> Prop) `{forall v, Decision (P v)}
    (k : Z) (v : V) (m : list (Z * V)) :
  map_get k m = Some v ->
  length (filter P (map_values m))
  = (length (filter P (map_values (map_delete k m)))
     + if bool_decide (P v) then 1 else 0)%nat.
Proof.
  unfold map_values.
  induction m as [|[k0 v0] m IH]; cbn [map_get map_delete]; [discriminate|].
  rewrite fmap_cons, filter_cons. cbn [snd].
  destruct (bool_decide_reflect (k0 = k)) as [->|Hne].
  - intros [= ->].
    case_bool_decide; case_decide; try contradiction; cbn [length]; lia.
  - intros Hget. rewrite fmap_cons, filter_cons. cbn [snd].
    case_decide; cbn [length]; rewrite (IH Hget); lia.
Qed.

Lemma map_set_count {V} (P : V -> Prop) `{forall v, Decision (P v)}
    (k : Z) (v v0 : V) (m : list (Z * V)) :
  map_get k m = Some v0 ->
  (length (filter P (map_values (map_set k v m)))
   + (if bool_decide (P v0) then 1 else 0)
   = length (filter P (map_values m))
     + (if bool_decide (P v) then 1 else 0))%nat.
Proof.
  unfold map_values.
  induction m as [|[k0 v1] m IH]; cbn [map_get map_set]; [discriminate|].
  rewrite (fmap_cons snd (k0, v1)), (filter_cons _ v1). cbn [snd].
  destruct (bool_decide_reflect (k0 = k)) as [->|Hne].
  - intros [= ->]. rewrite fmap_cons, filter_cons. cbn [snd].
    repeat case_bool_decide; repeat case_decide; try contradiction;
      cbn [length]; lia.
  - intros Hget. rewrite fmap_cons, filter_cons. cbn [snd].
    specialize (IH Hget). case_decide; cbn [length]; lia.
Qed.

(** *** The methods, run *)

Lemma createSighting_run (st : Store) (sighting : InsertBirdSighting) :
  let newId := sightingIdCounter st in
  let now := clock (ledger st) (tick (ledger st)) in
  let newSighting :=
    {| s_id := newId;
       s_userId := is_userId sighting;
       s_birdName := is_birdName sighting;
       s_scientificName := text_or_null (is_scientificName sighting);
       s_location := text_or_null (is_location sighting);
       s_latitude := text_or_null (is_latitude sighting);
       s_longitude := text_or_null (is_longitude sighting);
       s_sightingDate := default now (is_sightingDate sighting);
       s_notes := text_or_null (is_notes sighting);
       s_imageUrl := text_or_null (is_imageUrl sighting);
       s_identificationId := number_or_null (is_identificationId sighting);
       s_isOffline := default false (is_isOffline sighting) |} in
  createSighting sighting st
  = (inr newSighting,
     {| ledger := {| mem := mem (ledger st); clock := clock (ledger st);
                     tick := S (tick (ledger st)) |};
        sightings := map_set newId newSighting (sightings st);
        sightingIdCounter := newId + 1 |}).
Proof. reflexivity. Qed.

Lemma getSighting_run (st : Store) (id : Z) :
  getSighting id st = (inr (map_get id (sightings st)), st).
Proof. reflexivity. Qed.

Lemma getUserSightingCount_run (st : Store) (userId : Z) :
  getUserSightingCount userId st
  = (inr (Z.of_nat (length (ownSightings userId st))), st).
Proof. reflexivity. Qed.

Lemma updateSighting_run (st : Store) (id : Z) (updates : PartialSighting) :
  updateSighting id updates st
  = match map_get id (sightings st) with
    | None => (inl (SightingNotFound id), st)
    | Some sighting =>
        (inr (spreadSighting sighting updates),
         {| ledger := ledger st;
            sightings := map_set id (spreadSighting sighting updates) (sightings st);
            sightingIdCounter := sightingIdCounter st |})
    end.
Proof.
  unfold updateSighting, sbind, getSightings.
  destruct (map_get id (sightings st)); reflexivity.
Qed.

Lemma deleteSighting_run (st : Store) (id : Z) :
  deleteSighting id st
  = match map_get id (sightings st) with
    | None => (inr false, st)
    | Some _ =>
        (inr true,
         {| ledger := ledger st; sightings := map_delete id (sightings st);
            sightingIdCounter := sightingIdCounter st |})
    end.
Proof.
  unfold deleteSighting, sbind, getSightings.
  destruct (map_get id (sightings st)); reflexivity.
Qed.

Lemma getUserSightings_sightings (st : Store) (userId : Z) (lim : option Z) :
  sightings (snd (getUserSightings userId lim st)) = sightings st
  /\ sightingIdCounter (snd (getUserSightings userId lim st)) = sightingIdCounter st.
Proof.
  unfold getUserSightings, sbind, onLedger, getSightings, sret, sthrow.
  rewrite getUser_run. destruct (users (mem (ledger st)) !! userId); split; reflexivity.
Qed.

(** *** The numbering *)

Lemma numbered_below (st : Store) :
  sightingsNumbered st ->
  Forall (fun kv => kv.1 < sightingIdCounter st) (sightings st).
Proof.
  intros (_ & Hn & _). eapply Forall_impl; [exact Hn|]. cbn. intros kv ?. lia.
Qed.

Lemma numbered_createSighting (st : Store) (sighting : InsertBirdSighting) :
  sightingsNumbered st -> sightingsNumbered (snd (createSighting sighting st)).
Proof.
  intros Hst. pose proof (numbered_below st Hst) as Hbelow.
  destruct Hst as (Hc & Hn & Hs).
  rewrite createSighting_run. cbn [snd]. unfold sightingsNumbered.
  cbn [sightings sightingIdCounter].
  rewrite (map_set_fresh _ _ _ Hbelow). split; [lia|]. split.
  - apply Forall_app. split.
    + eapply Forall_impl; [exact Hn|]. cbn. intros kv ?. lia.
    + constructor; [cbn; lia|constructor].
  - rewrite fmap_app. cbn. apply StronglySorted_snoc; [exact Hs|].
    apply Forall_fmap. exact Hbelow.
Qed.

Lemma numbered_updateSighting (st : Store) (id : Z) (updates : PartialSighting) :
  sightingsNumbered st -> sightingsNumbered (snd (updateSighting id updates st)).
Proof.
  intros (Hc & Hn & Hs). rewrite updateSighting_run.
  destruct (map_get id (sightings st)) as [sighting|] eqn:Hget; cbn [snd];
    [|repeat split; assumption].
  unfold sightingsNumbered. cbn [sightings sightingIdCounter].
  split; [exact Hc|]. split.
  - apply (Forall_keys (fun k => 1 <= k < sightingIdCounter st)).
    rewrite (map_set_keys _ _ _ _ Hget).
    apply (Forall_keys (fun k => 1 <= k < sightingIdCounter st)). exact Hn.
  - rewrite (map_set_keys _ _ _ _ Hget). exact Hs.
Qed.

Lemma numbered_deleteSighting (st : Store) (id : Z) :
  sightingsNumbered st -> sightingsNumbered (snd (deleteSighting id st)).
Proof.
  intros (Hc & Hn & Hs). rewrite deleteSighting_run.
  destruct (map_get id (sightings st)) as [sighting|]; cbn [snd];
    [|repeat split; assumption].
  split; [exact Hc|]. split.
  - apply map_delete_Forall. exact Hn.
  - apply map_delete_sorted. exact Hs.
Qed.

Lemma numbered_performS (st : Store) (c : SCall) :
  sightingsNumbered st -> sightingsNumbered (performS toDateString st c).
Proof.
  intros Hst. destruct c; cbn [performS].
  - exact Hst.
  - apply numbered_createSighting, Hst.
  - exact Hst.
  - destruct (getUserSightings_sightings st userId lim) as (Hs & Hc).
    unfold sightingsNumbered. rewrite Hs, Hc. exact Hst.
  - apply numbered_updateSighting, Hst.
  - apply numbered_deleteSighting, Hst.
  - exact Hst.
Qed.

Lemma numbered_newStore (clock : nat -> Z) : sightingsNumbered (newStore clock).
Proof. split; [cbn; lia|]. split; constructor. Qed.

Lemma numbered_calls (calls : list SCall) (st : Store) :
  sightingsNumbered st -> sightingsNumbered (foldl (performS toDateString) st calls).
Proof.
  revert st. induction calls as [|c calls IH]; intros st Hst; [exact Hst|].
  cbn [foldl]. apply IH, numbered_performS, Hst.
Qed.

(** X14: whatever sequence of methods is called on a new storage, the
    keys of the sightings ascend in storage order and stay below the
    counter the next id is drawn from: an id, once given, is not given
    again, also after its sighting was deleted. *)
Theorem sightings_keep_numbering (clock : nat -> Z) (calls : list SCall) :
  sightingsNumbered (afterSCalls toDateString clock calls).
Proof. apply numbered_calls, numbered_newStore. Qed.

(** *** The sort of the sightings *)

Lemma insertSighting_perm (x : BirdSighting) (l : list BirdSighting) :
  insertSighting x l ≡ₚ x :: l.
Proof.
  induction l as [|y l IH]; [reflexivity|].
  simpl. destruct (s_sightingDate y <=? s_sightingDate x); [reflexivity|].
  rewrite IH. apply perm_swap.
Qed.

Lemma sortSightings_perm (l : list BirdSighting) : sortSightings l ≡ₚ l.
Proof.
  induction l as [|x l IH]; [reflexivity|].
  simpl. rewrite insertSighting_perm. rewrite IH. reflexivity.
Qed.

Lemma insertSighting_sorted (x : BirdSighting) (l : list BirdSighting) :
  newestSightingFirst l -> newestSightingFirst (insertSighting x l).
Proof.
  unfold newestSightingFirst. induction 1 as [|y l Hl IH Hy].
  - repeat constructor.
  - simpl. destruct (Z.leb_spec (s_sightingDate y) (s_sightingDate x)) as [Hle|Hgt].
    + constructor; [constructor; assumption|].
      constructor; [exact Hle|].
      eapply Forall_impl; [exact Hy|]. simpl. intros b Hb. lia.
    + constructor; [exact IH|].
      rewrite insertSighting_perm. constructor; [lia|exact Hy].
Qed.

Lemma sortSightings_sorted (l : list BirdSighting) :
  newestSightingFirst (sortSightings l).
Proof.
  induction l as [|x l IH]; [constructor|].
  simpl. apply insertSighting_sorted. exact IH.
Qed.

Lemma length_sortSightings (l : list BirdSighting) :
  length (sortSightings l) = length l.
Proof. apply Permutation_length, sortSightings_perm. Qed.

Lemma newestSightingFirst_take (n : nat) (l : list BirdSighting) :
  newestSightingFirst l -> newestSightingFirst (take n l).
Proof.
  unfold newestSightingFirst. intros Hl. revert n.
  induction Hl as [|x l Hl IH Hx]; intros [|n]; cbn; try constructor.
  - apply IH.
  - apply Forall_take. exact Hx.
Qed.

Lemma length_slice0 {A} (l : list A) (e : Z) :
  0 <= e -> Z.of_nat (length (slice0 l e)) = Z.min e (Z.of_nat (length l)).
Proof.
  intros He. unfold slice0.
  destruct (Z.ltb_spec e 0) as [Hlt|_]; [lia|].
  rewrite length_take. lia.
Qed.

Lemma slice0_all {A} (l : list A) : slice0 l (Z.of_nat (length l)) = l.
Proof.
  unfold slice0. destruct (Z.ltb_spec (Z.of_nat (length l)) 0) as [Hlt|_]; [lia|].
  rewrite Nat2Z.id. apply firstn_all.
Qed.

Lemma getUserSightings_run (st : Store) (userId : Z) (lim : option Z) :
  getUserSightings userId lim st
  = match users (mem (ledger st)) !! userId with
    | None => (inl (LedgerError (UserNotFound userId)), st)
    | Some user =>
        let maxAllowed :=
          if bool_decide (subscriptionPlan user = "premium") then Infinity else Num 10 in
        let sorted := sortSightings (ownSightings userId st) in
        let effectiveLimit :=
          match lim with
          | None => maxAllowed
          | Some l => min_limit l maxAllowed
          end in
        (inr (slice0 sorted
                (match effectiveLimit with
                 | Infinity => Z.of_nat (length sorted)
                 | Num n => n
                 end)), st)
    end.
Proof.
  destruct st as [w m c].
  unfold getUserSightings, sbind, onLedger, getSightings, sret, sthrow.
  rewrite getUser_run. cbn [ledger sightings sightingIdCounter].
  destruct (users (mem w) !! userId); reflexivity.
Qed.

Lemma journal_after_set (m : list (Z * BirdSighting)) (k : Z) (v : BirdSighting)
    (userId : Z) :
  Forall (fun kv => kv.1 < k) m ->
  Z.of_nat (length (filter (fun s => s_userId s = userId)
                           (map_values (map_set k v m))))
  = Z.of_nat (length (filter (fun s => s_userId s = userId) (map_values m)))
    + if bool_decide (s_userId v = userId) then 1 else 0.
Proof.
  intros Hbelow. rewrite (map_set_fresh _ _ _ Hbelow). unfold map_values.
  rewrite fmap_app, filter_app, length_app. cbn [fmap list_fmap snd].
  rewrite filter_cons, filter_nil.
  case_bool_decide; case_decide; try contradiction; cbn [length]; lia.
Qed.

(** X15: [createSighting] never throws and asks neither whether the
    user exists nor how many sightings the user has.  In a storage with
    the numbering of X14 the sighting gets the counter's value as id, an
    id no stored sighting has; it is stored under that id with the time
    of the call as date when none was given, the other sightings stay as
    they were, the count of the sighting's user goes up by one and no
    other count changes; the users are not touched. *)
Theorem createSighting_registers (st : Store) (sighting : InsertBirdSighting) :
  sightingsNumbered st ->
  let newId := sightingIdCounter st in
  let st' := safter (createSighting sighting st) in
  exists s,
    sreturned (createSighting sighting st) = Some s
    /\ s_id s = newId
    /\ s_userId s = is_userId sighting
    /\ s_sightingDate s
       = default (clock (ledger st) (tick (ledger st))) (is_sightingDate sighting)
    /\ map_get newId (sightings st) = None
    /\ sreturned (getSighting newId st') = Some (Some s)
    /\ (forall k, k <> newId -> map_get k (sightings st') = map_get k (sightings st))
    /\ (forall userId,
          sreturned (getUserSightingCount userId st')
          = Some (Z.of_nat (length (ownSightings userId st))
                  + if bool_decide (is_userId sighting = userId) then 1 else 0))
    /\ sightingIdCounter st' = newId + 1
    /\ mem (ledger st') = mem (ledger st).
Proof.
  intros Hst newId st'. pose proof (numbered_below st Hst) as Hbelow.
  subst st'. unfold safter. rewrite createSighting_run. cbn [snd].
  eexists. split; [reflexivity|]. cbn [s_id s_userId s_sightingDate].
  split; [reflexivity|]. split; [reflexivity|]. split; [reflexivity|].
  split; [apply map_get_below; exact Hbelow|].
  rewrite getSighting_run. unfold sreturned. cbn [fst sightings].
  split; [rewrite map_get_set; reflexivity|].
  split; [intros k Hk; apply map_get_set_ne; exact Hk|].
  split; [|split; reflexivity].
  intros userId. rewrite getUserSightingCount_run. cbn [fst]. f_equal.
  unfold ownSightings. cbn [sightings].
  rewrite (journal_after_set _ _ _ _ Hbelow). reflexivity.
Qed.

(** X16: [deleteSighting] of an id that is not stored answers [false]
    and changes nothing.  Of a stored id (in a storage with the
    numbering of X14) it answers [true]; afterwards the id is not found,
    every other sighting is found as before, the count of the owner is
    one less and no other count changes, and the counter keeps its
    value, so that the id is not given to a later sighting. *)
Theorem deleteSighting_removes (st : Store) (id : Z) :
  sightingsNumbered st ->
  let st' := safter (deleteSighting id st) in
  match map_get id (sightings st) with
  | None => deleteSighting id st = (inr false, st)
  | Some s =>
      sreturned (deleteSighting id st) = Some true
      /\ sreturned (getSighting id st') = Some None
      /\ (forall k, k <> id -> map_get k (sightings st') = map_get k (sightings st))
      /\ (forall userId,
            Z.of_nat (length (ownSightings userId st))
            = Z.of_nat (length (ownSightings userId st'))
              + if bool_decide (s_userId s = userId) then 1 else 0)
      /\ sightingIdCounter st' = sightingIdCounter st
      /\ ledger st' = ledger st
  end.
Proof.
  intros (_ & _ & Hsorted) st'. subst st'. unfold safter.
  rewrite deleteSighting_run.
  destruct (map_get id (sightings st)) as [s|] eqn:Hget; [|reflexivity].
  cbn [snd]. split; [reflexivity|].
  rewrite getSighting_run. unfold sreturned. cbn [fst sightings].
  split; [rewrite (map_get_delete_eq _ _ Hsorted); reflexivity|].
  split; [intros k Hk; apply map_get_delete_ne; exact Hk|].
  split; [|split; reflexivity].
  intros userId. unfold ownSightings. cbn [sightings].
  rewrite (map_delete_count (fun s0 => s_userId s0 = userId) id s _ Hget).
  case_bool_decide; lia.
Qed.

(** X17: [updateSighting] of an id that is not stored throws "Sighting
    with id ... not found" and changes nothing.  Of a stored id it
    returns the stored sighting overwritten by the given fields, the id
    and the owner among them if they are given; that row is what the id
    finds afterwards, every other id finds what it found before, and the
    storage order and the counter are kept. *)
Theorem updateSighting_merges (st : Store) (id : Z) (updates : PartialSighting) :
  let st' := safter (updateSighting id updates st) in
  match map_get id (sightings st) with
  | None => updateSighting id updates st = (inl (SightingNotFound id), st)
  | Some s =>
      sreturned (updateSighting id updates st) = Some (spreadSighting s updates)
      /\ sreturned (getSighting id st') = Some (Some (spreadSighting s updates))
      /\ (forall k, k <> id -> map_get k (sightings st') = map_get k (sightings st))
      /\ fst <$> sightings st' = fst <$> sightings st
      /\ sightingIdCounter st' = sightingIdCounter st
      /\ ledger st' = ledger st
  end.
Proof.
  intros st'. subst st'. unfold safter. rewrite updateSighting_run.
  destruct (map_get id (sightings st)) as [s|] eqn:Hget; [|reflexivity].
  cbn [snd]. split; [reflexivity|].
  rewrite getSighting_run. unfold sreturned. cbn [fst sightings].
  split; [rewrite map_get_set; reflexivity|].
  split; [intros k Hk; apply map_get_set_ne; exact Hk|].
  split; [apply (map_set_keys _ _ _ _ Hget)|split; reflexivity].
Qed.

(** X18: [getUserSightings] throws "User with id ... not found" for a
    user that is not stored, and otherwise returns a front part of that
    user's own sightings put newest first: no sighting of another user
    is in it.  The storage is the same afterwards in both cases. *)
Theorem user_sightings_are_own (st : Store) (userId : Z) (lim : option Z) :
  match users (mem (ledger st)) !! userId with
  | None =>
      getUserSightings userId lim st = (inl (LedgerError (UserNotFound userId)), st)
  | Some _ =>
      exists shown,
        getUserSightings userId lim st = (inr shown, st)
        /\ shown `prefix_of` sortSightings (ownSightings userId st)
        /\ Forall (fun s => s_userId s = userId) shown
        /\ newestSightingFirst shown
  end.
Proof.
  rewrite getUserSightings_run.
  destruct (users (mem (ledger st)) !! userId) as [u|]; [|reflexivity].
  cbv zeta.
  match goal with |- context [slice0 ?l ?e] =>
    destruct (slice0_take l e) as (n & Hn); rewrite Hn end.
  eexists. split; [reflexivity|]. split.
  { exists (drop n (sortSightings (ownSightings userId st))).
    symmetry. apply take_drop. }
  split.
  - apply Forall_take.
    rewrite sortSightings_perm. unfold ownSightings.
    apply Forall_forall. intros s Hs. apply list_elem_of_filter in Hs.
    exact (proj1 Hs).
  - apply newestSightingFirst_take, sortSightings_sorted.
Qed.

(** X19: for a user on the premium plan no cap applies to the journal:
    without a limit [getUserSightings] returns all the sightings of the
    user, newest first, however many there are; with a limit that is
    not negative it returns that many of them, or all if there are
    fewer. *)
Theorem premium_sightings_unbounded (st : Store) (userId : Z) (u : User)
    (lim : option Z) :
  users (mem (ledger st)) !! userId = Some u ->
  subscriptionPlan u = "premium" ->
  match lim with Some l => 0 <= l | None => True end ->
  exists shown,
    sreturned (getUserSightings userId lim st) = Some shown
    /\ match lim with
       | None =>
           shown = sortSightings (ownSightings userId st)
           /\ shown ≡ₚ ownSightings userId st
       | Some l =>
           Z.of_nat (length shown)
           = Z.min l (Z.of_nat (length (ownSightings userId st)))
       end.
Proof.
  intros Hu Hplan Hlim. rewrite getUserSightings_run, Hu. cbv zeta.
  rewrite bool_decide_eq_true_2 by exact Hplan.
  eexists. split; [reflexivity|].
  destruct lim as [l|]; cbn [min_limit].
  - rewrite length_slice0 by exact Hlim. rewrite length_sortSightings. reflexivity.
  - rewrite slice0_all. split; [reflexivity|apply sortSightings_perm].
Qed.

(** X20: for a user on any other plan the journal shows at most ten
    sightings: without a limit [getUserSightings] returns the ten newest
    sightings of the user, or all if there are fewer; a limit that is
    not negative lowers the number but cannot raise it above ten. *)
Theorem free_sightings_cap_is_10 (st : Store) (userId : Z) (u : User)
    (lim : option Z) :
  users (mem (ledger st)) !! userId = Some u ->
  subscriptionPlan u <> "premium" ->
  match lim with Some l => 0 <= l | None => True end ->
  exists shown,
    sreturned (getUserSightings userId lim st) = Some shown
    /\ Z.of_nat (length shown)
       = Z.min (match lim with Some l => Z.min l 10 | None => 10 end)
               (Z.of_nat (length (ownSightings userId st)))
    /\ Z.of_nat (length shown) <= 10.
Proof.
  intros Hu Hplan Hlim. rewrite getUserSightings_run, Hu. cbv zeta.
  rewrite bool_decide_eq_false_2 by exact Hplan.
  eexists. split; [reflexivity|].
  destruct lim as [l|]; cbn [min_limit].
  - rewrite length_slice0 by lia. rewrite length_sortSightings. lia.
  - rewrite length_slice0 by lia. rewrite length_sortSightings. lia.
Qed.

End SightingsProperties.

(** ** Instances *)

Section SightingsInstances.
Import Js Schema Storage Sightings Spec SightingsSpec.

Lemma numbered_oneUserStore : sightingsNumbered oneUserStore.
Proof. split; [cbn; lia|]. split; constructor. Qed.

Lemma numbered_twelveSightings : sightingsNumbered twelveSightings.
Proof.
  unfold twelveSightings. cbn [repeatS].
  do 12 apply numbered_createSighting. exact numbered_oneUserStore.
Qed.

Lemma createSighting_registers_witness :
  sightingsNumbered oneUserStore
  /\ (exists s,
        sreturned (createSighting wrenSeen oneUserStore) = Some s
        /\ s_id s = 1
        /\ sreturned (getUserSightingCount 1
                        (safter (createSighting wrenSeen oneUserStore)))
           = Some 1).
Proof.
  pose proof numbered_oneUserStore as Hn. split; [exact Hn|].
  destruct (createSighting_registers oneUserStore wrenSeen Hn)
    as (s & Hret & Hid & _ & _ & _ & _ & _ & Hcount & _).
  exists s. split; [exact Hret|]. split; [exact Hid|].
  rewrite (Hcount 1). vm_compute. reflexivity.
Defined.

Lemma deleteSighting_removes_witness :
  sightingsNumbered twelveSightings
  /\ sreturned (deleteSighting 3 twelveSightings) = Some true
  /\ sreturned (getSighting 3 (safter (deleteSighting 3 twelveSightings)))
     = Some None
  /\ sreturned (getUserSightingCount 1 (safter (deleteSighting 3 twelveSightings)))
     = Some 11.
Proof.
  pose proof numbered_twelveSightings as Hn. split; [exact Hn|].
  pose proof (deleteSighting_removes twelveSightings 3 Hn) as Hd. cbv zeta in Hd.
  destruct (map_get 3 (sightings twelveSightings)) as [s|] eqn:Hget;
    [|vm_compute in Hget; discriminate].
  destruct Hd as (Hret & Hgone & _ & Hcount & _).
  split; [exact Hret|]. split; [exact Hgone|].
  rewrite getUserSightingCount_run. unfold sreturned. cbn [fst].
  specialize (Hcount 1).
  assert (Hs : s_userId s = 1)
    by (vm_compute in Hget; injection Hget as <-; reflexivity).
  rewrite bool_decide_eq_true_2 in Hcount by exact Hs.
  assert (Hbefore : Z.of_nat (length (ownSightings 1 twelveSightings)) = 12)
    by (vm_compute; reflexivity).
  apply (f_equal Some). lia.
Defined.

Lemma premium_sightings_unbounded_witness :
  subscriptionPlan <$> users (mem (ledger twelveSightingsPremium)) !! 1
  = Some "premium"
  /\ (exists shown,
        sreturned (getUserSightings 1 None twelveSightingsPremium) = Some shown
        /\ length shown = 12%nat).
Proof.
  destruct (users (mem (ledger twelveSightingsPremium)) !! 1) as [u|] eqn:Hu;
    [|vm_compute in Hu; discriminate].
  assert (Hplan : subscriptionPlan u = "premium")
    by (vm_compute in Hu; injection Hu as <-; reflexivity).
  split; [cbn; f_equal; exact Hplan|].
  destruct (premium_sightings_unbounded twelveSightingsPremium 1 u None Hu Hplan I)
    as (shown & Hret & _ & Hperm).
  exists shown. split; [exact Hret|].
  rewrite (Permutation_length Hperm). vm_compute. reflexivity.
Defined.

Lemma free_sightings_cap_is_10_witness :
  subscriptionPlan <$> users (mem (ledger twelveSightings)) !! 1 = Some "free"
  /\ length (ownSightings 1 twelveSightings) = 12%nat
  /\ (exists shown,
        sreturned (getUserSightings 1 None twelveSightings) = Some shown
        /\ Z.of_nat (length shown) = 10).
Proof.
  destruct (users (mem (ledger twelveSightings)) !! 1) as [u|] eqn:Hu;
    [|vm_compute in Hu; discriminate].
  assert (Hplan : subscriptionPlan u = "free")
    by (vm_compute in Hu; injection Hu as <-; reflexivity).
  assert (Hlen : length (ownSightings 1 twelveSightings) = 12%nat)
    by (vm_compute; reflexivity).
  split; [cbn; f_equal; exact Hplan|]. split; [exact Hlen|].
  destruct (free_sightings_cap_is_10 twelveSightings 1 u None Hu) as (shown & Hret & Hn & _).
  - rewrite Hplan. discriminate.
  - exact I.
  - exists shown. split; [exact Hret|]. rewrite Hn, Hlen. reflexivity.
Defined.

End SightingsInstances.

(** * Properties of the endpoints *)

Section RoutesProperties.
Import Js Schema Storage Sightings Gemini SightingsSpec Routes RoutesSpec.
Variable StringToNumber : string -> number.


Lemma numericKey_integer (k : Z) : numericKey (Fin (inject_Z k)) = Some k.
Proof.
  cbn. rewrite Z.mod_1_r, Z.div_1_r. reflexivity.
Qed.

Lemma store_eta (st : Store) :
  {| ledger := ledger st; sightings := sightings st;
     sightingIdCounter := sightingIdCounter st |} = st.
Proof. destruct st; reflexivity. Qed.

Lemma await_getUser (st : Store) (key : Z) :
  await (onLedger (getUser key)) st = (inr (users (mem (ledger st)) !! key), st).
Proof.
  unfold await, onLedger. rewrite getUser_run. cbn [ledger]. rewrite store_eta.
  reflexivity.
Qed.

Lemma authenticate_run (userId : option string) (u : User) (st : Store)
    (next : User -> Store -> Reply * Store) :
  callerIs StringToNumber userId u st ->
  authenticate StringToNumber userId next st = next u st.
Proof.
  intros (s & -> & Hs & Hkey & Hu). unfold authenticate.
  cbn [fmap option_fmap option_map truthy default from_option Datatypes.id].
  rewrite bool_decide_eq_false_2 by exact Hs. cbn [negb].
  rewrite Hkey, await_getUser, Hu. reflexivity.
Qed.

(** A request that carries no user id, an empty one, or one that no
    stored user has, is answered 401 by the middleware: the handler is
    not run and the storage is left as it was. *)
Lemma unknown_caller_is_stopped (userId : option string) (st : Store)
    (next : User -> Store -> Reply * Store) :
  callerUnknown StringToNumber userId st ->
  exists message,
    authenticate StringToNumber userId next st = (Json 401 (Message message), st).
Proof.
  intros Hunknown. unfold authenticate.
  destruct userId as [s|]; cbn [fmap option_fmap option_map truthy default from_option Datatypes.id negb];
    [|eexists; reflexivity].
  destruct (bool_decide_reflect (s = "")) as [->|Hs]; cbn [negb];
    [eexists; reflexivity|].
  destruct (numericKey (StringToNumber s)) as [key|] eqn:Hkey;
    [|eexists; reflexivity].
  rewrite await_getUser, (Hunknown s key eq_refl Hs Hkey).
  eexists. reflexivity.
Qed.

(** *** The request bodies *)

Ltac zod_cases :=
  let Hz := fresh "Hz" in
  intros Hz;
  repeat match type of Hz with
         | context [match ?x with _ => _ end] =>
             is_var x; destruct x; try discriminate Hz
         | context [if bool_decide ?P then _ else _] =>
             destruct (bool_decide P); try discriminate Hz
         end;
  congruence.

Lemma zObject_throws (v : value) (t : Thrown) : zObject v = inl t -> t = ZodError.
Proof. unfold zObject, raise, ok. zod_cases. Qed.

Lemma zNonEmptyString_throws (v : value) (t : Thrown) :
  zNonEmptyString v = inl t -> t = ZodError.
Proof. unfold zNonEmptyString, raise, ok. zod_cases. Qed.

Lemma zOptNonEmptyString_throws (v : value) (t : Thrown) :
  zOptNonEmptyString v = inl t -> t = ZodError.
Proof.
  unfold zOptNonEmptyString, zNonEmptyString, andThen, raise, ok.
  zod_cases.
Qed.

Lemma zOptString_throws (v : value) (t : Thrown) :
  zOptString v = inl t -> t = ZodError.
Proof. unfold zOptString, raise, ok. zod_cases. Qed.

Lemma zOptNumber_throws (v : value) (t : Thrown) :
  zOptNumber v = inl t -> t = ZodError.
Proof.
  unfold zOptNumber, zNumber, andThen, raise, ok. zod_cases.
Qed.

Lemma zOptBoolean_throws (v : value) (t : Thrown) :
  zOptBoolean v = inl t -> t = ZodError.
Proof. unfold zOptBoolean, raise, ok. zod_cases. Qed.

Lemma zOptDate_throws (v : value) (t : Thrown) :
  zOptDate v = inl t -> t = ZodError.
Proof. unfold zOptDate, raise, ok. zod_cases. Qed.

Ltac chain_throws :=
  repeat match goal with
         | |- andThen ?c _ = inl _ -> _ =>
             let E := fresh "E" in
             destruct c eqn:E; cbn [andThen];
             [intros [= <-];
              first [ exact (zObject_throws _ _ E)
                    | exact (zNonEmptyString_throws _ _ E)
                    | exact (zOptNonEmptyString_throws _ _ E)
                    | exact (zOptString_throws _ _ E)
                    | exact (zOptNumber_throws _ _ E)
                    | exact (zOptBoolean_throws _ _ E)
                    | exact (zOptDate_throws _ _ E) ]
             |]
         end.

Lemma sightingDataSchema_throws (body : value) (t : Thrown) :
  sightingDataSchema body = inl t -> t = ZodError.
Proof. unfold sightingDataSchema. chain_throws. discriminate. Qed.

Lemma updateDataSchema_throws (body : value) (t : Thrown) :
  updateDataSchema body = inl t -> t = ZodError.
Proof. unfold updateDataSchema. chain_throws. discriminate. Qed.

Lemma planSchema_throws (body : value) (t : Thrown) :
  planSchema body = inl t -> t = ZodError.
Proof.
  unfold planSchema. chain_throws. unfold raise, ok.
  destruct (lookup_field "plan" _) as [[| | |plan| |]|]; try congruence.
  destruct (bool_decide (plan = FREE) || bool_decide (plan = PREMIUM)); congruence.
Qed.

(** *** POST /api/sightings *)

Lemma postSighting_create (st : Store) (u : User) (body : value)
    (lim : Schema.limit) :
  sightingLimitOf (subscriptionPlan u) = inr lim ->
  match lim with
  | Num n => journalSize (id u) st < n
  | Infinity => True
  end ->
  postSighting body u st
  = match sightingDataSchema body with
    | inl _ => (Json 400 (InvalidData "Invalid sighting data"), st)
    | inr sightingData =>
        let now := clock (ledger st) (tick (ledger st)) in
        let st1 :=
          {| ledger := {| mem := mem (ledger st); clock := clock (ledger st);
                          tick := S (tick (ledger st)) |};
             sightings := sightings st;
             sightingIdCounter := sightingIdCounter st |} in
        match createSighting (newSightingOf sightingData (id u) now) st1 with
        | (inr sighting, st2) => (Json 201 (OneSighting sighting), st2)
        | (inl _, st2) => (Json 500 (Message "Failed to create sighting"), st2)
        end
    end.
Proof.
  intros Hlim Hunder.
  unfold postSighting, tryCatch, hbind, await, parse, hret.
  rewrite getUserSightingCount_run, Hlim.
  assert (Hgo : match lim with
                | Num n => n <=? Z.of_nat (length (ownSightings (id u) st))
                | Infinity => false
                end = false).
  { destruct lim as [n|]; [|reflexivity]. unfold journalSize in Hunder.
    apply Z.leb_gt. exact Hunder. }
  destruct lim as [n|]; [rewrite Hgo|];
    (destruct (sightingDataSchema body) as [t|sightingData] eqn:Hbody;
     [rewrite (sightingDataSchema_throws _ _ Hbody); reflexivity|];
     reflexivity).
Qed.

Lemma postSighting_created (st : Store) (u : User) (body : value)
    (lim : Schema.limit) (sightingData : SightingData) :
  sightingsNumbered st ->
  sightingLimitOf (subscriptionPlan u) = inr lim ->
  match lim with
  | Num n => journalSize (id u) st < n
  | Infinity => True
  end ->
  sightingDataSchema body = inr sightingData ->
  exists sighting,
    reply (postSighting body u st) = Json 201 (OneSighting sighting)
    /\ s_id sighting = sightingIdCounter st
    /\ s_userId sighting = id u
    /\ s_birdName sighting = sd_birdName sightingData
    /\ s_sightingDate sighting = clock (ledger st) (tick (ledger st))
    /\ map_get (s_id sighting) (sightings (leaves (postSighting body u st)))
       = Some sighting
    /\ (forall k, k <> sightingIdCounter st ->
          map_get k (sightings (leaves (postSighting body u st)))
          = map_get k (sightings st))
    /\ (forall userId,
          journalSize userId (leaves (postSighting body u st))
          = journalSize userId st + if bool_decide (id u = userId) then 1 else 0)
    /\ mem (ledger (leaves (postSighting body u st))) = mem (ledger st).
Proof.
  intros Hst Hlim Hunder Hbody. pose proof (numbered_below st Hst) as Hbelow.
  rewrite (postSighting_create st u body lim Hlim Hunder), Hbody. cbv zeta.
  rewrite createSighting_run. unfold reply, leaves. cbn [fst snd].
  cbn [sightings sightingIdCounter ledger mem clock tick].
  eexists. split; [reflexivity|].
  cbn [s_id s_userId s_birdName s_sightingDate newSightingOf is_userId
       is_birdName is_sightingDate default from_option Datatypes.id].
  split; [reflexivity|]. split; [reflexivity|]. split; [reflexivity|].
  split; [reflexivity|].
  split; [apply map_get_set|].
  split; [intros k Hk; apply map_get_set_ne; exact Hk|].
  split; [|reflexivity].
  intros userId. unfold journalSize, ownSightings. cbn [sightings].
  rewrite (journal_after_set _ _ _ _ Hbelow). reflexivity.
Qed.

(** X22: the journal of a user on the free plan is capped at ten by
    POST /api/sightings.  With ten or more sightings stored the request
    is answered 403 with the count and the limit, and nothing changes.
    Below ten, a body the schema rejects is answered 400 and nothing
    changes; a body it accepts is answered 201 with the new sighting,
    which belongs to the caller, is dated by the clock and is stored
    under the next id, and the journal grows by one.  So a journal of at
    most ten sightings has at most ten afterwards. *)
Theorem free_journal_stays_within_10 (st : Store) (userId : option string)
    (u : User) (body : value) :
  callerIs StringToNumber userId u st ->
  subscriptionPlan u = "free" ->
  sightingsNumbered st ->
  let r := authenticate StringToNumber userId (postSighting body) st in
  let size := journalSize (id u) st in
  (10 <= size -> r = (Json 403 (SightingLimitReached size 10), st))
  /\ (size < 10 ->
      match sightingDataSchema body with
      | inl _ => r = (Json 400 (InvalidData "Invalid sighting data"), st)
      | inr sightingData =>
          exists sighting,
            reply r = Json 201 (OneSighting sighting)
            /\ s_id sighting = sightingIdCounter st
            /\ s_userId sighting = id u
            /\ s_birdName sighting = sd_birdName sightingData
            /\ s_sightingDate sighting = clock (ledger st) (tick (ledger st))
            /\ map_get (s_id sighting) (sightings (leaves r)) = Some sighting
            /\ journalSize (id u) (leaves r) = size + 1
      end)
  /\ (size <= 10 -> journalSize (id u) (leaves r) <= 10).
Proof.
  intros Hcaller Hplan Hst r size. subst r.
  rewrite (authenticate_run _ _ _ _ Hcaller).
  assert (Hlim : sightingLimitOf (subscriptionPlan u) = inr (Num 10))
    by (rewrite Hplan; reflexivity).
  assert (Hfull : 10 <= size ->
                  postSighting body u st
                  = (Json 403 (SightingLimitReached size 10), st)).
  { intros Hsize.
    unfold postSighting, tryCatch, hbind, await, parse, hret.
    rewrite getUserSightingCount_run, Hlim.
    fold (journalSize (id u) st). fold size.
    rewrite (proj2 (Z.leb_le 10 size) Hsize). reflexivity. }
  assert (Hroom : size < 10 ->
                  match sightingDataSchema body with
                  | inl _ =>
                      postSighting body u st
                      = (Json 400 (InvalidData "Invalid sighting data"), st)
                  | inr sightingData =>
                      exists sighting,
                        reply (postSighting body u st)
                        = Json 201 (OneSighting sighting)
                        /\ s_id sighting = sightingIdCounter st
                        /\ s_userId sighting = id u
                        /\ s_birdName sighting = sd_birdName sightingData
                        /\ s_sightingDate sighting
                           = clock (ledger st) (tick (ledger st))
                        /\ map_get (s_id sighting)
                             (sightings (leaves (postSighting body u st)))
                           = Some sighting
                        /\ journalSize (id u) (leaves (postSighting body u st))
                           = size + 1
                  end).
  { intros Hsize.
    destruct (sightingDataSchema body) as [t|sightingData] eqn:Hbody.
    - rewrite (postSighting_create st u body (Num 10) Hlim Hsize), Hbody.
      reflexivity.
    - destruct (postSighting_created st u body (Num 10) sightingData
                  Hst Hlim Hsize Hbody)
        as (sighting & Hr & Hid & Hown & Hname & Hdate & Hget & _ & Hn & _).
      exists sighting. repeat (split; [assumption|]).
      rewrite (Hn (id u)), bool_decide_eq_true_2 by reflexivity. reflexivity. }
  split; [exact Hfull|]. split; [exact Hroom|].
  intros Hsize. destruct (Z.le_gt_cases 10 size) as [Hge|Hlt].
  - rewrite (Hfull Hge). unfold leaves. cbn [snd]. exact Hsize.
  - specialize (Hroom Hlt).
    destruct (sightingDataSchema body) as [t|sightingData].
    + rewrite Hroom. unfold leaves. cbn [snd]. exact Hsize.
    + destruct Hroom as (sighting & _ & _ & _ & _ & _ & _ & Hn).
      rewrite Hn. lia.
Qed.

(** X23: for a user on the premium plan POST /api/sightings compares no
    count: however many sightings the user has, a body the schema
    accepts is answered 201 and the journal grows by one, and no other
    user's journal changes. *)
Theorem premium_journal_is_open (st : Store) (userId : option string)
    (u : User) (body : value) (sightingData : SightingData) :
  callerIs StringToNumber userId u st ->
  subscriptionPlan u = "premium" ->
  sightingsNumbered st ->
  sightingDataSchema body = inr sightingData ->
  let r := authenticate StringToNumber userId (postSighting body) st in
  exists sighting,
    reply r = Json 201 (OneSighting sighting)
    /\ s_userId sighting = id u
    /\ map_get (sightingIdCounter st) (sightings (leaves r)) = Some sighting
    /\ (forall other,
          journalSize other (leaves r)
          = journalSize other st + if bool_decide (id u = other) then 1 else 0).
Proof.
  intros Hcaller Hplan Hst Hbody r. subst r.
  rewrite (authenticate_run _ _ _ _ Hcaller).
  assert (Hlim : sightingLimitOf (subscriptionPlan u) = inr Infinity)
    by (rewrite Hplan; reflexivity).
  destruct (postSighting_created st u body Infinity sightingData Hst Hlim I Hbody)
    as (sighting & Hr & Hid & Hown & _ & _ & Hget & _ & Hn & _).
  exists sighting. split; [exact Hr|]. split; [exact Hown|].
  split; [rewrite <- Hid; exact Hget|exact Hn].
Qed.

(** *** The endpoints of one sighting *)

Lemma await_getSighting (st : Store) (key : Z) :
  await (getSighting key) st = (inr (map_get key (sightings st)), st).
Proof. reflexivity. Qed.

(** X24: a sighting is shown, changed and deleted for its owner only.
    GET, PUT and DELETE /api/sightings/:id answer 404 when the id names
    no stored sighting and 403 when it names a sighting of another user;
    in both cases nothing is changed, and PUT does not look at the
    body. *)
Theorem foreign_sighting_is_refused (st : Store) (userId : option string)
    (u : User) (idParam : string) (body : value) :
  callerIs StringToNumber userId u st ->
  let refused (answer : Reply) :=
    authenticate StringToNumber userId (getSightingRoute StringToNumber idParam) st
    = (answer, st)
    /\ authenticate StringToNumber userId
         (putSighting StringToNumber idParam body) st
       = (answer, st)
    /\ authenticate StringToNumber userId
         (deleteSightingRoute StringToNumber idParam) st
       = (answer, st) in
  (named StringToNumber idParam st = None ->
   refused (Json 404 (Message "Sighting not found")))
  /\ (forall sighting,
        named StringToNumber idParam st = Some sighting ->
        s_userId sighting <> id u ->
        refused (Json 403 (Message "Unauthorized access to sighting"))).
Proof.
  intros Hcaller refused. subst refused. cbv beta.
  rewrite !(authenticate_run _ _ _ _ Hcaller).
  unfold named, getSightingRoute, putSighting, deleteSightingRoute, tryCatch.
  destruct (numericKey (StringToNumber idParam)) as [key|].
  - unfold hbind. rewrite await_getSighting. split.
    + intros ->. unfold hret. repeat split; reflexivity.
    + intros sighting -> Hother.
      rewrite bool_decide_eq_false_2 by exact Hother.
      unfold hret. repeat split; reflexivity.
  - split; [intros _; unfold hret; repeat split; reflexivity|].
    intros sighting Hnone. discriminate Hnone.
Qed.

Lemma updateDataSchema_keys (body : value) (updateData : PartialSighting) :
  updateDataSchema body = inr updateData ->
  ps_id updateData = None /\ ps_userId updateData = None
  /\ ps_sightingDate updateData = None
  /\ ps_identificationId updateData = None.
Proof.
  unfold updateDataSchema.
  repeat match goal with
         | |- andThen ?c _ = inr _ -> _ =>
             let E := fresh "E" in
             destruct c eqn:E; cbn [andThen]; [discriminate|]
         end.
  intros [= <-]. cbn.
  match goal with E : zOptDate _ = inr ?d |- _ =>
    unfold zOptDate in E; destruct (lookup_field "sightingDate" _);
      [discriminate E|injection E as <-] end.
  repeat split; reflexivity.
Qed.

Lemma updateDataSchema_dated (fields : list (string * json)) (j : json) :
  lookup_field "sightingDate" fields = Some j ->
  exists t, updateDataSchema (Some (JObj fields)) = inl t.
Proof.
  intros Hdate.
  destruct (updateDataSchema (Some (JObj fields))) as [t|updateData] eqn:Hbody;
    [exists t; reflexivity|].
  exfalso. revert Hbody. unfold updateDataSchema. cbn [zObject ok andThen].
  repeat match goal with
         | |- andThen ?c _ = inr _ -> _ =>
             let E := fresh "E" in
             destruct c eqn:E; cbn [andThen]; [discriminate|]
         end.
  match goal with E : zOptDate _ = inr ?d |- _ =>
    rewrite Hdate in E; discriminate E end.
Qed.

Lemma putSighting_own (st : Store) (u : User) (idParam : string) (body : value)
    (key : Z) (sighting : BirdSighting) :
  numericKey (StringToNumber idParam) = Some key ->
  map_get key (sightings st) = Some sighting ->
  s_userId sighting = id u ->
  putSighting StringToNumber idParam body u st
  = match updateDataSchema body with
    | inl _ => (Json 400 (InvalidData "Invalid sighting data"), st)
    | inr updateData =>
        (Json 200 (OneSighting (spreadSighting sighting updateData)),
         {| ledger := ledger st;
            sightings :=
              map_set key (spreadSighting sighting updateData) (sightings st);
            sightingIdCounter := sightingIdCounter st |})
    end.
Proof.
  intros Hkey Hget Hown. unfold putSighting, tryCatch. rewrite Hkey.
  unfold hbind at 1. rewrite await_getSighting, Hget.
  rewrite bool_decide_eq_true_2 by exact Hown. cbn [negb].
  unfold hbind, parse, await, hret.
  destruct (updateDataSchema body) as [t|updateData] eqn:Hbody.
  - rewrite (updateDataSchema_throws _ _ Hbody). reflexivity.
  - rewrite updateSighting_run, Hget. reflexivity.
Qed.

(** X25: PUT /api/sightings/:id by the owner.  A body the schema rejects
    is answered 400 and nothing changes; a body that has a
    [sightingDate], whatever its value, is such a body.  A body the
    schema accepts is answered with the stored sighting overwritten by
    the fields of the schema that the body has: the id, the owner, the
    date and the identification id stay as they were, whatever else the
    body contains; the row is found under the same id afterwards and no
    user's journal changes its size. *)
Theorem put_keeps_id_owner_and_date (st : Store) (userId : option string)
    (u : User) (idParam : string) (body : value) (sighting : BirdSighting) :
  callerIs StringToNumber userId u st ->
  named StringToNumber idParam st = Some sighting ->
  s_userId sighting = id u ->
  let r := authenticate StringToNumber userId
             (putSighting StringToNumber idParam body) st in
  match updateDataSchema body with
  | inl _ => r = (Json 400 (InvalidData "Invalid sighting data"), st)
  | inr updateData =>
      exists updated,
        reply r = Json 200 (OneSighting updated)
        /\ updated = spreadSighting sighting updateData
        /\ s_id updated = s_id sighting
        /\ s_userId updated = s_userId sighting
        /\ s_sightingDate updated = s_sightingDate sighting
        /\ s_identificationId updated = s_identificationId sighting
        /\ named StringToNumber idParam (leaves r) = Some updated
        /\ (forall other, journalSize other (leaves r) = journalSize other st)
  end
  /\ (forall fields j,
        body = Some (JObj fields) ->
        lookup_field "sightingDate" fields = Some j ->
        r = (Json 400 (InvalidData "Invalid sighting data"), st)).
Proof.
  intros Hcaller Hnamed Hown r. subst r.
  rewrite (authenticate_run _ _ _ _ Hcaller).
  unfold named in *.
  destruct (numericKey (StringToNumber idParam)) as [key|] eqn:Hkey;
    [|discriminate Hnamed].
  rewrite (putSighting_own st u idParam body key sighting Hkey Hnamed Hown).
  split.
  - destruct (updateDataSchema body) as [t|updateData] eqn:Hbody; [reflexivity|].
    destruct (updateDataSchema_keys _ _ Hbody) as (Hid & Huser & Hdate & Hident).
    exists (spreadSighting sighting updateData). unfold reply, leaves.
    cbn [fst snd sightings]. split; [reflexivity|]. split; [reflexivity|].
    unfold spreadSighting at 1 2 3 4.
    cbn [s_id s_userId s_sightingDate s_identificationId].
    rewrite Hid, Huser, Hdate, Hident. cbn [default from_option Datatypes.id].
    repeat (split; [reflexivity|]).
    split; [apply map_get_set|].
    intros other. unfold journalSize, ownSightings. cbn [sightings].
    pose proof (map_set_count (fun s => s_userId s = other) key
                  (spreadSighting sighting updateData) sighting (sightings st)
                  Hnamed) as Hcount.
    assert (Hsame : s_userId (spreadSighting sighting updateData)
                    = s_userId sighting)
      by (cbn [spreadSighting s_userId]; rewrite Huser; reflexivity).
    cbv beta in Hcount. rewrite Hsame in Hcount. lia.
  - intros fields j -> Hdate.
    destruct (updateDataSchema_dated fields j Hdate) as (t & ->). reflexivity.
Qed.

Lemma deleteSightingRoute_own (st : Store) (u : User) (idParam : string)
    (key : Z) (sighting : BirdSighting) :
  numericKey (StringToNumber idParam) = Some key ->
  map_get key (sightings st) = Some sighting ->
  s_userId sighting = id u ->
  deleteSightingRoute StringToNumber idParam u st
  = (Send 204,
     {| ledger := ledger st; sightings := map_delete key (sightings st);
        sightingIdCounter := sightingIdCounter st |}).
Proof.
  intros Hkey Hget Hown. unfold deleteSightingRoute, tryCatch. rewrite Hkey.
  unfold hbind at 1. rewrite await_getSighting, Hget.
  rewrite bool_decide_eq_true_2 by exact Hown. cbn [negb].
  unfold hbind, await, hret. rewrite deleteSighting_run, Hget. reflexivity.
Qed.

(** X26: DELETE /api/sightings/:id by the owner is answered 204 and
    takes the sighting out: the journal of the owner is one shorter, the
    other sightings are found as before, and the same id is answered 404
    from then on, also to the owner. *)
Theorem delete_route_removes_own (st : Store) (userId : option string)
    (u : User) (idParam : string) (sighting : BirdSighting) :
  callerIs StringToNumber userId u st ->
  sightingsNumbered st ->
  named StringToNumber idParam st = Some sighting ->
  s_userId sighting = id u ->
  let r := authenticate StringToNumber userId
             (deleteSightingRoute StringToNumber idParam) st in
  reply r = Send 204
  /\ named StringToNumber idParam (leaves r) = None
  /\ journalSize (id u) (leaves r) = journalSize (id u) st - 1
  /\ (forall key,
        numericKey (StringToNumber idParam) <> Some key ->
        map_get key (sightings (leaves r)) = map_get key (sightings st))
  /\ authenticate StringToNumber userId
       (getSightingRoute StringToNumber idParam) (leaves r)
     = (Json 404 (Message "Sighting not found"), leaves r).
Proof.
  intros Hcaller (_ & _ & Hsorted) Hnamed Hown r. subst r.
  rewrite (authenticate_run _ _ _ _ Hcaller).
  unfold named in *.
  destruct (numericKey (StringToNumber idParam)) as [key|] eqn:Hkey;
    [|discriminate Hnamed].
  rewrite (deleteSightingRoute_own st u idParam key sighting Hkey Hnamed Hown).
  unfold reply, leaves. cbn [fst snd sightings].
  assert (Hgone : map_get key (map_delete key (sightings st)) = None)
    by (apply map_get_delete_eq; exact Hsorted).
  split; [reflexivity|]. split; [exact Hgone|]. split.
  { unfold journalSize, ownSightings. cbn [sightings].
    rewrite (map_delete_count (fun s => s_userId s = id u) key sighting _ Hnamed).
    rewrite bool_decide_eq_true_2 by exact Hown. lia. }
  split.
  { intros k Hk. apply map_get_delete_ne. congruence. }
  assert (Hcaller' : callerIs StringToNumber userId u
                       {| ledger := ledger st;
                          sightings := map_delete key (sightings st);
                          sightingIdCounter := sightingIdCounter st |})
    by exact Hcaller.
  rewrite (authenticate_run _ _ _ _ Hcaller').
  unfold getSightingRoute, tryCatch. rewrite Hkey.
  unfold hbind. rewrite await_getSighting. cbn [sightings]. rewrite Hgone.
  reflexivity.
Qed.

(** *** POST /api/subscription/update *)


Lemma postSubscriptionUpdate_run (st : Store) (u : User) (body : value) :
  users (mem (ledger st)) !! id u = Some u ->
  postSubscriptionUpdate body u st
  = match planSchema body with
    | inl _ => (Json 400 (InvalidData "Invalid subscription plan"), st)
    | inr plan =>
        (Json 200
           (Subscription plan (endDateFor plan st) (subscriptionLimitsMap plan)),
         subscribed plan u st)
    end.
Proof.
  intros Hu. unfold postSubscriptionUpdate, tryCatch.
  unfold hbind at 1. unfold parse at 1.
  destruct (planSchema body) as [t|plan] eqn:Hbody.
  - rewrite (planSchema_throws _ _ Hbody). reflexivity.
  - unfold subscribed, endDateFor.
    destruct (bool_decide (plan = PREMIUM)).
    + unfold hbind, await, onLedger, hret, newDate. cbn [ledger mem clock tick].
      match goal with |- context [updateUserSubscription _ _ ?e ?w] =>
        rewrite (updateUserSubscription_run w (id u) u plan e Hu) end.
      reflexivity.
    + unfold hbind, await, onLedger, hret. cbv beta iota.
      rewrite (updateUserSubscription_run _ (id u) u plan _ Hu).
      reflexivity.
Qed.

Lemma callerIs_subscribed (userId : option string) (u : User) (st : Store)
    (plan : string) :
  callerIs StringToNumber userId u st ->
  callerIs StringToNumber userId
    (spread u (Ledger.subscriptionUpdate plan (endDateFor plan st)))
    (subscribed plan u st).
Proof.
  intros (s & Hs & Hne & Hkey & Hu). exists s.
  split; [exact Hs|]. split; [exact Hne|]. split; [exact Hkey|].
  cbn. apply lookup_insert_eq.
Qed.


(** X28: an upgrade lifts the cap of the journal at once.  After the
    caller's POST /api/subscription/update with the plan "premium", the
    caller's POST /api/sightings with a body the schema accepts is
    answered 201 however many sightings the caller has, ten or more
    included, and the journal grows by one. *)
Theorem upgrade_lifts_the_cap (st : Store) (userId : option string) (u : User)
    (upgrade body : value) (sightingData : SightingData) :
  callerIs StringToNumber userId u st ->
  sightingsNumbered st ->
  planSchema upgrade = inr "premium" ->
  sightingDataSchema body = inr sightingData ->
  let st1 :=
    leaves (authenticate StringToNumber userId (postSubscriptionUpdate upgrade) st) in
  let r := authenticate StringToNumber userId (postSighting body) st1 in
  exists sighting,
    reply r = Json 201 (OneSighting sighting)
    /\ s_userId sighting = id u
    /\ journalSize (id u) (leaves r) = journalSize (id u) st + 1.
Proof.
  intros Hcaller Hst Hup Hbody st1 r. subst r st1.
  rewrite (authenticate_run _ _ _ _ Hcaller).
  pose proof (callerIs_subscribed userId u st "premium" Hcaller) as Hcaller1.
  destruct Hcaller as (_ & _ & _ & _ & Hu).
  rewrite (postSubscriptionUpdate_run st u upgrade Hu), Hup.
  unfold leaves, reply. cbn [snd].
  rewrite (authenticate_run _ _ _ _ Hcaller1).
  set (u1 := spread u (Ledger.subscriptionUpdate "premium" (endDateFor "premium" st))).
  assert (Hst1 : sightingsNumbered (subscribed "premium" u st)) by exact Hst.
  assert (Hlim : sightingLimitOf (subscriptionPlan u1) = inr Infinity)
    by reflexivity.
  destruct (postSighting_created (subscribed "premium" u st) u1 body Infinity
              sightingData Hst1 Hlim I Hbody)
    as (sighting & Hr & _ & Hown & _ & _ & _ & _ & Hn & _).
  unfold leaves, reply in Hr, Hn.
  exists sighting. split; [exact Hr|]. split; [exact Hown|].
  rewrite (Hn (id u)). change (id u1) with (id u).
  rewrite bool_decide_eq_true_2 by reflexivity. reflexivity.
Qed.

(** X29: a downgrade deletes nothing but hides and blocks.  After the
    caller's POST /api/subscription/update with the plan "free" every
    sighting is still stored; GET /api/sightings shows the caller the
    ten newest of the caller's sightings, or all if there are fewer; and
    with ten or more sightings every POST /api/sightings of the caller
    is answered 403. *)
Theorem downgrade_hides_but_keeps (st : Store) (userId : option string)
    (u : User) (downgrade : value) :
  callerIs StringToNumber userId u st ->
  planSchema downgrade = inr "free" ->
  let st1 :=
    leaves (authenticate StringToNumber userId
              (postSubscriptionUpdate downgrade) st) in
  sightings st1 = sightings st
  /\ (exists shown,
        authenticate StringToNumber userId getSightingsRoute st1
        = (Json 200 (ManySightings shown), st1)
        /\ shown `prefix_of` sortSightings (ownSightings (id u) st)
        /\ Z.of_nat (length shown) = Z.min 10 (journalSize (id u) st))
  /\ (10 <= journalSize (id u) st ->
      forall body,
        authenticate StringToNumber userId (postSighting body) st1
        = (Json 403 (SightingLimitReached (journalSize (id u) st) 10), st1)).
Proof.
  intros Hcaller Hdown st1. subst st1.
  rewrite (authenticate_run _ _ _ _ Hcaller).
  pose proof (callerIs_subscribed userId u st "free" Hcaller) as Hcaller1.
  destruct Hcaller as (_ & _ & _ & _ & Hu).
  rewrite (postSubscriptionUpdate_run st u downgrade Hu), Hdown.
  unfold leaves. cbn [snd].
  set (u1 := spread u (Ledger.subscriptionUpdate "free" (endDateFor "free" st))) in *.
  set (st1 := subscribed "free" u st) in *.
  assert (Hu1 : users (mem (ledger st1)) !! id u = Some u1)
    by (destruct Hcaller1 as (_ & _ & _ & _ & Hu1); exact Hu1).
  split; [reflexivity|]. split.
  - rewrite (authenticate_run _ _ _ _ Hcaller1).
    unfold getSightingsRoute, tryCatch, hbind, await, hret.
    change (id u1) with (id u).
    rewrite getUserSightings_run, Hu1. cbv zeta.
    change (ownSightings (id u) st1) with (ownSightings (id u) st).
    change (subscriptionPlan u1) with "free".
    rewrite bool_decide_eq_false_2 by discriminate.
    eexists. split; [reflexivity|]. split.
    + destruct (slice0_take (sortSightings (ownSightings (id u) st)) 10)
        as (n & ->).
      exists (drop n (sortSightings (ownSightings (id u) st))).
      symmetry. apply take_drop.
    + rewrite length_slice0 by lia. rewrite length_sortSightings.
      unfold journalSize. reflexivity.
  - intros Hsize body. rewrite (authenticate_run _ _ _ _ Hcaller1).
    unfold postSighting, tryCatch, hbind, await, parse, hret.
    rewrite getUserSightingCount_run.
    change (id u1) with (id u).
    change (ownSightings (id u) st1) with (ownSightings (id u) st).
    change (sightingLimitOf (subscriptionPlan u1))
      with (@inr Thrown Schema.limit (Num 10)).
    fold (journalSize (id u) st). cbv beta iota.
    rewrite (proj2 (Z.leb_le 10 _) Hsize). reflexivity.
Qed.

End RoutesProperties.

(** ** POST /api/identify *)

Section IdentifyProperties.
Import Js Schema Storage Sightings Gemini Spec SightingsSpec Routes RoutesSpec.
Context {Day : Type} `{EqDecision Day}.
Variable toDateString : Z -> Day.
Variable identifyBirdWithGemini : string -> JsError + IdentificationResult.

(** *** The data URL *)

Lemma append_cons (c : Ascii.ascii) (s t : string) :
  String c s +:+ t = String c (s +:+ t).
Proof. reflexivity. Qed.

Lemma afterPrefix_app (p s : string) : afterPrefix p (p +:+ s) = Some s.
Proof.
  induction p as [|a p IH]; [reflexivity|].
  rewrite append_cons. cbn [afterPrefix]. rewrite Ascii.eqb_refl. exact IH.
Qed.

Lemma wordChar_not_comma (c : Ascii.ascii) :
  wordChar c = true -> Ascii.eqb c comma = false.
Proof.
  intros Hc. destruct (Ascii.eqb_spec c comma) as [->|_]; [|reflexivity].
  vm_compute in Hc. discriminate Hc.
Qed.

Lemma afterWord_app (w t : string) :
  wordChars w = true -> afterWord (w +:+ t) = afterWord t.
Proof.
  induction w as [|c w IH]; [reflexivity|].
  rewrite append_cons. cbn [wordChars afterWord]. intros Hw.
  apply andb_prop in Hw. destruct Hw as (Hc & Hw).
  rewrite Hc. apply IH, Hw.
Qed.

Lemma indexOf_app (w t : string) :
  indexOf comma w = None ->
  indexOf comma (w +:+ t) = Nat.add (String.length w) <$> indexOf comma t.
Proof.
  induction w as [|c w IH]; rewrite ?append_cons; cbn [indexOf String.length].
  - intros _. change ("" +:+ t) with t. destruct (indexOf comma t); reflexivity.
  - destruct (Ascii.eqb c comma); [discriminate|].
    intros Hw. rewrite IH by (destruct (indexOf comma w); [discriminate|reflexivity]).
    destruct (indexOf comma t); reflexivity.
Qed.

Lemma indexOf_word (w : string) : wordChars w = true -> indexOf comma w = None.
Proof.
  induction w as [|c w IH]; [reflexivity|].
  cbn [wordChars indexOf]. intros Hw.
  apply andb_prop in Hw. destruct Hw as (Hc & Hw).
  rewrite (wordChar_not_comma c Hc), (IH Hw). reflexivity.
Qed.

Lemma substringFrom_app (w t : string) (n : nat) :
  substringFrom (String.length w + n) (w +:+ t) = substringFrom n t.
Proof. induction w as [|c w IH]; [reflexivity|exact IH]. Qed.

Lemma imageDataOf_dataUrl (w data : string) :
  w <> "" -> wordChars w = true ->
  imageDataOf ("data:image/" +:+ w +:+ ";base64," +:+ data) = data.
Proof.
  intros Hne Hw. unfold imageDataOf.
  assert (Hpattern : dataUrlPattern ("data:image/" +:+ w +:+ ";base64," +:+ data)
                     = true).
  { unfold dataUrlPattern. rewrite afterPrefix_app.
    destruct w as [|c w]; [contradiction|].
    cbn [wordChars] in Hw. apply andb_prop in Hw. destruct Hw as (Hc & Hw).
    rewrite append_cons, Hc, (afterWord_app _ _ Hw). reflexivity. }
  rewrite Hpattern.
  assert (Hcomma : indexOf comma ("data:image/" +:+ w +:+ ";base64," +:+ data)
                   = Some (11 + (String.length w + 7))%nat).
  { rewrite (indexOf_app "data:image/" _ eq_refl).
    rewrite (indexOf_app w _ (indexOf_word w Hw)). reflexivity. }
  rewrite Hcomma.
  change (substringFrom (11 + (String.length w + 7) + 1)
            ("data:image/" +:+ w +:+ ";base64," +:+ data))
    with (substringFrom (String.length w + 7 + 1) (w +:+ ";base64," +:+ data)).
  rewrite <- Nat.add_assoc. rewrite substringFrom_app. reflexivity.
Qed.

(** X21: the image of POST /api/identify.  When it is a data URL, that
    is ["data:image/"], a word, [";base64,"] and some data, what the
    endpoint passes on is the data alone; otherwise it is passed on as
    it is.  In particular the [originalImage] of a result, which the
    normaliser builds from the image data, is taken apart again into
    that image data. *)
Theorem image_data_round_trip :
  (forall w data,
     w <> "" -> wordChars w = true ->
     imageDataOf ("data:image/" +:+ w +:+ ";base64," +:+ data) = data)
  /\ (forall image, dataUrlPattern image = false -> imageDataOf image = image)
  /\ (forall base64Image,
        base64Image <> "" ->
        imageDataOf (originalImageOf (Some base64Image)) = base64Image).
Proof.
  split; [exact imageDataOf_dataUrl|]. split.
  - intros image Hno. unfold imageDataOf. rewrite Hno. reflexivity.
  - intros b Hb. unfold originalImageOf.
    rewrite bool_decide_eq_false_2 by exact Hb. unfold mimeTypeOf.
    destruct (String.prefix "/9j/" b);
      [exact (imageDataOf_dataUrl "jpeg" b ltac:(discriminate) eq_refl)|].
    destruct (String.prefix "iVBORw0KGgo" b);
      [exact (imageDataOf_dataUrl "png" b ltac:(discriminate) eq_refl)|].
    destruct (String.prefix "R0lGODlh" b);
      [exact (imageDataOf_dataUrl "gif" b ltac:(discriminate) eq_refl)|].
    destruct (String.prefix "UklGR" b);
      [exact (imageDataOf_dataUrl "webp" b ltac:(discriminate) eq_refl)|].
    exact (imageDataOf_dataUrl "jpeg" b ltac:(discriminate) eq_refl).
Qed.

(** *** The handler *)

Lemma identifyBodySchema_throws (body : value) (t : Thrown) :
  identifyBodySchema body = inl t -> t = ZodError.
Proof.
  unfold identifyBodySchema.
  destruct (zObject body) as [t0|fields] eqn:E; cbn [andThen];
    [intros [= <-]; exact (zObject_throws _ _ E)|].
  destruct (zNonEmptyString (lookup_field "image" fields)) as [t0|image] eqn:E1;
    cbn [andThen]; [intros [= <-]; exact (zNonEmptyString_throws _ _ E1)|].
  unfold raise, ok.
  destruct (lookup_field "source" fields) as [[| | |source| |]|];
    cbn [andThen]; try congruence.
  destruct (bool_decide (source = "camera") || bool_decide (source = "upload"));
    cbn [andThen]; congruence.
Qed.

(** X30: POST /api/identify counts against nobody.  A body the schema
    rejects is answered 400, a failure of the identification service
    500, and in both cases nothing is stored.  Otherwise the result is
    sent back and one record is appended to the identifications: it has
    the next id, no owner, the time of the call, the result, and as
    image only the first 30 characters of the image data.  No user row
    changes, so no daily count goes up, and the record is in no user's
    list of own records. *)
Theorem identify_counts_nobody (st : Store) (body : value) :
  Ledger.wellNumbered (mem (ledger st)) ->
  let r := postIdentify toDateString identifyBirdWithGemini body st in
  match identifyBodySchema body with
  | inl _ => r = (Json 400 (InvalidData "Invalid request data"), st)
  | inr (image, _) =>
      match identifyBirdWithGemini (imageDataOf image) with
      | inl e => r = (Json 500 (IdentifyFailed (Rejected e)), st)
      | inr result =>
          let record := ownerless st (imageDataOf image) result in
          reply r = Json 200 (Identified result)
          /\ identifications (mem (ledger (leaves r)))
             = (identifications (mem (ledger st)) ++ [(bi_id record, record)])%list
          /\ users (mem (ledger (leaves r))) = users (mem (ledger st))
          /\ (forall userId,
                recordsOf userId (ledger (leaves r))
                = recordsOf userId (ledger st))
          /\ sightings (leaves r) = sightings st
      end
  end.
Proof.
  intros Hw r. subst r.
  unfold postIdentify, tryCatch, hbind, parse, settled, served.
  destruct (identifyBodySchema body) as [t|[image source]] eqn:Hbody.
  - rewrite (identifyBodySchema_throws _ _ Hbody). reflexivity.
  - cbn [fst].
    destruct (identifyBirdWithGemini (imageDataOf image)) as [e|result];
      [reflexivity|].
    unfold await, onLedger, hret.
    rewrite createIdentification_run. cbn [or_null ibi_userId].
    cbv zeta. unfold reply, leaves.
    cbn [fst snd ledger mem sightings identifications users setIdentifications
         ibi_imageUrl ibi_result].
    assert (Hbelow : Forall (fun kv => kv.1 < identificationIdCounter (mem (ledger st)))
                            (identifications (mem (ledger st)))).
    { destruct Hw as [_ _ Hn _ _]. eapply Forall_impl; [exact Hn|].
      cbn. intros kv ?. lia. }
    rewrite (map_set_fresh _ _ _ Hbelow).
    split; [reflexivity|]. split; [reflexivity|]. split; [reflexivity|].
    split; [|reflexivity].
    intros userId. unfold recordsOf, map_values.
    cbn [mem identifications setIdentifications].
    rewrite fmap_app, filter_app. cbn [fmap list_fmap snd].
    rewrite filter_cons, filter_nil.
    case_decide as Hown; [discriminate Hown|]. apply app_nil_r.
Qed.

End IdentifyProperties.

(** ** Instances *)

Section RoutesInstances.
Import Js Schema Storage Sightings Gemini Spec NormalizerSpec SightingsSpec.
Import Routes RoutesSpec.

Lemma robin_calls_oneUserStore :
  callerIs decimalNumeral (Some "1") freeRow oneUserStore.
Proof.
  exists "1". split; [reflexivity|]. split; [discriminate|].
  split; vm_compute; reflexivity.
Qed.

Lemma robin_calls_twelveSightings :
  callerIs decimalNumeral (Some "1") freeRow twelveSightings.
Proof.
  exists "1". split; [reflexivity|]. split; [discriminate|].
  split; vm_compute; reflexivity.
Qed.

Lemma robin_calls_twelveSightingsPremium :
  callerIs decimalNumeral (Some "1") premiumRow twelveSightingsPremium.
Proof.
  exists "1". split; [reflexivity|]. split; [discriminate|].
  split; vm_compute; reflexivity.
Qed.

Lemma robin_calls_sharedStore :
  callerIs decimalNumeral (Some "1") freeRow sharedStore.
Proof.
  exists "1". split; [reflexivity|]. split; [discriminate|].
  split; vm_compute; reflexivity.
Qed.

Lemma numbered_sharedStore : sightingsNumbered sharedStore.
Proof.
  apply numbered_createSighting.
  split; [cbn [sightingIdCounter]; lia|]. split; constructor.
Qed.

Lemma numbered_onLedger {A} (c : M A) (st : Store) :
  sightingsNumbered st -> sightingsNumbered (snd (onLedger c st)).
Proof.
  intros Hst. unfold onLedger. destruct (c (ledger st)) as [r w']. exact Hst.
Qed.

Lemma numbered_twelveSightingsPremium : sightingsNumbered twelveSightingsPremium.
Proof. apply numbered_onLedger, numbered_twelveSightings. Qed.

Lemma image_data_round_trip_witness :
  imageDataOf "data:image/png;base64,iVBORw0KGgo" = "iVBORw0KGgo"
  /\ imageDataOf (originalImageOf (Some "/9j/4AAQ")) = "/9j/4AAQ".
Proof.
  destruct image_data_round_trip as (Hurl & _ & Hback). split.
  - exact (Hurl "png" "iVBORw0KGgo" ltac:(discriminate) eq_refl).
  - exact (Hback "/9j/4AAQ" ltac:(discriminate)).
Defined.

Lemma free_journal_stays_within_10_witness :
  journalSize 1 twelveSightings = 12
  /\ authenticate decimalNumeral (Some "1") (postSighting wrenBody) twelveSightings
     = (Json 403 (SightingLimitReached 12 10), twelveSightings)
  /\ (exists sighting,
        reply (authenticate decimalNumeral (Some "1") (postSighting wrenBody)
                 oneUserStore)
        = Json 201 (OneSighting sighting)
        /\ s_userId sighting = 1
        /\ journalSize 1
             (leaves (authenticate decimalNumeral (Some "1")
                        (postSighting wrenBody) oneUserStore))
           = 1).
Proof.
  assert (Hsize : journalSize 1 twelveSightings = 12) by (vm_compute; reflexivity).
  split; [exact Hsize|]. split.
  - destruct (free_journal_stays_within_10 decimalNumeral twelveSightings
                (Some "1") freeRow wrenBody robin_calls_twelveSightings eq_refl
                numbered_twelveSightings) as (Hfull & _ & _).
    cbn [id freeRow] in Hfull. rewrite Hsize in Hfull. apply Hfull. lia.
  - destruct (free_journal_stays_within_10 decimalNumeral oneUserStore
                (Some "1") freeRow wrenBody robin_calls_oneUserStore eq_refl
                numbered_oneUserStore) as (_ & Hroom & _).
    assert (Hempty : journalSize (id freeRow) oneUserStore = 0)
      by (vm_compute; reflexivity).
    rewrite Hempty in Hroom. specialize (Hroom ltac:(lia)).
    destruct (sightingDataSchema wrenBody) as [t|sightingData] eqn:Hbody;
      [vm_compute in Hbody; discriminate|].
    destruct Hroom as (sighting & Hr & _ & Hown & _ & _ & _ & Hn).
    exists sighting. split; [exact Hr|]. split; [exact Hown|exact Hn].
Defined.

Lemma premium_journal_is_open_witness :
  journalSize 1 twelveSightingsPremium = 12
  /\ (exists sighting,
        reply (authenticate decimalNumeral (Some "1") (postSighting wrenBody)
                 twelveSightingsPremium)
        = Json 201 (OneSighting sighting)
        /\ s_userId sighting = 1).
Proof.
  split; [vm_compute; reflexivity|].
  destruct (sightingDataSchema wrenBody) as [t|sightingData] eqn:Hbody;
    [vm_compute in Hbody; discriminate|].
  destruct (premium_journal_is_open decimalNumeral twelveSightingsPremium
              (Some "1") premiumRow wrenBody sightingData
              robin_calls_twelveSightingsPremium eq_refl
              numbered_twelveSightingsPremium Hbody)
    as (sighting & Hr & Hown & _).
  exists sighting. split; [exact Hr|exact Hown].
Defined.

Lemma foreign_sighting_is_refused_witness :
  (exists u,
     callerIs decimalNumeral (Some "2") u sharedStore
     /\ authenticate decimalNumeral (Some "2")
          (getSightingRoute decimalNumeral "1") sharedStore
        = (Json 403 (Message "Unauthorized access to sighting"), sharedStore)
     /\ authenticate decimalNumeral (Some "2")
          (deleteSightingRoute decimalNumeral "1") sharedStore
        = (Json 403 (Message "Unauthorized access to sighting"), sharedStore)
     /\ authenticate decimalNumeral (Some "2")
          (putSighting decimalNumeral "7" renameBody) sharedStore
        = (Json 404 (Message "Sighting not found"), sharedStore)).
Proof.
  destruct (users (mem (ledger sharedStore)) !! 2) as [u|] eqn:Hu;
    [|vm_compute in Hu; discriminate].
  assert (Hid : id u = 2)
    by (vm_compute in Hu; injection Hu as <-; reflexivity).
  assert (Hcaller : callerIs decimalNumeral (Some "2") u sharedStore).
  { exists "2". split; [reflexivity|]. split; [discriminate|].
    rewrite Hid. split; [vm_compute; reflexivity|exact Hu]. }
  exists u. split; [exact Hcaller|].
  destruct (named decimalNumeral "1" sharedStore) as [sighting|] eqn:Hnamed;
    [|vm_compute in Hnamed; discriminate].
  assert (Hother : s_userId sighting <> id u).
  { rewrite Hid. vm_compute in Hnamed. injection Hnamed as <-. discriminate. }
  destruct (foreign_sighting_is_refused decimalNumeral sharedStore (Some "2") u
              "1" renameBody Hcaller) as (_ & Hforeign).
  destruct (Hforeign sighting Hnamed Hother) as (Hget & _ & Hdelete).
  split; [exact Hget|]. split; [exact Hdelete|].
  destruct (foreign_sighting_is_refused decimalNumeral sharedStore (Some "2") u
              "7" renameBody Hcaller) as (Hmissing & _).
  destruct (Hmissing ltac:(vm_compute; reflexivity)) as (_ & Hput & _).
  exact Hput.
Defined.

Lemma put_keeps_id_owner_and_date_witness :
  exists updated,
    reply (authenticate decimalNumeral (Some "1")
             (putSighting decimalNumeral "1" renameBody) sharedStore)
    = Json 200 (OneSighting updated)
    /\ s_birdName updated = "Eurasian Wren"
    /\ s_id updated = 1
    /\ s_userId updated = 1
    /\ authenticate decimalNumeral (Some "1")
         (putSighting decimalNumeral "1" redateBody) sharedStore
       = (Json 400 (InvalidData "Invalid sighting data"), sharedStore).
Proof.
  destruct (named decimalNumeral "1" sharedStore) as [sighting|] eqn:Hnamed;
    [|vm_compute in Hnamed; discriminate].
  assert (Hrow : s_id sighting = 1 /\ s_userId sighting = 1).
  { vm_compute in Hnamed. injection Hnamed as <-. split; reflexivity. }
  destruct Hrow as (Hid & Hown).
  destruct (put_keeps_id_owner_and_date decimalNumeral sharedStore (Some "1")
              freeRow "1" renameBody sighting robin_calls_sharedStore Hnamed Hown)
    as (Hput & _).
  destruct (updateDataSchema renameBody) as [t|updateData] eqn:Hbody;
    [vm_compute in Hbody; discriminate|].
  destruct Hput as (updated & Hr & Hmerged & Hsame & Hsame' & _).
  exists updated. split; [exact Hr|]. split.
  { rewrite Hmerged. vm_compute in Hbody. injection Hbody as <-. reflexivity. }
  split; [rewrite Hsame; exact Hid|]. split; [rewrite Hsame'; exact Hown|].
  destruct (put_keeps_id_owner_and_date decimalNumeral sharedStore (Some "1")
              freeRow "1" redateBody sighting robin_calls_sharedStore Hnamed Hown)
    as (_ & Hdated).
  exact (Hdated _ _ eq_refl eq_refl).
Defined.

Lemma delete_route_removes_own_witness :
  reply (authenticate decimalNumeral (Some "1")
           (deleteSightingRoute decimalNumeral "1") sharedStore)
  = Send 204
  /\ journalSize 1 sharedStore = 1
  /\ journalSize 1
       (leaves (authenticate decimalNumeral (Some "1")
                  (deleteSightingRoute decimalNumeral "1") sharedStore))
     = 0.
Proof.
  destruct (named decimalNumeral "1" sharedStore) as [sighting|] eqn:Hnamed;
    [|vm_compute in Hnamed; discriminate].
  assert (Hown : s_userId sighting = id freeRow).
  { vm_compute in Hnamed. injection Hnamed as <-. reflexivity. }
  destruct (delete_route_removes_own decimalNumeral sharedStore (Some "1")
              freeRow "1" sighting robin_calls_sharedStore numbered_sharedStore
              Hnamed Hown) as (Hr & _ & Hn & _).
  assert (Hsize : journalSize 1 sharedStore = 1) by (vm_compute; reflexivity).
  split; [exact Hr|]. split; [exact Hsize|].
  cbn [id freeRow] in Hn. rewrite Hn, Hsize. reflexivity.
Defined.


Lemma upgrade_lifts_the_cap_witness :
  journalSize 1 twelveSightings = 12
  /\ (exists sighting,
        reply (authenticate decimalNumeral (Some "1") (postSighting wrenBody)
                 (leaves (authenticate decimalNumeral (Some "1")
                            (postSubscriptionUpdate upgradeBody) twelveSightings)))
        = Json 201 (OneSighting sighting)
        /\ s_userId sighting = 1).
Proof.
  split; [vm_compute; reflexivity|].
  destruct (sightingDataSchema wrenBody) as [t|sightingData] eqn:Hbody;
    [vm_compute in Hbody; discriminate|].
  destruct (upgrade_lifts_the_cap decimalNumeral twelveSightings (Some "1")
              freeRow upgradeBody wrenBody sightingData
              robin_calls_twelveSightings numbered_twelveSightings eq_refl Hbody)
    as (sighting & Hr & Hown & _).
  exists sighting. split; [exact Hr|exact Hown].
Defined.

Lemma downgrade_hides_but_keeps_witness :
  journalSize 1 twelveSightingsPremium = 12
  /\ (exists shown,
        reply (authenticate decimalNumeral (Some "1") getSightingsRoute
                 (leaves (authenticate decimalNumeral (Some "1")
                            (postSubscriptionUpdate downgradeBody)
                            twelveSightingsPremium)))
        = Json 200 (ManySightings shown)
        /\ Z.of_nat (length shown) = 10).
Proof.
  assert (Hsize : journalSize 1 twelveSightingsPremium = 12)
    by (vm_compute; reflexivity).
  split; [exact Hsize|].
  destruct (downgrade_hides_but_keeps decimalNumeral twelveSightingsPremium
              (Some "1") premiumRow downgradeBody
              robin_calls_twelveSightingsPremium eq_refl)
    as (_ & (shown & Hr & _ & Hn) & _).
  exists shown. unfold reply. rewrite Hr. split; [reflexivity|].
  rewrite Hn. cbn [id premiumRow]. rewrite Hsize. reflexivity.
Defined.

Lemma identify_counts_nobody_witness :
  Ledger.wellNumbered (mem (ledger oneUserStore))
  /\ (exists result,
        reply (postIdentify utcDay (answering robinAndWren) identifyBody oneUserStore)
        = Json 200 (Identified result)
        /\ users (mem (ledger (leaves (postIdentify utcDay (answering robinAndWren)
                                         identifyBody oneUserStore))))
           = users (mem (ledger oneUserStore))).
Proof.
  pose proof wellNumbered_freeWorld as Hw. split; [exact Hw|].
  pose proof (identify_counts_nobody utcDay (answering robinAndWren) oneUserStore
                identifyBody Hw) as Hroute.
  cbv zeta in Hroute.
  destruct (identifyBodySchema identifyBody) as [t|[image source]] eqn:Hbody;
    [vm_compute in Hbody; discriminate|].
  destruct (answering robinAndWren (imageDataOf image)) as [e|result] eqn:Hanswer.
  - exfalso. vm_compute in Hbody. injection Hbody as <- <-.
    vm_compute in Hanswer. discriminate Hanswer.
  - destruct Hroute as (Hr & _ & Husers & _).
    exists result. split; [exact Hr|exact Husers].
Defined.

End RoutesInstances.

